(** * Deployment orchestrator: a shallow embedding and its properties

    The repository holds a container orchestrator written twice, over two
    state stores: [unnamed/part_003] keeps its entities in Redis (string
    keys, counters and sets), [src/server/server.js] keeps them in MongoDB
    collections.  The worker agent is [unnamed/part_002].  Both orchestrators
    are embedded here, each in its own module, over shared record types.

    A handler runs to completion at one instant [now]; the messages it emits
    are appended to a log.  The scaling round and the inactivity sweep are
    the timers embedded; the heartbeat timeout of the MongoDB variant is left
    out.  The schema validation of the MongoDB models is not embedded: every
    status the orchestrator writes by itself is one its schemas admit, and a
    status received from an agent is stored as it came.  The first document
    of [src/server/server.js], a dispatcher over plain WebSockets, is
    embedded in a module of its own. *)

From Stdlib Require Import Ascii String QArith SpecFloat.
From stdpp Require Import base option list gmap strings sorting pretty.

Local Open Scope string_scope.
Local Open Scope list_scope.
Local Open Scope nat_scope.

(** ** Repository references (validateGithubRepo, deployProject)

    JavaScript strings are sequences of code units; the three [replace]
    calls of the normalizer are embedded over [list ascii], and lifted to
    [string] through the standard conversions. *)

Module Repo.

Definition chars (s : string) : list ascii := list_ascii_of_string s.

(** The literal matched by [/^(https:\/\/github\.com\/)+/]. *)
Definition githubPrefix : list ascii := Eval cbv in chars "https://github.com/".

(** The literal matched by [/\.git$/]. *)
Definition gitSuffix : list ascii := Eval cbv in chars ".git".

(** [s.replace(/^(https:\/\/github\.com\/)+/, '')]: the group is greedy, so
    every leading repetition of the prefix is removed.  Each round drops
    [length githubPrefix] characters, so [length s] rounds always suffice. *)
Fixpoint stripPrefixes (fuel : nat) (s : list ascii) : list ascii :=
  match fuel with
  | O => s
  | S fuel' =>
      if decide (githubPrefix `prefix_of` s)
      then stripPrefixes fuel' (drop (length githubPrefix) s)
      else s
  end.

Definition stripLeadingPrefixes (s : list ascii) : list ascii :=
  stripPrefixes (length s) s.

(** [s.replace(/\.git$/, '')]: without the [m] flag [$] is the end of the
    input, so exactly one trailing [.git] is removed. *)
Definition stripGitSuffix (s : list ascii) : list ascii :=
  if decide (gitSuffix `suffix_of` s)
  then take (length s - length gitSuffix) s
  else s.

(** [s.replace(/^https:\/\/github\.com\//, '')]: one leading prefix. *)
Definition stripOnePrefix (s : list ascii) : list ascii :=
  if decide (githubPrefix `prefix_of` s)
  then drop (length githubPrefix) s
  else s.

(** [normalizedUrl] of [validateGithubRepo] and of [deployProject]. *)
Definition normalizeChars (s : list ascii) : list ascii :=
  stripOnePrefix (stripGitSuffix (stripLeadingPrefixes s)).

Definition normalizedUrl (repoUrl : string) : string :=
  string_of_list_ascii (normalizeChars (chars repoUrl)).

(** The clone URL formed by [deployProject] for [git clone]:
    [`https://github.com/${normalizedUrl}.git`]. *)
Definition canonicalChars (s : list ascii) : list ascii :=
  githubPrefix ++ normalizeChars s ++ gitSuffix.

Definition canonicalize (repoUrl : string) : string :=
  string_of_list_ascii (canonicalChars (chars repoUrl)).

(** The endpoint queried by [validateGithubRepo]. *)
Definition apiUrl (repoUrl : string) : string :=
  "https://api.github.com/repos/" ++ normalizedUrl repoUrl.

End Repo.

(** ** Shared data model

    Identifiers are the integers issued by the Redis counters, or stand for
    the ObjectIds MongoDB issues.  [Date.now()] counts milliseconds since the
    epoch and is positive, so a timestamp field is falsy in JavaScript exactly
    when it is absent.  A JavaScript number that carries a percentage and is
    only stored, passed on or compared with a constant is kept as the
    rational it denotes; where the orchestrator adds and divides such
    numbers, in the scaling decision, the arithmetic is that of [Double]
    below.  [minReplicas] and [maxReplicas] are integers. *)

Abbreviation Id := nat.
Abbreviation Time := positive.
Abbreviation SocketId := string.

Module Load.
Record t := make { cpuUsage : Q; memoryUsage : Q; runningContainers : nat }.
End Load.

Module Metrics.
Record t := make { cpuUsage : Q; memoryUsage : Q }.
End Metrics.

Module Worker.
Record t := make {
  id : Id;
  hostname : string;
  socketId : SocketId;
  status : string;
  lastHeartbeat : Time;
  currentLoad : option Load.t   (* absent until the first workerStatus *)
}.
End Worker.

(** An element of [deployment.workers]; [replicaId] holds the replica
    number. *)
Module Assignment.
Record t := make { workerId : Id; replicaId : nat; status : string }.
Definition withStatus (s : string) (a : t) : t :=
  make (workerId a) (replicaId a) s.
End Assignment.

Module Deployment.
Record t := make {
  id : Id;
  githubRepo : string;
  userName : string;
  minReplicas : Z;
  maxReplicas : Z;
  status : string;
  workers : list Assignment.t;
  createdAt : Time;
  lastScaleUp : option Time;
  lastScaleDown : option Time
}.
Definition withStatus (s : string) (d : t) : t :=
  make (id d) (githubRepo d) (userName d) (minReplicas d) (maxReplicas d) s
       (workers d) (createdAt d) (lastScaleUp d) (lastScaleDown d).
Definition withWorkers (ws : list Assignment.t) (d : t) : t :=
  make (id d) (githubRepo d) (userName d) (minReplicas d) (maxReplicas d)
       (status d) ws (createdAt d) (lastScaleUp d) (lastScaleDown d).
Definition withLastScaleUp (now : Time) (d : t) : t :=
  make (id d) (githubRepo d) (userName d) (minReplicas d) (maxReplicas d)
       (status d) (workers d) (createdAt d) (Some now) (lastScaleDown d).
Definition withLastScaleDown (now : Time) (d : t) : t :=
  make (id d) (githubRepo d) (userName d) (minReplicas d) (maxReplicas d)
       (status d) (workers d) (createdAt d) (lastScaleUp d) (Some now).
End Deployment.

Module Replica.
Record t := make {
  id : Id;
  deploymentId : Id;
  status : string;
  replicaNumber : nat;
  createdAt : option Time;   (* scaleUp of the Redis variant leaves it out *)
  metrics : option Metrics.t
}.
Definition withStatus (s : string) (r : t) : t :=
  make (id r) (deploymentId r) s (replicaNumber r) (createdAt r) (metrics r).
Definition withReport (s : string) (m : option Metrics.t) (r : t) : t :=
  make (id r) (deploymentId r) s (replicaNumber r) (createdAt r) m.
End Replica.

(** The body of [POST /deploy]; an omitted field is [None]. *)
Module DeploymentRequest.
Record t := make {
  githubRepo : string;
  userName : string;
  minReplicas : option Z;
  maxReplicas : option Z
}.
End DeploymentRequest.

(** The payload of a [deploymentStatus] event. *)
Module StatusUpdate.
Record t := make {
  workerId : Id;
  deploymentId : Id;
  replicaId : nat;
  status : string;
  metrics : option Metrics.t
}.
End StatusUpdate.

(** What the code host answers for an existing repository
    ([response.data]). *)
Record RepoInfo := { clone_url : string }.

(** Events the orchestrator emits to a socket, with their payloads. *)
Inductive Message :=
  | workerRegistered (id : Id)
  | deployRepository (deploymentDir repoUrl : string) (replicaId : nat)
                     (deploymentId : Id) (deploymentTime : Time)
  | deploymentTask (deploymentId : Id) (replicaId : nat) (githubRepo : string)
                   (deploymentTime : Time)
  | removeReplica (deploymentId : Id) (replicaId : nat)
  | errorMessage (message : string).

Definition eventName (m : Message) : string :=
  match m with
  | workerRegistered _ => "workerRegistered"
  | deployRepository _ _ _ _ _ => "deployRepository"
  | deploymentTask _ _ _ _ => "deploymentTask"
  | removeReplica _ _ => "removeReplica"
  | errorMessage _ => "error"
  end.

(** The events the worker agent subscribes to in [initializeSocketHandlers]
    ([connect] and [disconnect] are transport events). *)
Definition workerHandles (m : Message) : bool :=
  match m with
  | workerRegistered _ | deployRepository _ _ _ _ _ | removeReplica _ _
  | errorMessage _ => true
  | deploymentTask _ _ _ _ => false
  end.

Inductive Error :=
  | InvalidRepository
  | InsufficientWorkers (required : Z) (available : nat)
  | NoAvailableWorkers
  | TypeError
  | StoreFailure.

(** What [POST /deploy] answers: the deployment, or status 500 with the
    message of the error. *)
Inductive Response :=
  | json (deployment : Deployment.t)
  | status500 (error : Error).

(** What the environment supplies: the working root of the deployments, the
    answer of the code host for a normalized reference ([None] when the call
    fails), and the worker records whose read the store rejects while a
    deployment is distributed (the one place where a rejected call is more
    than logged). *)
Record Env := {
  deploymentPath : string;
  github : string → option RepoInfo;
  readRejected : Id → bool
}.

(** [this.scalingSettings] *)
Module scalingSettings.
Definition cpuThreshold : Q := 70.
Definition checkInterval : Z := 30000.
Definition scaleUpCooldown : Z := 300000.
Definition scaleDownCooldown : Z := 600000.
End scalingSettings.

(** ** Computations that may throw

    A computation reads and writes a world and either returns or throws;
    writes made before a throw stay, as in the source. *)

Inductive Outcome (A : Type) :=
  | Returned (a : A)
  | Thrown (e : Error).
Arguments Returned {A} a.
Arguments Thrown {A} e.

Definition M (W A : Type) : Type := W → Outcome A * W.

Global Instance M_ret {W} : MRet (M W) := λ A a w, (Returned a, w).
Global Instance M_bind {W} : MBind (M W) := λ A B f m w,
  match m w with
  | (Returned a, w') => f a w'
  | (Thrown e, w') => (Thrown e, w')
  end.

Definition throw {W A} (e : Error) : M W A := λ w, (Thrown e, w).
Definition getWorld {W} : M W W := λ w, (Returned w, w).
Definition modifyWorld {W} (f : W → W) : M W unit := λ w, (Returned tt, f w).
Definition liftOutcome {W A} (o : Outcome A) : M W A := λ w, (o, w).

(** [try { body } catch (error) { handler(error) }] *)
Definition tryCatch {W A} (body : M W A) (handler : Error → M W A) : M W A :=
  λ w, match body w with
       | (Returned a, w') => (Returned a, w')
       | (Thrown e, w') => handler e w'
       end.

(** The world a computation leaves behind. *)
Definition exec {W A} (m : M W A) (w : W) : W := (m w).2.
Definition outcome {W A} (m : M W A) (w : W) : Outcome A := (m w).1.

(** ** Numbers *)

Definition Qltb (x y : Q) : bool := negb (Qle_bool y x).

(** The arithmetic of JavaScript numbers: IEEE 754 binary64, rounding to
    nearest with ties to even, as the Standard Library specifies it
    ([SpecFloat], with a mantissa of 53 bits and 1024 as the exponent of the
    infinities). *)
Module Double.

Definition prec : Z := 53.
Definition emax : Z := 1024.

Abbreviation t := spec_float.

(** An integer as an unrounded mantissa with exponent 0. *)
Definition raw (z : Z) : t :=
  match z with
  | Z0 => S754_zero false
  | Zpos p => S754_finite false p 0
  | Zneg p => S754_finite true p 0
  end.

(** The double of an integer literal or of an array length. *)
Definition ofZ (z : Z) : t := binary_normalize prec emax z 0 false.

(** The double nearest to a rational: what [JSON.parse] makes of the decimal
    text of a number, and the number itself when it is a double already.
    The quotient of numerator and denominator is rounded once. *)
Definition ofQ (q : Q) : t := SFdiv prec emax (raw (Qnum q)) (raw (Zpos (Qden q))).

Definition add : t → t → t := SFadd prec emax.
Definition div : t → t → t := SFdiv prec emax.

(** [x < y]; false when either is NaN. *)
Definition ltb : t → t → bool := SFltb.

End Double.

(** [now - t], in milliseconds. *)
Definition elapsed (now t : Time) : Z := (Z.pos now - Z.pos t)%Z.

(** [array.slice(0, n)]: a negative [n] counts from the end. *)
Definition slice0 {A} (n : Z) (l : list A) : list A :=
  if (n <? 0)%Z then take (Z.to_nat (Z.of_nat (length l) + n)) l
  else take (Z.to_nat n) l.

(** ** The scaling decision (checkAndScale)

    Both variants compute the average and test the same two conditions. *)

Definition cpuOrZero (r : Replica.t) : Q :=
  match Replica.metrics r with
  | Some m => Metrics.cpuUsage m
  | None => 0
  end.

Definition activeReplicas (replicas : list Replica.t) : list Replica.t :=
  filter (λ r, Replica.status r = "active") replicas.

(** [let totalCpuLoad = 0; activeReplicas.forEach(replica =>
    { totalCpuLoad += replica.metrics?.cpuUsage || 0; })] *)
Definition totalCpuLoad (active : list Replica.t) : Double.t :=
  foldl (λ total r, Double.add total (Double.ofQ (cpuOrZero r))) (Double.ofZ 0) active.

(** [activeReplicas.length > 0 ? totalCpuLoad / activeReplicas.length : 0] *)
Definition avgCpuLoad (replicas : list Replica.t) : Double.t :=
  let active := activeReplicas replicas in
  if 0 <? length active
  then Double.div (totalCpuLoad active) (Double.ofZ (Z.of_nat (length active)))
  else Double.ofZ 0.

(** [!stamp || now - stamp > cooldown] *)
Definition cooledDown (now : Time) (stamp : option Time) (cooldown : Z) : bool :=
  match stamp with
  | None => true
  | Some t => (cooldown <? elapsed now t)%Z
  end.

Inductive Action := ScaleUp | ScaleDown | NoChange.

Definition scalingDecision (deployment : Deployment.t)
    (replicas : list Replica.t) (now : Time) : Action :=
  let avg := avgCpuLoad replicas in
  let count := Z.of_nat (length replicas) in
  if Double.ltb (Double.ofQ scalingSettings.cpuThreshold) avg
     && (count <? Deployment.maxReplicas deployment)%Z
     && cooledDown now (Deployment.lastScaleUp deployment)
                   scalingSettings.scaleUpCooldown
  then ScaleUp
  else if Double.ltb avg (Double.div (Double.ofQ scalingSettings.cpuThreshold)
                                      (Double.ofZ 2))
     && (Deployment.minReplicas deployment <? count)%Z
     && cooledDown now (Deployment.lastScaleDown deployment)
                   scalingSettings.scaleDownCooldown
  then ScaleDown
  else NoChange.

(** [`${this.deploymentPath}/${deployment.id}_${workerRef.replicaId}`] *)
Definition deploymentDirOf (env : Env) (deploymentId : Id) (replicaId : nat) : string :=
  deploymentPath env ++ "/" ++ pretty deploymentId ++ "_" ++ pretty replicaId.

(** The assignments [deployRepository] gives a new deployment:
    [chosen.slice(0, minReplicas).map((worker, index) => ...)]. *)
Definition initialAssignments (minReplicas : Z) (chosen : list Worker.t) : list Assignment.t :=
  imap (λ index worker, Assignment.make (Worker.id worker) (index + 1) "pending")
       (slice0 minReplicas chosen).

(** [for (let i = 0; i < minReplicas; i++)]: the replica numbers
    [1 .. minReplicas]. *)
Definition initialReplicaNumbers (minReplicas : Z) : list nat :=
  seq 1 (Z.to_nat minReplicas).

(** [deployment.workers.findIndex(w => w.replicaId.toString() ===
    statusUpdate.replicaId.toString())] and the update of that element. *)
Definition reportAssignment (u : StatusUpdate.t) (ws : list Assignment.t)
    : option (list Assignment.t) :=
  match list_find (λ a, Assignment.replicaId a = StatusUpdate.replicaId u) ws with
  | Some (workerIndex, a) =>
      Some (<[workerIndex := Assignment.withStatus (StatusUpdate.status u) a]> ws)
  | None => None
  end.

(** [error.message] *)
Definition errorText (e : Error) : string :=
  match e with
  | InvalidRepository => "Invalid repository"
  | InsufficientWorkers required available =>
      "Insufficient active workers. Required: " ++ pretty required
      ++ ", Available: " ++ pretty available
  | NoAvailableWorkers => "No available workers found"
  | TypeError => "Cannot read properties of undefined"
  | StoreFailure => "store failure"
  end.

(** [for (const x of xs) { await body(x) }] *)
Fixpoint forEach {W A} (xs : list A) (body : A → M W unit) : M W unit :=
  match xs with
  | [] => mret tt
  | x :: rest => body x ;; forEach rest body
  end.

(** Reading a property of every element: [null] has none. *)
Fixpoint requireAll {A} (xs : list (option A)) : Outcome (list A) :=
  match xs with
  | [] => Returned []
  | None :: _ => Thrown TypeError
  | Some x :: rest =>
      match requireAll rest with
      | Returned ys => Returned (x :: ys)
      | Thrown e => Thrown e
      end
  end.

(** ** The inactivity sweep and the listings (both variants) *)

(** [this.cleanupInterval] and [this.inactiveTimeout], in milliseconds. *)
Definition cleanupInterval : Z := 60 * 1000.
Definition inactiveTimeout : Z := 2 * 60 * 1000.

(** [Date.now() - this.inactiveTimeout] *)
Definition cutoffTime (now : Time) : Z := (Z.pos now - inactiveTimeout)%Z.

(** [worker.lastHeartbeat < cutoffTime || worker.status === 'inactive'] *)
Definition isInactive (cutoff : Z) (worker : Worker.t) : bool :=
  (Z.pos (Worker.lastHeartbeat worker) <? cutoff)%Z
  || bool_decide (Worker.status worker = "inactive").

(** [array.sort(compare)]: the sort is stable, and [a] is placed before [b]
    when [compare(a, b)] is negative.  [x] comes from an earlier position
    than every element of [sorted]. *)
Fixpoint insertSorted {A} (compare : A → A → Z) (x : A) (sorted : list A) : list A :=
  match sorted with
  | [] => [x]
  | y :: rest =>
      if (compare x y <=? 0)%Z then x :: y :: rest
      else y :: insertSorted compare x rest
  end.

Definition sortWith {A} (compare : A → A → Z) (l : list A) : list A :=
  foldr (insertSorted compare) [] l.

(** [(a, b) => b.createdAt - a.createdAt] *)
Definition newestFirst (a b : Deployment.t) : Z :=
  (Z.pos (Deployment.createdAt b) - Z.pos (Deployment.createdAt a))%Z.

(** [(a, b) => b.lastHeartbeat - a.lastHeartbeat] *)
Definition freshestFirst (a b : Worker.t) : Z :=
  (Z.pos (Worker.lastHeartbeat b) - Z.pos (Worker.lastHeartbeat a))%Z.

(** [(a, b) => a.replicaNumber - b.replicaNumber] *)
Definition byReplicaNumber (a b : Replica.t) : Z :=
  (Z.of_nat (Replica.replicaNumber a) - Z.of_nat (Replica.replicaNumber b))%Z.

(** ** The Redis variant (unnamed/part_003) *)

Module Redis.

(** The key space: [counter:{type}], [worker:{id}], [deployment:{id}],
    [replica:{id}], and the sets [workers], [deployments] and
    [deployment:{id}:replicas].  Values are JSON texts in the source; they
    are kept here as the records they encode. *)
Record Store := mkStore {
  counters : gmap string nat;
  workerKeys : gmap nat Worker.t;
  deploymentKeys : gmap nat Deployment.t;
  replicaKeys : gmap nat Replica.t;
  workersSet : gset nat;
  deploymentsSet : gset nat;
  replicaSets : gmap nat (gset nat)
}.

Definition emptyStore : Store := mkStore ∅ ∅ ∅ ∅ ∅ ∅ ∅.

(** The store, the messages emitted so far (oldest first) and the
    [workerId] property of each socket. *)
Record World := mkWorld {
  store : Store;
  sent : list (SocketId * Message);
  socketWorkerId : gmap string nat
}.

Definition emptyWorld : World := mkWorld emptyStore [] ∅.

Definition onStore (f : Store → Store) : M World unit :=
  modifyWorld (λ w, mkWorld (f (store w)) (sent w) (socketWorkerId w)).

Definition readStore {A} (f : Store → A) : M World A :=
  λ w, (Returned (f (store w)), w).

(** [redis.incr(key)] *)
Definition incr (type : string) : M World nat :=
  st ← readStore id;
  let n := S (default 0 (counters st !! type)) in
  onStore (λ st, mkStore (<[type := n]> (counters st)) (workerKeys st)
                   (deploymentKeys st) (replicaKeys st) (workersSet st)
                   (deploymentsSet st) (replicaSets st)) ;;
  mret n.

Definition getNextId (type : string) : M World nat := incr type.

Definition getWorker (workerId : nat) : M World (option Worker.t) :=
  readStore (λ st, workerKeys st !! workerId).

Definition setWorker (workerId : nat) (worker : Worker.t) : M World unit :=
  onStore (λ st, mkStore (counters st) (<[workerId := worker]> (workerKeys st))
                   (deploymentKeys st) (replicaKeys st) (workersSet st)
                   (deploymentsSet st) (replicaSets st)).

Definition delWorker (workerId : nat) : M World unit :=
  onStore (λ st, mkStore (counters st) (delete workerId (workerKeys st))
                   (deploymentKeys st) (replicaKeys st) (workersSet st)
                   (deploymentsSet st) (replicaSets st)).

Definition saddWorkers (workerId : nat) : M World unit :=
  onStore (λ st, mkStore (counters st) (workerKeys st) (deploymentKeys st)
                   (replicaKeys st) ({[workerId]} ∪ workersSet st)
                   (deploymentsSet st) (replicaSets st)).

Definition sremWorkers (workerId : nat) : M World unit :=
  onStore (λ st, mkStore (counters st) (workerKeys st) (deploymentKeys st)
                   (replicaKeys st) (workersSet st ∖ {[workerId]})
                   (deploymentsSet st) (replicaSets st)).

Definition getDeployment (deploymentId : nat) : M World (option Deployment.t) :=
  readStore (λ st, deploymentKeys st !! deploymentId).

Definition setDeployment (deploymentId : nat) (d : Deployment.t) : M World unit :=
  onStore (λ st, mkStore (counters st) (workerKeys st)
                   (<[deploymentId := d]> (deploymentKeys st)) (replicaKeys st)
                   (workersSet st) (deploymentsSet st) (replicaSets st)).

Definition saddDeployments (deploymentId : nat) : M World unit :=
  onStore (λ st, mkStore (counters st) (workerKeys st) (deploymentKeys st)
                   (replicaKeys st) (workersSet st)
                   ({[deploymentId]} ∪ deploymentsSet st) (replicaSets st)).

Definition getReplica (replicaId : nat) : M World (option Replica.t) :=
  readStore (λ st, replicaKeys st !! replicaId).

Definition setReplica (replicaId : nat) (r : Replica.t) : M World unit :=
  onStore (λ st, mkStore (counters st) (workerKeys st) (deploymentKeys st)
                   (<[replicaId := r]> (replicaKeys st)) (workersSet st)
                   (deploymentsSet st) (replicaSets st)).

Definition delReplica (replicaId : nat) : M World unit :=
  onStore (λ st, mkStore (counters st) (workerKeys st) (deploymentKeys st)
                   (delete replicaId (replicaKeys st)) (workersSet st)
                   (deploymentsSet st) (replicaSets st)).

(** [redis.smembers(key)].  The members of the three kinds of set are ids
    handed out by [incr], and each is added once, right after it was handed
    out: the order of insertion is the ascending order.  That is also the
    order in which Redis answers for a set of integers, which it keeps as a
    sorted array (up to [set-max-intset-entries] members, 512 by default). *)
Definition smembers (s : gset nat) : list nat := merge_sort (≤) (elements s).

(** The set [deployment:{id}:replicas]; a missing key is the empty set. *)
Definition replicaSetOf (st : Store) (deploymentId : nat) : gset nat :=
  default ∅ (replicaSets st !! deploymentId).

Definition saddReplicas (deploymentId member : nat) : M World unit :=
  onStore (λ st, mkStore (counters st) (workerKeys st) (deploymentKeys st)
                   (replicaKeys st) (workersSet st) (deploymentsSet st)
                   (<[deploymentId := {[member]} ∪ replicaSetOf st deploymentId]>
                      (replicaSets st))).

Definition sremReplicas (deploymentId member : nat) : M World unit :=
  onStore (λ st, mkStore (counters st) (workerKeys st) (deploymentKeys st)
                   (replicaKeys st) (workersSet st) (deploymentsSet st)
                   (<[deploymentId := replicaSetOf st deploymentId ∖ {[member]}]>
                      (replicaSets st))).

(** [this.io.to(socketId).emit(...)] and [socket.emit(...)] *)
Definition emit (socket : SocketId) (m : Message) : M World unit :=
  modifyWorld (λ w, mkWorld (store w) (sent w ++ [(socket, m)]) (socketWorkerId w)).

Definition setSocketWorkerId (socket : SocketId) (workerId : nat) : M World unit :=
  modifyWorld (λ w, mkWorld (store w) (sent w) (<[socket := workerId]> (socketWorkerId w))).

(** [worker.status === 'active' && worker.currentLoad.cpuUsage < 80]: the
    second operand reads a property of [currentLoad], which a record has only
    after its first [workerStatus]. *)
Definition isAvailable (worker : Worker.t) : Outcome bool :=
  if decide (Worker.status worker = "active") then
    match Worker.currentLoad worker with
    | Some load => Returned (Qltb (Load.cpuUsage load) 80)
    | None => Thrown TypeError
    end
  else Returned false.

Fixpoint firstAvailable (st : Store) (workers : list nat) : Outcome (option Worker.t) :=
  match workers with
  | [] => Returned None
  | workerId :: rest =>
      match workerKeys st !! workerId with
      | Some worker =>
          match isAvailable worker with
          | Returned true => Returned (Some worker)
          | Returned false => firstAvailable st rest
          | Thrown e => Thrown e
          end
      | None => firstAvailable st rest
      end
  end.

Definition findAvailableWorker : M World (option Worker.t) :=
  st ← readStore id;
  liftOutcome (firstAvailable st (smembers (workersSet st))).

Definition scaleUp (deployment : Deployment.t) (now : Time) : M World unit :=
  tryCatch
    (found ← findAvailableWorker;
     match found with
     | None => throw NoAvailableWorkers
     | Some worker =>
         replicaId ← getNextId "replica";
         let replica :=
           Replica.make replicaId (Deployment.id deployment) "pending"
                        (length (Deployment.workers deployment) + 1) None None in
         setReplica replicaId replica ;;
         saddReplicas (Deployment.id deployment) replicaId ;;
         let deployment' :=
           Deployment.withWorkers
             (Deployment.workers deployment ++
                [Assignment.make (Worker.id worker) (Replica.replicaNumber replica) "pending"])
             (Deployment.withLastScaleUp now deployment) in
         setDeployment (Deployment.id deployment) deployment' ;;
         emit (Worker.socketId worker)
              (deploymentTask (Deployment.id deployment) (Replica.replicaNumber replica)
                              (Deployment.githubRepo deployment) now)
     end)
    (λ _, mret tt).

Definition scaleDown (deployment : Deployment.t) (now : Time) : M World unit :=
  tryCatch
    (match last (Deployment.workers deployment) with
     | None => mret tt
     | Some lastWorker =>
         workerData ← getWorker (Assignment.workerId lastWorker);
         match workerData with
         | None => mret tt
         | Some worker =>
             emit (Worker.socketId worker)
                  (removeReplica (Deployment.id deployment) (Assignment.replicaId lastWorker)) ;;
             let deployment' :=
               Deployment.withWorkers (removelast (Deployment.workers deployment))
                 (Deployment.withLastScaleDown now deployment) in
             setDeployment (Deployment.id deployment) deployment' ;;
             sremReplicas (Deployment.id deployment) (Assignment.replicaId lastWorker) ;;
             delReplica (Assignment.replicaId lastWorker)
         end
     end)
    (λ _, mret tt).

(** The replicas [checkAndScale] loads: every member of the deployment's set
    is read, and [r.status] is then read on each parsed value. *)
Definition loadReplicas (st : Store) (deploymentId : nat) : Outcome (list Replica.t) :=
  requireAll ((λ replicaId, replicaKeys st !! replicaId)
                <$> smembers (replicaSetOf st deploymentId)).

Definition checkAndScale (deployment : Deployment.t) (now : Time) : M World unit :=
  tryCatch
    (st ← readStore id;
     replicas ← liftOutcome (loadReplicas st (Deployment.id deployment));
     match scalingDecision deployment replicas now with
     | ScaleUp => scaleUp deployment now
     | ScaleDown => scaleDown deployment now
     | NoChange => mret tt
     end)
    (λ _, mret tt).

(** One round of the timer set up by [startScalingMonitor]. *)
Definition scalingTick (now : Time) : M World unit :=
  tryCatch
    (st ← readStore id;
     forEach (smembers (deploymentsSet st)) (λ deploymentId,
       found ← getDeployment deploymentId;
       match found with
       | Some deployment =>
           if decide (Deployment.status deployment = "active")
           then checkAndScale deployment now
           else mret tt
       | None => mret tt
       end))
    (λ _, mret tt).

(** [socket.on('registerWorker', ...)] *)
Definition registerWorker (socket : SocketId) (hostname : string) (now : Time) : M World unit :=
  tryCatch
    (workerId ← getNextId "worker";
     let worker := Worker.make workerId hostname socket "active" now None in
     setWorker workerId worker ;;
     saddWorkers workerId ;;
     setSocketWorkerId socket workerId ;;
     emit socket (workerRegistered workerId))
    (λ e, emit socket (errorMessage (errorText e))).

(** [socket.on('workerStatus', ...)] *)
Definition workerStatus (workerId : nat) (status : string) (load : Load.t)
    (now : Time) : M World unit :=
  tryCatch
    (workerData ← getWorker workerId;
     match workerData with
     | Some worker =>
         setWorker workerId
           (Worker.make (Worker.id worker) (Worker.hostname worker)
                        (Worker.socketId worker) status now (Some load))
     | None => mret tt
     end)
    (λ _, mret tt).

(** [socket.on('deploymentStatus', ...)] *)
Definition deploymentStatus (statusUpdate : StatusUpdate.t) : M World unit :=
  tryCatch
    (found ← getDeployment (StatusUpdate.deploymentId statusUpdate);
     match found with
     | Some deployment =>
         match reportAssignment statusUpdate (Deployment.workers deployment) with
         | Some workers' =>
             setDeployment (StatusUpdate.deploymentId statusUpdate)
                           (Deployment.withWorkers workers' deployment)
         | None => mret tt
         end ;;
         let replicaKey := StatusUpdate.replicaId statusUpdate in
         replicaData ← getReplica replicaKey;
         match replicaData with
         | Some replica =>
             setReplica replicaKey
               (Replica.withReport (StatusUpdate.status statusUpdate)
                                   (StatusUpdate.metrics statusUpdate) replica)
         | None => mret tt
         end
     | None => mret tt
     end)
    (λ _, mret tt).

(** [socket.on('disconnect', ...)] *)
Definition disconnect (socket : SocketId) : M World unit :=
  w ← getWorld;
  match socketWorkerId w !! socket with
  | Some workerId =>
      tryCatch (sremWorkers workerId ;; delWorker workerId) (λ _, mret tt)
  | None => mret tt
  end.

Section WithEnv.
Context (env : Env).

Definition validateGithubRepo (repoUrl : string) : M World (option RepoInfo) :=
  mret (github env (Repo.normalizedUrl repoUrl)).

(** The filter of [deployRepository] over the records read for the members
    of [workers]; a member without a record is dropped. *)
Fixpoint filterAvailable (workers : list (option Worker.t)) : Outcome (list Worker.t) :=
  match workers with
  | [] => Returned []
  | None :: rest => filterAvailable rest
  | Some worker :: rest =>
      match isAvailable worker with
      | Thrown e => Thrown e
      | Returned keep =>
          match filterAvailable rest with
          | Thrown e => Thrown e
          | Returned kept => Returned (if keep then worker :: kept else kept)
          end
      end
  end.

Definition dispatch (deployment : Deployment.t) (repoInfo : RepoInfo)
    (now : Time) (workerRef : Assignment.t) : M World unit :=
  (if readRejected env (Assignment.workerId workerRef)
   then throw StoreFailure else mret tt) ;;
  workerData ← getWorker (Assignment.workerId workerRef);
  match workerData with
  | None => mret tt
  | Some worker =>
      let deploymentDir :=
        deploymentDirOf env (Deployment.id deployment) (Assignment.replicaId workerRef) in
      emit (Worker.socketId worker)
           (deployRepository deploymentDir (clone_url repoInfo)
                             (Assignment.replicaId workerRef)
                             (Deployment.id deployment) now)
  end.

(** Returns the deployment object as the caller sees it afterwards. *)
Definition distributeToWorkers (deployment : Deployment.t) (repoInfo : RepoInfo)
    (now : Time) : M World Deployment.t :=
  tryCatch
    (forEach (Deployment.workers deployment) (dispatch deployment repoInfo now) ;;
     let deployment' := Deployment.withStatus "active" deployment in
     setDeployment (Deployment.id deployment) deployment' ;;
     mret deployment')
    (λ error,
     let deployment' := Deployment.withStatus "failed" deployment in
     setDeployment (Deployment.id deployment) deployment' ;;
     throw error).

Definition deployRepository (deploymentRequest : DeploymentRequest.t)
    (now : Time) : M World Deployment.t :=
  let githubRepo := DeploymentRequest.githubRepo deploymentRequest in
  let userName := DeploymentRequest.userName deploymentRequest in
  let minReplicas := default 1%Z (DeploymentRequest.minReplicas deploymentRequest) in
  let maxReplicas := default 3%Z (DeploymentRequest.maxReplicas deploymentRequest) in
  validated ← validateGithubRepo githubRepo;
  match validated with
  | None => throw InvalidRepository
  | Some repoInfo =>
      st ← readStore id;
      let workers := (λ workerId, workerKeys st !! workerId) <$> smembers (workersSet st) in
      activeWorkers ← liftOutcome (filterAvailable workers);
      if (Z.of_nat (length activeWorkers) <? minReplicas)%Z
      then throw (InsufficientWorkers minReplicas (length activeWorkers))
      else
        deploymentId ← getNextId "deployment";
        let deployment :=
          Deployment.make deploymentId githubRepo userName minReplicas maxReplicas
                          "deploying" (initialAssignments minReplicas activeWorkers)
                          now None None in
        setDeployment deploymentId deployment ;;
        saddDeployments deploymentId ;;
        forEach (initialReplicaNumbers minReplicas) (λ replicaNumber,
          replicaId ← getNextId "replica";
          setReplica replicaId
            (Replica.make replicaId deploymentId "pending" replicaNumber (Some now) None) ;;
          saddReplicas deploymentId replicaId) ;;
        distributeToWorkers deployment repoInfo now
  end.

(** [app.post('/deploy', ...)] *)
Definition postDeploy (body : DeploymentRequest.t) (now : Time) : M World Response :=
  tryCatch (deployment ← deployRepository body now; mret (json deployment))
           (λ error, mret (status500 error)).

End WithEnv.

(** [cleanupInactiveWorkers()], run every [cleanupInterval]. *)
Definition cleanupInactiveWorkers (now : Time) : M World unit :=
  tryCatch
    (st ← readStore id;
     let cutoff := cutoffTime now in
     forEach (smembers (workersSet st)) (λ workerId,
       workerData ← getWorker workerId;
       match workerData with
       | Some worker =>
           if isInactive cutoff worker
           then sremWorkers workerId ;; delWorker workerId
           else mret tt
       | None => mret tt
       end))
    (λ _, mret tt).

(** [app.get('/deployments', ...)]: the ten most recent, newest first. *)
Definition listDeployments : M World (list Deployment.t) :=
  st ← readStore id;
  let deployments :=
    (λ deploymentId, deploymentKeys st !! deploymentId) <$> smembers (deploymentsSet st) in
  mret (slice0 10 (sortWith newestFirst (omap id deployments))).

(** [app.get('/deployment/:id', ...)]: [None] stands for status 404. *)
Definition showDeployment (deploymentId : nat) : M World (option Deployment.t) :=
  readStore (λ st, deploymentKeys st !! deploymentId).

(** [app.get('/workers', ...)]: freshest heartbeat first. *)
Definition listWorkers : M World (list Worker.t) :=
  st ← readStore id;
  let workers := (λ workerId, workerKeys st !! workerId) <$> smembers (workersSet st) in
  mret (sortWith freshestFirst (omap id workers)).

(** [app.get('/replicas/:deploymentId', ...)]: members without a record are
    dropped by [filter(Boolean)]. *)
Definition listReplicas (deploymentId : nat) : M World (list Replica.t) :=
  st ← readStore id;
  let replicas :=
    (λ replicaId, replicaKeys st !! replicaId) <$> smembers (replicaSetOf st deploymentId) in
  mret (sortWith byReplicaNumber (omap id replicas)).

End Redis.

(** ** The MongoDB variant (src/server/server.js) *)

Module Mongo.

(** The three collections, in insertion order, and the source of fresh
    ObjectIds. *)
Record Db := mkDb {
  workers : list Worker.t;
  deployments : list Deployment.t;
  replicas : list Replica.t;
  nextObjectId : nat
}.

Definition emptyDb : Db := mkDb [] [] [] 1.

Record World := mkWorld {
  db : Db;
  sent : list (SocketId * Message);
  socketWorkerId : gmap string nat
}.

Definition emptyWorld : World := mkWorld emptyDb [] ∅.

Definition onDb (f : Db → Db) : M World unit :=
  modifyWorld (λ w, mkWorld (f (db w)) (sent w) (socketWorkerId w)).

Definition readDb {A} (f : Db → A) : M World A :=
  λ w, (Returned (f (db w)), w).

(** The [_id] a new document receives. *)
Definition newObjectId : M World nat :=
  oid ← readDb nextObjectId;
  onDb (λ d, mkDb (workers d) (deployments d) (replicas d) (S oid)) ;;
  mret oid.

Definition setWorkers (ws : list Worker.t) : M World unit :=
  onDb (λ d, mkDb ws (deployments d) (replicas d) (nextObjectId d)).

Definition setDeployments (ds : list Deployment.t) : M World unit :=
  onDb (λ d, mkDb (workers d) ds (replicas d) (nextObjectId d)).

Definition setReplicas (rs : list Replica.t) : M World unit :=
  onDb (λ d, mkDb (workers d) (deployments d) rs (nextObjectId d)).

(** [Worker.deleteMany({ hostname })] *)
Definition deleteWorkersByHostname (hostname : string) : M World unit :=
  ws ← readDb workers;
  setWorkers (filter (λ w, Worker.hostname w ≠ hostname) ws).

(** [worker.save()] of a new document *)
Definition insertWorker (worker : Worker.t) : M World unit :=
  ws ← readDb workers;
  setWorkers (ws ++ [worker]).

(** [Worker.findById(id)] *)
Definition findWorkerById (workerId : nat) : M World (option Worker.t) :=
  readDb (λ d, head (filter (λ w, Worker.id w = workerId) (workers d))).

(** [worker.save()] of a loaded document *)
Definition saveWorker (worker : Worker.t) : M World unit :=
  ws ← readDb workers;
  setWorkers ((λ w, if decide (Worker.id w = Worker.id worker) then worker else w) <$> ws).

(** [Worker.findByIdAndDelete(id)] *)
Definition deleteWorkerById (workerId : nat) : M World unit :=
  ws ← readDb workers;
  setWorkers (filter (λ w, Worker.id w ≠ workerId) ws).

(** [Deployment.findById(id)] *)
Definition findDeploymentById (deploymentId : nat) : M World (option Deployment.t) :=
  readDb (λ d, head (filter (λ x, Deployment.id x = deploymentId) (deployments d))).

(** [deployment.save()]: a new document is inserted, a loaded one is
    written back in place. *)
Definition saveDeployment (deployment : Deployment.t) : M World unit :=
  ds ← readDb deployments;
  if decide (Exists (λ x, Deployment.id x = Deployment.id deployment) ds)
  then setDeployments
         ((λ x, if decide (Deployment.id x = Deployment.id deployment)
                then deployment else x) <$> ds)
  else setDeployments (ds ++ [deployment]).

(** [new Replica({...}).save()] *)
Definition insertReplica (deploymentId : nat) (replicaNumber : nat) (now : Time)
    : M World Replica.t :=
  oid ← newObjectId;
  let replica := Replica.make oid deploymentId "pending" replicaNumber (Some now) None in
  rs ← readDb replicas;
  setReplicas (rs ++ [replica]) ;;
  mret replica.

(** [Replica.find({ deploymentId })] *)
Definition findReplicas (d : Db) (deploymentId : nat) : list Replica.t :=
  filter (λ r, Replica.deploymentId r = deploymentId) (replicas d).

(** [Replica.findOneAndUpdate({ deploymentId, replicaNumber }, update)]: the
    first match is updated. *)
Fixpoint updateFirst (deploymentId replicaNumber : nat)
    (update : Replica.t → Replica.t) (rs : list Replica.t) : list Replica.t :=
  match rs with
  | [] => []
  | r :: rest =>
      if decide (Replica.deploymentId r = deploymentId
                 ∧ Replica.replicaNumber r = replicaNumber)
      then update r :: rest
      else r :: updateFirst deploymentId replicaNumber update rest
  end.

Definition findOneAndUpdateReplica (deploymentId replicaNumber : nat)
    (update : Replica.t → Replica.t) : M World unit :=
  rs ← readDb replicas;
  setReplicas (updateFirst deploymentId replicaNumber update rs).

Definition emit (socket : SocketId) (m : Message) : M World unit :=
  modifyWorld (λ w, mkWorld (db w) (sent w ++ [(socket, m)]) (socketWorkerId w)).

Definition setSocketWorkerId (socket : SocketId) (workerId : nat) : M World unit :=
  modifyWorld (λ w, mkWorld (db w) (sent w) (<[socket := workerId]> (socketWorkerId w))).

(** The query [{ status: 'active', 'currentLoad.cpuUsage': { $lt: 80 } }]:
    a document without the field does not match. *)
Definition matchesAvailable (worker : Worker.t) : bool :=
  bool_decide (Worker.status worker = "active")
  && match Worker.currentLoad worker with
     | Some load => Qltb (Load.cpuUsage load) 80
     | None => false
     end.

Definition cpuOf (worker : Worker.t) : Q :=
  match Worker.currentLoad worker with
  | Some load => Load.cpuUsage load
  | None => 0
  end.

(** [.sort({ 'currentLoad.cpuUsage': 1 })] *)
Definition cpuLe (w1 w2 : Worker.t) : Prop := Qle_bool (cpuOf w1) (cpuOf w2) = true.

Global Instance cpuLe_dec : RelDecision cpuLe.
Proof. intros w1 w2. unfold cpuLe. apply _. Defined.

Definition availableByLoad (d : Db) : list Worker.t :=
  merge_sort cpuLe (filter (λ w, matchesAvailable w = true) (workers d)).

(** [.limit(n)]: zero means no limit, a negative bound is taken by its
    absolute value. *)
Definition limit {A} (n : Z) (l : list A) : list A :=
  if (n =? 0)%Z then l else take (Z.abs_nat n) l.

Definition findAvailableWorker : M World (option Worker.t) :=
  readDb (λ d, head (availableByLoad d)).

Definition scaleUp (deployment : Deployment.t) (now : Time) : M World unit :=
  tryCatch
    (found ← findAvailableWorker;
     match found with
     | None => throw NoAvailableWorkers
     | Some worker =>
         newReplica ← insertReplica (Deployment.id deployment)
                        (length (Deployment.workers deployment) + 1) now;
         let deployment' :=
           Deployment.withWorkers
             (Deployment.workers deployment ++
                [Assignment.make (Worker.id worker) (Replica.replicaNumber newReplica) "pending"])
             (Deployment.withLastScaleUp now deployment) in
         saveDeployment deployment' ;;
         emit (Worker.socketId worker)
              (deploymentTask (Deployment.id deployment) (Replica.replicaNumber newReplica)
                              (Deployment.githubRepo deployment) now)
     end)
    (λ _, mret tt).

Definition scaleDown (deployment : Deployment.t) (now : Time) : M World unit :=
  tryCatch
    (match last (Deployment.workers deployment) with
     | None => mret tt
     | Some lastWorker =>
         found ← findWorkerById (Assignment.workerId lastWorker);
         match found with
         | None => mret tt
         | Some worker =>
             emit (Worker.socketId worker)
                  (removeReplica (Deployment.id deployment) (Assignment.replicaId lastWorker)) ;;
             let deployment' :=
               Deployment.withWorkers (slice0 (-1) (Deployment.workers deployment))
                 (Deployment.withLastScaleDown now deployment) in
             saveDeployment deployment' ;;
             findOneAndUpdateReplica (Deployment.id deployment)
               (Assignment.replicaId lastWorker) (Replica.withStatus "removing")
         end
     end)
    (λ _, mret tt).

Definition checkAndScale (deployment : Deployment.t) (now : Time) : M World unit :=
  tryCatch
    (replicas ← readDb (λ d, findReplicas d (Deployment.id deployment));
     match scalingDecision deployment replicas now with
     | ScaleUp => scaleUp deployment now
     | ScaleDown => scaleDown deployment now
     | NoChange => mret tt
     end)
    (λ _, mret tt).

(** One round of the timer set up by [startScalingMonitor]. *)
Definition scalingTick (now : Time) : M World unit :=
  tryCatch
    (active ← readDb (λ d, filter (λ x, Deployment.status x = "active") (deployments d));
     forEach active (λ deployment, checkAndScale deployment now))
    (λ _, mret tt).

(** [socket.on('registerWorker', ...)] *)
Definition registerWorker (socket : SocketId) (hostname : string) (now : Time) : M World unit :=
  tryCatch
    (deleteWorkersByHostname hostname ;;
     oid ← newObjectId;
     let worker := Worker.make oid hostname socket "active" now None in
     insertWorker worker ;;
     setSocketWorkerId socket oid ;;
     emit socket (workerRegistered oid))
    (λ e, emit socket (errorMessage (errorText e))).

(** [socket.on('workerStatus', ...)] *)
Definition workerStatus (workerId : nat) (status : string) (load : Load.t)
    (now : Time) : M World unit :=
  tryCatch
    (found ← findWorkerById workerId;
     match found with
     | Some worker =>
         saveWorker (Worker.make (Worker.id worker) (Worker.hostname worker)
                                 (Worker.socketId worker) status now (Some load))
     | None => mret tt
     end)
    (λ _, mret tt).

(** [socket.on('deploymentStatus', ...)] *)
Definition deploymentStatus (statusUpdate : StatusUpdate.t) : M World unit :=
  tryCatch
    (found ← findDeploymentById (StatusUpdate.deploymentId statusUpdate);
     match found with
     | Some deployment =>
         match reportAssignment statusUpdate (Deployment.workers deployment) with
         | Some workers' => saveDeployment (Deployment.withWorkers workers' deployment)
         | None => mret tt
         end ;;
         findOneAndUpdateReplica (StatusUpdate.deploymentId statusUpdate)
           (StatusUpdate.replicaId statusUpdate)
           (Replica.withReport (StatusUpdate.status statusUpdate)
                               (StatusUpdate.metrics statusUpdate))
     | None => mret tt
     end)
    (λ _, mret tt).

(** [socket.on('disconnect', ...)] *)
Definition disconnect (socket : SocketId) : M World unit :=
  w ← getWorld;
  match socketWorkerId w !! socket with
  | Some workerId => tryCatch (deleteWorkerById workerId) (λ _, mret tt)
  | None => mret tt
  end.

Section WithEnv.
Context (env : Env).

Definition validateGithubRepo (repoUrl : string) : M World (option RepoInfo) :=
  mret (github env (Repo.normalizedUrl repoUrl)).

Definition dispatch (deployment : Deployment.t) (repoInfo : RepoInfo)
    (now : Time) (workerRef : Assignment.t) : M World unit :=
  (if readRejected env (Assignment.workerId workerRef)
   then throw StoreFailure else mret tt) ;;
  found ← findWorkerById (Assignment.workerId workerRef);
  match found with
  | None => mret tt
  | Some worker =>
      let deploymentDir :=
        deploymentDirOf env (Deployment.id deployment) (Assignment.replicaId workerRef) in
      emit (Worker.socketId worker)
           (deployRepository deploymentDir (clone_url repoInfo)
                             (Assignment.replicaId workerRef)
                             (Deployment.id deployment) now)
  end.

Definition distributeToWorkers (deployment : Deployment.t) (repoInfo : RepoInfo)
    (now : Time) : M World Deployment.t :=
  tryCatch
    (forEach (Deployment.workers deployment) (dispatch deployment repoInfo now) ;;
     let deployment' := Deployment.withStatus "active" deployment in
     saveDeployment deployment' ;;
     mret deployment')
    (λ error,
     let deployment' := Deployment.withStatus "failed" deployment in
     saveDeployment deployment' ;;
     throw error).

Definition deployRepository (deploymentRequest : DeploymentRequest.t)
    (now : Time) : M World Deployment.t :=
  let githubRepo := DeploymentRequest.githubRepo deploymentRequest in
  let userName := DeploymentRequest.userName deploymentRequest in
  let minReplicas := default 1%Z (DeploymentRequest.minReplicas deploymentRequest) in
  let maxReplicas := default 3%Z (DeploymentRequest.maxReplicas deploymentRequest) in
  validated ← validateGithubRepo githubRepo;
  match validated with
  | None => throw InvalidRepository
  | Some repoInfo =>
      workers ← readDb (λ d, limit maxReplicas (availableByLoad d));
      if (Z.of_nat (length workers) <? minReplicas)%Z
      then throw (InsufficientWorkers minReplicas (length workers))
      else
        oid ← newObjectId;
        let deployment :=
          Deployment.make oid githubRepo userName minReplicas maxReplicas
                          "deploying" (initialAssignments minReplicas workers)
                          now None None in
        saveDeployment deployment ;;
        forEach (initialReplicaNumbers minReplicas) (λ replicaNumber,
          insertReplica oid replicaNumber now ;; mret tt) ;;
        distributeToWorkers deployment repoInfo now
  end.

(** [app.post('/deploy', ...)] *)
Definition postDeploy (body : DeploymentRequest.t) (now : Time) : M World Response :=
  tryCatch (deployment ← deployRepository body now; mret (json deployment))
           (λ error, mret (status500 error)).

End WithEnv.

(** [cleanupInactiveWorkers()]: the matching documents are found, then
    deleted by [_id]. *)
Definition cleanupInactiveWorkers (now : Time) : M World unit :=
  tryCatch
    (let cutoff := cutoffTime now in
     inactiveWorkers ← readDb (λ d, filter (λ w, isInactive cutoff w = true) (workers d));
     if 0 <? length inactiveWorkers then
       ws ← readDb workers;
       setWorkers (filter (λ w, Worker.id w ∉ Worker.id <$> inactiveWorkers) ws)
     else mret tt)
    (λ _, mret tt).

(** [app.get('/deployments', ...)] *)
Definition listDeployments : M World (list Deployment.t) :=
  readDb (λ d, limit 10 (sortWith newestFirst (deployments d))).

(** [app.get('/deployment/:id', ...)]: [None] stands for status 404. *)
Definition showDeployment (deploymentId : nat) : M World (option Deployment.t) :=
  findDeploymentById deploymentId.

(** [app.get('/workers', ...)] *)
Definition listWorkers : M World (list Worker.t) :=
  readDb (λ d, sortWith freshestFirst (workers d)).

(** [app.get('/replicas/:deploymentId', ...)] *)
Definition listReplicas (deploymentId : nat) : M World (list Replica.t) :=
  readDb (λ d, sortWith byReplicaNumber (findReplicas d deploymentId)).

End Mongo.

(** ** The worker agent (unnamed/part_002) *)

Module WorkerNode.

(** *** formatBytes *)

Definition units : list string := ["B"; "KB"; "MB"; "GB"; "TB"].

(** [while (value >= 1024 && unitIndex < units.length - 1)
       { value /= 1024; unitIndex++; }]
    The index stops at the last unit, so [length units] rounds suffice. *)
Fixpoint scaleDown1024 (fuel : nat) (value : Q) (unitIndex : nat) : Q * nat :=
  match fuel with
  | O => (value, unitIndex)
  | S fuel' =>
      if Qle_bool 1024 value && (unitIndex <? length units - 1)
      then scaleDown1024 fuel' (value / 1024) (S unitIndex)
      else (value, unitIndex)
  end.

(** [toFixed2] stands for [value.toFixed(2)]. *)
Definition formatBytes (toFixed2 : Q → string) (bytes : Q) : string :=
  let '(value, unitIndex) := scaleDown1024 (length units) bytes 0 in
  toFixed2 value ++ " " ++ default "undefined" (units !! unitIndex).

(** *** calculateStatus *)

(** [stats.reduce((a, b) => a + b, 0) / stats.length], or 0 for an empty
    list; the mean of the agent is taken over the rationals. *)
Definition average (stats : list Q) : Q :=
  if 0 <? length stats
  then (foldl Qplus 0 stats / inject_Z (Z.of_nat (length stats)))%Q
  else 0%Q.

(** [Math.max(a, b)] *)
Definition maxQ (a b : Q) : Q := if Qle_bool a b then b else a.


(** A percentage as the agent holds it: a number, or NaN ([None]).
    [parseFloat] answers NaN for a text that does not start with a number,
    such as the [--] that [docker stats] prints for a container without
    statistics. *)
Abbreviation Measure := (option Q).

(** [stats.length > 0 ? stats.reduce((a, b) => a + b, 0) / stats.length : 0]:
    NaN as soon as one value is NaN. *)
Definition averageMeasured (stats : list Measure) : Measure :=
  numbers ← mapM id stats;
  Some (average numbers).

(** [Math.max(a, b)] for a number [a]: NaN when [b] is NaN. *)
Definition maxMeasured (a : Q) (b : Measure) : Measure :=
  y ← b; Some (maxQ a y).

(** [x > bound]: false when [x] is NaN. *)
Definition exceeds (x : Measure) (bound : Q) : bool :=
  match x with
  | Some v => Qltb bound v
  | None => false
  end.

(** The [load] of a status report, before it is serialized. *)
Module Measured.
Record t := make { cpuUsage : Measure; memoryUsage : Measure; runningContainers : nat }.
End Measured.

(** The payload of a [workerStatus] event. *)
Record StatusReport := {
  workerId : option nat;
  status : string;
  load : Measured.t
}.

(** [round2] stands for [parseFloat(x.toFixed(2))] on a number; [dockerStats]
    is the list of values parsed from the output of [docker stats], or [None]
    when the command fails; [memoryUsage] and [runningContainers] are what
    [getMemoryUsage] and [getRunningContainers] returned. *)
Definition calculateStatus (round2 : Q → Q) (thisWorkerId : option nat)
    (loadAvg0 : Q) (dockerStats : option (list Measure)) (memoryUsage : Measure)
    (runningContainers : nat) : StatusReport :=
  let cpuUsage := round2 loadAvg0 in
  match dockerStats with
  | Some stats =>
      let dockerCpuUsage := averageMeasured stats in
      let maxCpuUsage := maxMeasured cpuUsage dockerCpuUsage in
      let status :=
        if exceeds maxCpuUsage 80 || exceeds memoryUsage 90 then "overloaded"
        else if exceeds maxCpuUsage 60 || exceeds memoryUsage 70 then "busy"
        else "active" in
      {| workerId := thisWorkerId; status := status;
         load := Measured.make maxCpuUsage (round2 <$> memoryUsage) runningContainers |}
  | None =>
      {| workerId := thisWorkerId; status := "active";
         load := Measured.make (Some 0%Q) (Some 0%Q) 0 |}
  end.

(** *** Deploying and removing a replica *)

(** The shell commands and file operations of the agent. *)
Inductive Command :=
  | dockerInspect (container : string)
  | dockerStopGrace (container : string)        (* docker stop -t 10 *)
  | dockerRemoveForce (container : string)      (* docker rm -f -v *)
  | dockerRemoveImage (image : string)          (* docker rmi -f *)
  | dockerPrune                                 (* docker system prune -f *)
  | removeDirectory (dir : string)
  | gitClone (url dir : string)
  | writeRequirements (dir : string)
  | writeDockerfile (dir : string)
  | dockerBuild (dir image : string)
  | sleep5000
  | dockerStop (container : string)
  | dockerRemove (container : string)
  | dockerRun (container image : string) (port : Z)
  | dockerPs (container : string).

(** What the agent emits to the orchestrator; a failed deployment names the
    command that failed in place of [error.message]. *)
Inductive Emitted :=
  | deploymentStatusSent (update : StatusUpdate.t) (port : option Z)
                         (error : option Command)
  | replicaRemovedSent (deploymentId : nat) (replicaId : nat).

(** The outside world of one agent: whether the [n]-th command run
    (counting from 0) fails, whether the cloned repository brings its own
    [requirements.txt], and how paths are joined. *)
Record Host := {
  fails : nat → Command → bool;
  hasRequirements : bool;
  pathJoin : string → string → string   (* path.join *)
}.

(** The commands run so far (oldest first), the events emitted, and the
    deployment directories that exist. *)
Record State := mkState {
  ran : list Command;
  emitted : list Emitted;
  dirs : gset string
}.

Inductive Result (A : Type) :=
  | Done (a : A)
  | Failed (c : Command).
Arguments Done {A} a.
Arguments Failed {A} c.

Definition Agent (A : Type) : Type := State → Result A * State.

Global Instance Agent_ret : MRet Agent := λ A a s, (Done a, s).
Global Instance Agent_bind : MBind Agent := λ A B f m s,
  match m s with
  | (Done a, s') => f a s'
  | (Failed c, s') => (Failed c, s')
  end.

Definition fail {A} (c : Command) : Agent A := λ s, (Failed c, s).

(** [try { body } catch (error) { handler(error) }] *)
Definition attempt {A} (body : Agent A) (handler : Command → Agent A) : Agent A :=
  λ s, match body s with
       | (Done a, s') => (Done a, s')
       | (Failed c, s') => handler c s'
       end.

(** [`app-${deploymentId}-${replicaId}`] and [`app-${deploymentId}:${replicaId}`] *)
Definition containerName (deploymentId replicaId : nat) : string :=
  "app-" ++ pretty deploymentId ++ "-" ++ pretty replicaId.

Definition imageTag (deploymentId replicaId : nat) : string :=
  "app-" ++ pretty deploymentId ++ ":" ++ pretty replicaId.

Section OnHost.
Context (host : Host).

(** [path.join(this.deploymentPath, `${deploymentId}_${replicaId}`)] *)
Definition replicaDir (deploymentPath : string) (deploymentId replicaId : nat) : string :=
  pathJoin host deploymentPath (pretty deploymentId ++ "_" ++ pretty replicaId).

Definition record (c : Command) : Agent unit :=
  λ s, (Done tt, mkState (ran s ++ [c]) (emitted s) (dirs s)).

(** [await execPromise(command)]: the command is run, and its failure is
    thrown. *)
Definition execPromise (c : Command) : Agent unit :=
  λ s, (if fails host (length (ran s)) c then Failed c else Done tt,
        mkState (ran s ++ [c]) (emitted s) (dirs s)).

(** [await execPromise(command).catch(() => {})] *)
Definition execQuietly (c : Command) : Agent unit :=
  attempt (execPromise c) (λ _, mret tt).

Definition setDirs (f : gset string → gset string) : Agent unit :=
  λ s, (Done tt, mkState (ran s) (emitted s) (f (dirs s))).

Definition socketEmit (e : Emitted) : Agent unit :=
  λ s, (Done tt, mkState (ran s) (emitted s ++ [e]) (dirs s)).

Definition cleanup (deploymentDir : string) (deploymentId replicaId : nat) : Agent unit :=
  attempt
    (execQuietly (dockerInspect (containerName deploymentId replicaId)) ;;
     execQuietly (dockerStopGrace (containerName deploymentId replicaId)) ;;
     execQuietly (dockerRemoveForce (containerName deploymentId replicaId)) ;;
     execQuietly (dockerRemoveImage (imageTag deploymentId replicaId)) ;;
     execQuietly dockerPrune ;;
     s ← (λ s, (Done s, s)) : Agent State;
     if decide (deploymentDir ∈ dirs s)
     then execPromise (removeDirectory deploymentDir) ;;
          setDirs (λ ds, ds ∖ {[deploymentDir]})
     else mret tt)
    (λ _, mret tt).

(** [for (let attempt = 1; attempt <= maxAttempts; attempt++)]: [remaining]
    counts the attempts still allowed.  After a failed build the loop throws
    if that was the last attempt, and waits five seconds otherwise. *)
Fixpoint buildAttempts (deploymentDir : string) (deploymentId replicaId : nat)
    (remaining : nat) : Agent bool :=
  match remaining with
  | O => mret false
  | S remaining' =>
      attempt
        (execQuietly dockerPrune ;;
         execPromise (dockerBuild deploymentDir (imageTag deploymentId replicaId)) ;;
         mret true)
        (λ failure,
         match remaining' with
         | O => fail failure
         | S _ =>
             record sleep5000 ;;
             buildAttempts deploymentDir deploymentId replicaId remaining'
         end)
  end.

Definition retryDockerBuild (deploymentDir : string) (deploymentId replicaId : nat)
    (maxAttempts : nat) : Agent bool :=
  buildAttempts deploymentDir deploymentId replicaId maxAttempts.

Definition createDockerfile (deploymentDir : string) : Agent unit :=
  execPromise (writeDockerfile deploymentDir).

(** [deployProject(deploymentData)]; [thisWorkerId] is [this.workerId]. *)
Definition deployProject (thisWorkerId : nat) (deploymentDir repoUrl : string)
    (replicaId deploymentId : nat) : Agent unit :=
  attempt
    (let normalizedUrl := Repo.normalizedUrl repoUrl in
     cleanup deploymentDir deploymentId replicaId ;;
     execPromise (gitClone ("https://github.com/" ++ normalizedUrl ++ ".git") deploymentDir) ;;
     setDirs (λ ds, {[deploymentDir]} ∪ ds) ;;
     (if hasRequirements host then mret tt
      else execPromise (writeRequirements deploymentDir)) ;;
     createDockerfile deploymentDir ;;
     retryDockerBuild deploymentDir deploymentId replicaId 3 ;;
     let port := (8000 + Z.of_nat replicaId)%Z in
     execQuietly (dockerStop (containerName deploymentId replicaId)) ;;
     execQuietly (dockerRemove (containerName deploymentId replicaId)) ;;
     execPromise (dockerRun (containerName deploymentId replicaId)
                            (imageTag deploymentId replicaId) port) ;;
     execPromise (dockerPs (containerName deploymentId replicaId)) ;;
     socketEmit (deploymentStatusSent
                   (StatusUpdate.make thisWorkerId deploymentId replicaId "active"
                                      (Some (Metrics.make 0 0)))
                   (Some port) None))
    (λ failure,
     socketEmit (deploymentStatusSent
                   (StatusUpdate.make thisWorkerId deploymentId replicaId "failed" None)
                   None (Some failure)) ;;
     cleanup deploymentDir deploymentId replicaId).

(** [socket.on('removeReplica', ...)] *)
Definition onRemoveReplica (deploymentPath : string) (deploymentId replicaId : nat)
    : Agent unit :=
  attempt
    (cleanup (replicaDir deploymentPath deploymentId replicaId) deploymentId replicaId ;;
     socketEmit (replicaRemovedSent deploymentId replicaId))
    (λ _, mret tt).

End OnHost.

End WorkerNode.

(** ** The WebSocket dispatcher (first document of src/server/server.js)

    Child servers connect over plain WebSockets; a deploy request is sent
    to the least loaded one. *)

Module Dispatcher.

(** An element of [workers].  [load] is a JavaScript number: [None] stands
    for NaN, which [worker.load += replicas] would produce for a body
    without [replicas]. *)
Record Worker := mkWorker {
  id : Z;               (* Date.now() at connection time *)
  connection : nat;     (* the WebSocket object *)
  load : option Z
}.

(** The body of a deploy request, which is also the command sent on; each
    field may be missing, and [replicas] is an integer when present. *)
Record Command := mkCommand {
  projectName : option string;
  gitRepo : option string;
  replicas : option Z
}.

Inductive Response :=
  | sentToServer (projectName : option string) (workerId : Z)   (* res.send(...) *)
  | noWorkers                                                   (* status 500 *)
  | destructuringFailed.     (* the TypeError, answered by Express with status 500 *)

(** [workers] and the messages passed to [connection.send], oldest first. *)
Record State := mkState {
  workers : list Worker;
  sent : list (nat * Command)
}.

Definition emptyState : State := mkState [] [].

(** [prev.load < curr.load]: false as soon as one side is NaN. *)
Definition lessLoaded (prev curr : Worker) : bool :=
  match load prev, load curr with
  | Some a, Some b => (a <? b)%Z
  | _, _ => false
  end.

(** [rest.reduce((prev, curr) => (prev.load < curr.load ? prev : curr), prev)];
    the position is kept with the element, since the caller mutates the
    object that is returned. *)
Fixpoint leastFrom (prev : nat * Worker) (index : nat) (rest : list Worker)
    : nat * Worker :=
  match rest with
  | [] => prev
  | curr :: rest' =>
      leastFrom (if lessLoaded prev.2 curr then prev else (index, curr)) (S index) rest'
  end.

Definition getLeastLoadedWorker (workers : list Worker) : option (nat * Worker) :=
  match workers with
  | [] => None
  | first :: rest => Some (leastFrom (0, first) 1 rest)
  end.

(** [load + replicas] *)
Definition addLoad (load replicas : option Z) : option Z :=
  match load, replicas with
  | Some a, Some b => Some (a + b)%Z
  | _, _ => None
  end.

(** [req.body] as the handler finds it.  Express leaves it undefined unless
    a body-parsing middleware has filled it in, and this application installs
    none ([app.use] is never called): whatever was posted, the handler reads
    [undefined]. *)
Definition reqBody (posted : Command) : option Command := None.

(** [app.post('/deploy', ...)]: the first statement destructures [req.body],
    which throws when it is undefined. *)
Definition postDeploy (body : option Command) (s : State) : Response * State :=
  match body with
  | None => (destructuringFailed, s)
  | Some body =>
      match getLeastLoadedWorker (workers s) with
      | None => (noWorkers, s)
      | Some (index, worker) =>
          (sentToServer (projectName body) (id worker),
           mkState
             (<[index := mkWorker (id worker) (connection worker)
                                  (addLoad (load worker) (replicas body))]> (workers s))
             (sent s ++ [(connection worker, body)]))
      end
  end.

(** [wss.on('connection', ...)]; [now] is [Date.now()]. *)
Definition onConnection (ws : nat) (now : Z) (s : State) : State :=
  mkState (workers s ++ [mkWorker now ws (Some 0%Z)]) (sent s).

(** [ws.on('close', ...)] *)
Definition onClose (ws : nat) (s : State) : State :=
  mkState (filter (λ w, connection w ≠ ws) (workers s)) (sent s).

End Dispatcher.

(** ** Vocabulary of the statements *)

(** The stamp is absent, or more than [cooldown] milliseconds old. *)
Definition cooldownOver (now : Time) (stamp : option Time) (cooldown : Z) : Prop :=
  stamp = None ∨ ∃ t, stamp = Some t ∧ (Z.pos now - Z.pos t > cooldown)%Z.

(** The conditions are those of the claim; the comparisons are those of
    doubles. *)
Definition scaleUpCondition (d : Deployment.t) (replicas : list Replica.t)
    (now : Time) : Prop :=
  Double.ltb (Double.ofZ 70) (avgCpuLoad replicas) = true
  ∧ (Z.of_nat (length replicas) < Deployment.maxReplicas d)%Z
  ∧ cooldownOver now (Deployment.lastScaleUp d) 300000.

Definition scaleDownCondition (d : Deployment.t) (replicas : list Replica.t)
    (now : Time) : Prop :=
  Double.ltb (avgCpuLoad replicas) (Double.ofZ 35) = true
  ∧ (Deployment.minReplicas d < Z.of_nat (length replicas))%Z
  ∧ cooldownOver now (Deployment.lastScaleDown d) 600000.

(** The CPU reading of a replica: [metrics.cpuUsage], and 0 when the replica
    has no metrics or the reading is 0. *)
Definition reading (r : Replica.t) : Q :=
  from_option Metrics.cpuUsage 0%Q (Replica.metrics r).

(** The mean of a list of readings as JavaScript computes it: starting from
    0, the double nearest to each reading is added, from left to right, and
    the sum is divided by the number of readings; 0 when there is none. *)
Definition doubleMean (readings : list Q) : Double.t :=
  match readings with
  | [] => Double.ofZ 0
  | _ =>
      Double.div
        (foldl (λ total x, Double.add total (Double.ofQ x)) (Double.ofZ 0) readings)
        (Double.ofZ (Z.of_nat (length readings)))
  end.

(** What a round does to one deployment, given the decision taken. *)
Definition Mongo_act (a : Action) (d : Deployment.t) (now : Time) : M Mongo.World unit :=
  match a with
  | ScaleUp => Mongo.scaleUp d now
  | ScaleDown => Mongo.scaleDown d now
  | NoChange => mret tt
  end.

Definition Redis_act (a : Action) (d : Deployment.t) (now : Time) : M Redis.World unit :=
  match a with
  | ScaleUp => Redis.scaleUp d now
  | ScaleDown => Redis.scaleDown d now
  | NoChange => mret tt
  end.

(** ** A concrete run

    Two workers register and report their load; two deployments of one
    replica each are created; the first deployment's replica reports a high
    load, a scaling round adds a second replica; it then reports a low load
    and the next round removes that replica again. *)

Module Scenario.

Definition env : Env := {|
  deploymentPath := "./deployments";
  github := λ ref,
    if decide (ref = "acme/app")
    then Some {| clone_url := "https://github.com/acme/app.git" |}
    else None;
  readRejected := λ _, false
|}.

Definition request : DeploymentRequest.t :=
  DeploymentRequest.make "https://github.com/acme/app.git" "kazilsky" (Some 1%Z) (Some 3%Z).

Definition idle : Load.t := Load.make 10 20 0.

Definition report (deploymentId : Id) (replicaId : nat) (cpu : Q) : StatusUpdate.t :=
  StatusUpdate.make 1 deploymentId replicaId "active" (Some (Metrics.make cpu 0)).

Module R.

Definition registered : Redis.World :=
  exec (Redis.registerWorker "socket-1" "host-a" 1000 ;;
        Redis.registerWorker "socket-2" "host-b" 1001 ;;
        Redis.workerStatus 1 "active" idle 1500 ;;
        Redis.workerStatus 2 "active" idle 1501)
       Redis.emptyWorld.

(** Deployment 1 owns replica 1, deployment 2 owns replica 2; both have
    replica number 1. *)
Definition deployed : Redis.World :=
  exec (Redis.postDeploy env request 2000 ;;
        Redis.postDeploy env request 3000)
       registered.

Definition loaded : Redis.World :=
  exec (Redis.deploymentStatus (report 1 1 90)) deployed.

(** The round adds replica 3 to deployment 1, with replica number 2. *)
Definition scaledUp : Redis.World := exec (Redis.scalingTick 10000) loaded.

Definition relaxed : Redis.World :=
  exec (Redis.deploymentStatus (report 1 1 10)) scaledUp.

Definition scaledDown : Redis.World := exec (Redis.scalingTick 20000) relaxed.

(** The stored form of a deployment in a world. *)
Definition deployment (w : Redis.World) (deploymentId : Id) : option Deployment.t :=
  Redis.deploymentKeys (Redis.store w) !! deploymentId.

(** Deployment 1 as the first round reads it. *)
Definition examined : Deployment.t :=
  Deployment.make 1 "https://github.com/acme/app.git" "kazilsky" 1 3 "active"
    [Assignment.make 1 1 "active"] 2000 None None.

End R.

Module Mo.

Definition registered : Mongo.World :=
  exec (Mongo.registerWorker "socket-1" "host-a" 1000 ;;
        Mongo.registerWorker "socket-2" "host-b" 1001 ;;
        Mongo.workerStatus 1 "active" idle 1500 ;;
        Mongo.workerStatus 2 "active" idle 1501)
       Mongo.emptyWorld.

(** Deployment 3 owns replica 4, deployment 5 owns replica 6. *)
Definition deployed : Mongo.World :=
  exec (Mongo.postDeploy env request 2000 ;;
        Mongo.postDeploy env request 3000)
       registered.

Definition loaded : Mongo.World :=
  exec (Mongo.deploymentStatus (report 3 1 90)) deployed.

Definition scaledUp : Mongo.World := exec (Mongo.scalingTick 10000) loaded.

Definition relaxed : Mongo.World :=
  exec (Mongo.deploymentStatus (report 3 1 10)) scaledUp.

Definition scaledDown : Mongo.World := exec (Mongo.scalingTick 20000) relaxed.

Definition deployment (w : Mongo.World) (deploymentId : Id) : option Deployment.t :=
  head (filter (λ x, Deployment.id x = deploymentId) (Mongo.deployments (Mongo.db w))).

(** Deployment 3 as the first round reads it. *)
Definition examined : Deployment.t :=
  Deployment.make 3 "https://github.com/acme/app.git" "kazilsky" 1 3 "active"
    [Assignment.make 1 1 "active"] 2000 None None.

End Mo.

(** A deployment about to be distributed to workers 1 and 2, after worker 2
    has disconnected. *)
Definition planned (deploymentId : Id) : Deployment.t :=
  Deployment.make deploymentId "https://github.com/acme/app.git" "kazilsky" 2 3 "deploying"
    [Assignment.make 1 1 "pending"; Assignment.make 2 2 "pending"] 2000 None None.

Definition repoInfo : RepoInfo := {| clone_url := "https://github.com/acme/app.git" |}.

Definition R_halfGone : Redis.World := exec (Redis.disconnect "socket-2") R.registered.

Definition Mo_halfGone : Mongo.World := exec (Mongo.disconnect "socket-2") Mo.registered.

(** A request for a repository the code host does not know. *)
Definition unknownRequest : DeploymentRequest.t :=
  DeploymentRequest.make "acme/missing" "kazilsky" (Some 1%Z) (Some 3%Z).

(** A worker that has registered but not yet reported its load. *)
Definition R_fresh : Redis.World :=
  exec (Redis.registerWorker "socket-1" "host-a" 1000) Redis.emptyWorld.

Definition Mo_fresh : Mongo.World :=
  exec (Mongo.registerWorker "socket-1" "host-a" 1000) Mongo.emptyWorld.

(** Two workers report a CPU usage of 85 (scenario S3). *)
Definition busy : Load.t := Load.make 85 20 0.

Definition R_busy : Redis.World :=
  exec (Redis.workerStatus 1 "active" busy 1600 ;;
        Redis.workerStatus 2 "active" busy 1601) R.registered.

Definition Mo_busy : Mongo.World :=
  exec (Mongo.workerStatus 1 "active" busy 1600 ;;
        Mongo.workerStatus 2 "active" busy 1601) Mo.registered.




(** The same host registers over two connections. *)
Definition R_twice : Redis.World :=
  exec (Redis.registerWorker "socket-1" "host-a" 1000 ;;
        Redis.registerWorker "socket-2" "host-a" 2000) Redis.emptyWorld.

Definition Mo_twice : Mongo.World :=
  exec (Mongo.registerWorker "socket-1" "host-a" 1000 ;;
        Mongo.registerWorker "socket-2" "host-a" 2000) Mongo.emptyWorld.

(** [count] active replicas of one deployment, each reading [cpu]. *)
Definition running (count : nat) (cpu : Q) : list Replica.t :=
  (λ n, Replica.make n 1 "active" n None (Some (Metrics.make cpu 0))) <$> seq 1 count.

(** A deployment with the given bounds and scale stamps. *)
Definition bounded (minReplicas maxReplicas : Z) (up down : option Time) : Deployment.t :=
  Deployment.make 1 "acme/app" "kazilsky" minReplicas maxReplicas "active" [] 1 up down.

End Scenario.

(** ** Vocabulary of registration *)

Inductive Event :=
  | Register (socket : SocketId) (hostname : string) (now : Time)
  | Disconnect (socket : SocketId).

Definition Mongo_handle (e : Event) : M Mongo.World unit :=
  match e with
  | Register socket hostname now => Mongo.registerWorker socket hostname now
  | Disconnect socket => Mongo.disconnect socket
  end.

Definition Redis_handle (e : Event) : M Redis.World unit :=
  match e with
  | Register socket hostname now => Redis.registerWorker socket hostname now
  | Disconnect socket => Redis.disconnect socket
  end.

Definition Mongo_run (events : list Event) : M Mongo.World unit :=
  forEach events Mongo_handle.

Definition Redis_run (events : list Event) : M Redis.World unit :=
  forEach events Redis_handle.

(** The records of a list that carry a given hostname. *)
Definition named (hostname : string) (workers : list Worker.t) : list Worker.t :=
  filter (λ worker, Worker.hostname worker = hostname) workers.

Definition hostnamesUnique (workers : list Worker.t) : Prop :=
  ∀ hostname, length (named hostname workers) ≤ 1.


(** ** Vocabulary of placement *)


(** The records of the registered workers of the Redis variant, in the
    order [smembers] lists them. *)
Definition Redis_registered (st : Redis.Store) : list Worker.t :=
  omap (λ workerId, Redis.workerKeys st !! workerId) (Redis.smembers (Redis.workersSet st)).

(** Every active registered worker has reported its load at least once. *)
Definition Redis_loadsReported (st : Redis.Store) : Prop :=
  ∀ worker, worker ∈ Redis_registered st →
    Worker.status worker = "active" → is_Some (Worker.currentLoad worker).

(** The workers of a list that pass the placement filter. *)
Definition hosts (workers : list Worker.t) : list Worker.t :=
  filter (λ worker, Mongo.matchesAvailable worker = true) workers.

(** ** Vocabulary of distribution *)

(** The [deployRepository] message for one assignment, addressed to the
    socket of its worker; nothing when the worker's record is not found. *)
Definition dispatchedTo (env : Env) (find : Id → option Worker.t)
    (d : Deployment.t) (repoInfo : RepoInfo) (now : Time)
    (workerRef : Assignment.t) : option (SocketId * Message) :=
  worker ← find (Assignment.workerId workerRef);
  Some (Worker.socketId worker,
        deployRepository
          (deploymentDirOf env (Deployment.id d) (Assignment.replicaId workerRef))
          (clone_url repoInfo) (Assignment.replicaId workerRef)
          (Deployment.id d) now).

(** The assignments handled before the first rejected read. *)
Fixpoint servedBeforeFailure (env : Env) (refs : list Assignment.t) : list Assignment.t :=
  match refs with
  | [] => []
  | workerRef :: rest =>
      if readRejected env (Assignment.workerId workerRef) then []
      else workerRef :: servedBeforeFailure env rest
  end.

(** Some read of the loop is rejected. *)
Definition someReadRejected (env : Env) (refs : list Assignment.t) : bool :=
  existsb (λ workerRef, readRejected env (Assignment.workerId workerRef)) refs.

Definition Redis_find (w : Redis.World) (workerId : Id) : option Worker.t :=
  Redis.workerKeys (Redis.store w) !! workerId.

Definition Mongo_find (w : Mongo.World) (workerId : Id) : option Worker.t :=
  head (filter (λ x, Worker.id x = workerId) (Mongo.workers (Mongo.db w))).

(** ** Vocabulary of the listings *)

(** [a] may stand before [b] in an array sorted with [compare]. *)
Definition inOrder {A} (compare : A → A → Z) (a b : A) : Prop :=
  (compare a b ≤ 0)%Z.

(** The records found for the members of a Redis set. *)
Definition Redis_deployments (st : Redis.Store) : list Deployment.t :=
  omap (λ deploymentId, Redis.deploymentKeys st !! deploymentId)
       (Redis.smembers (Redis.deploymentsSet st)).

Definition Redis_replicas (st : Redis.Store) (deploymentId : Id) : list Replica.t :=
  omap (λ replicaId, Redis.replicaKeys st !! replicaId)
       (Redis.smembers (Redis.replicaSetOf st deploymentId)).

(** ** Vocabulary of the worker agent *)

(** The load of a status report as the orchestrator keeps it, when each of
    its percentages is a number. *)
Definition received (m : WorkerNode.Measured.t) : option Load.t :=
  cpu ← WorkerNode.Measured.cpuUsage m;
  memory ← WorkerNode.Measured.memoryUsage m;
  Some (Load.make cpu memory (WorkerNode.Measured.runningContainers m)).

(** [1024 ^ n] *)
Definition pow1024 (n : nat) : Q := inject_Z (1024 ^ Z.of_nat n).

(** The commands of [k] rounds of [retryDockerBuild]: every round prunes
    and builds, and all but the last wait five seconds. *)
Fixpoint buildRounds (dir image : string) (k : nat) : list WorkerNode.Command :=
  match k with
  | 0 => []
  | 1 => [WorkerNode.dockerPrune; WorkerNode.dockerBuild dir image]
  | S k' =>
      [WorkerNode.dockerPrune; WorkerNode.dockerBuild dir image; WorkerNode.sleep5000]
      ++ buildRounds dir image k'
  end.

(** A computation of the agent whose final state is always related to its
    initial state by [R]. *)
Definition keeps {A} (R : WorkerNode.State → WorkerNode.State → Prop)
    (m : WorkerNode.Agent A) : Prop :=
  ∀ s, R s (m s).2.

(** Nothing was emitted between the two states. *)
Definition sameEmitted (s s' : WorkerNode.State) : Prop :=
  WorkerNode.emitted s' = WorkerNode.emitted s.

(** The log of commands was only extended between the two states. *)
Definition logGrows (s s' : WorkerNode.State) : Prop :=
  WorkerNode.ran s `prefix_of` WorkerNode.ran s'.

(** A computation that emits [e] as its last step when it succeeds, and
    nothing when it fails. *)
Definition emitsAtEnd (e : WorkerNode.Emitted) (m : WorkerNode.Agent unit) : Prop :=
  ∀ s, match m s with
       | (WorkerNode.Done _, s') => WorkerNode.emitted s' = WorkerNode.emitted s ++ [e]
       | (WorkerNode.Failed _, s') => WorkerNode.emitted s' = WorkerNode.emitted s
       end.

(** The metrics a replica can have received from the agent: none (pending
    or failed), or the zeros of a successful deployment. *)
Definition reportedByAgent (r : Replica.t) : Prop :=
  Replica.metrics r = None ∨ Replica.metrics r = Some (Metrics.make 0 0).

(** The character [c] occurs in [s]. *)
Fixpoint occurs (c : ascii) (s : string) : Prop :=
  match s with
  | EmptyString => False
  | String a rest => a = c ∨ occurs c rest
  end.

(** [c] is not a decimal digit. *)
Definition notDigit (c : ascii) : Prop :=
  ∀ n, pretty_N_char n ≠ c.

(** ** Vocabulary of the handlers *)

(** What a heartbeat leaves alone in a worker record. *)
Definition identity (worker : Worker.t) : Id * string * SocketId :=
  (Worker.id worker, Worker.hostname worker, Worker.socketId worker).

(** The record after a [workerStatus] event. *)
Definition refreshed (status : string) (load : Load.t) (now : Time)
    (worker : Worker.t) : Worker.t :=
  Worker.make (Worker.id worker) (Worker.hostname worker) (Worker.socketId worker)
              status now (Some load).

(** The last assignment of a deployment together with the record of its
    worker, when both exist. *)
Definition tailWorker (find : Id → option Worker.t) (d : Deployment.t)
    : option (Assignment.t * Worker.t) :=
  lastWorker ← last (Deployment.workers d);
  worker ← find (Assignment.workerId lastWorker);
  Some (lastWorker, worker).

(** The record stored for [workerId] is swept at [cutoff]. *)
Definition expiredIn (cutoff : Z) (st : Redis.Store) (workerId : Id) : bool :=
  match Redis.workerKeys st !! workerId with
  | Some worker => isInactive cutoff worker
  | None => false
  end.

(** What a [deploymentStatus] event leaves alone in an assignment and in a
    deployment. *)
Definition placement (a : Assignment.t) : Id * nat :=
  (Assignment.workerId a, Assignment.replicaId a).

Definition sameButStatuses (d d' : Deployment.t) : Prop :=
  Deployment.withWorkers [] d' = Deployment.withWorkers [] d
  ∧ placement <$> Deployment.workers d' = placement <$> Deployment.workers d.

(** ** Vocabulary of the scaling rounds *)

(** A world of the Redis variant with one deployment that is still being
    deployed. *)
Definition R_deploying : Redis.World :=
  exec (Redis.setDeployment 1 (Scenario.planned 1) ;; Redis.saddDeployments 1)
       Scenario.R.registered.

Definition Mo_deploying : Mongo.World :=
  exec (Mongo.saveDeployment (Scenario.planned 3)) Scenario.Mo.registered.

(** No scale-up can be decided for [d] up to [cooldown] milliseconds after
    [stamp]. *)
Definition blocksScaleUp (d : Deployment.t) (stamp : Time) : Prop :=
  ∀ replicas later,
    (elapsed later stamp ≤ scalingSettings.scaleUpCooldown)%Z →
    scalingDecision d replicas later ≠ ScaleUp.

Definition blocksScaleDown (d : Deployment.t) (stamp : Time) : Prop :=
  ∀ replicas later,
    (elapsed later stamp ≤ scalingSettings.scaleDownCooldown)%Z →
    scalingDecision d replicas later ≠ ScaleDown.






(** ** Vocabulary of the dispatcher *)

(** What happens to the dispatcher, in order. *)
Inductive DispatcherEvent :=
  | Connected (ws : nat) (now : Z)
  | Closed (ws : nat)
  | DeployRequested (body : Dispatcher.Command).

Definition dispatcherStep (s : Dispatcher.State) (e : DispatcherEvent) : Dispatcher.State :=
  match e with
  | Connected ws now => Dispatcher.onConnection ws now s
  | Closed ws => Dispatcher.onClose ws s
  | DeployRequested body => (Dispatcher.postDeploy (Dispatcher.reqBody body) s).2
  end.

Definition dispatcherRun (events : list DispatcherEvent) : Dispatcher.State :=
  foldl dispatcherStep Dispatcher.emptyState events.

(** The sockets of the connection events, in order. *)
Definition connectedSockets (events : list DispatcherEvent) : list nat :=
  omap (λ e, match e with Connected ws _ => Some ws | _ => None end) events.

(** Every load is a number. *)
Definition loadsKnown (workers : list Dispatcher.Worker) : Prop :=
  Forall (λ w, is_Some (Dispatcher.load w)) workers.

(** [load a ≤ load b], for loads that are numbers. *)
Definition loadLe (a b : Dispatcher.Worker) : Prop :=
  match Dispatcher.load a, Dispatcher.load b with
  | Some x, Some y => (x ≤ y)%Z
  | _, _ => False
  end.

Definition loadLt (a b : Dispatcher.Worker) : Prop :=
  match Dispatcher.load a, Dispatcher.load b with
  | Some x, Some y => (x < y)%Z
  | _, _ => False
  end.

(** ** Vocabulary of whole runs of the orchestrator *)

(** What reaches the orchestrator: the socket events of the workers, the
    deploy request, and the two timers. *)
Inductive Input :=
  | Registers (socket : SocketId) (hostname : string) (now : Time)
  | Reports (workerId : Id) (status : string) (load : Load.t) (now : Time)
  | ReportsDeployment (statusUpdate : StatusUpdate.t)
  | Disconnects (socket : SocketId)
  | Deploys (body : DeploymentRequest.t) (now : Time)
  | ScalingRound (now : Time)
  | CleanupRound (now : Time).

Definition Redis_step (env : Env) (w : Redis.World) (i : Input) : Redis.World :=
  match i with
  | Registers socket hostname now => exec (Redis.registerWorker socket hostname now) w
  | Reports workerId status load now => exec (Redis.workerStatus workerId status load now) w
  | ReportsDeployment statusUpdate => exec (Redis.deploymentStatus statusUpdate) w
  | Disconnects socket => exec (Redis.disconnect socket) w
  | Deploys body now => exec (Redis.postDeploy env body now) w
  | ScalingRound now => exec (Redis.scalingTick now) w
  | CleanupRound now => exec (Redis.cleanupInactiveWorkers now) w
  end.

Definition Mongo_step (env : Env) (w : Mongo.World) (i : Input) : Mongo.World :=
  match i with
  | Registers socket hostname now => exec (Mongo.registerWorker socket hostname now) w
  | Reports workerId status load now => exec (Mongo.workerStatus workerId status load now) w
  | ReportsDeployment statusUpdate => exec (Mongo.deploymentStatus statusUpdate) w
  | Disconnects socket => exec (Mongo.disconnect socket) w
  | Deploys body now => exec (Mongo.postDeploy env body now) w
  | ScalingRound now => exec (Mongo.scalingTick now) w
  | CleanupRound now => exec (Mongo.cleanupInactiveWorkers now) w
  end.

(** The world after a sequence of inputs, starting with empty stores. *)
Definition Redis_after (env : Env) (inputs : list Input) : Redis.World :=
  foldl (Redis_step env) Redis.emptyWorld inputs.

Definition Mongo_after (env : Env) (inputs : list Input) : Mongo.World :=
  foldl (Mongo_step env) Mongo.emptyWorld inputs.

(** The value of [counter:{type}]; a missing key counts as 0. *)
Definition counter (st : Redis.Store) (type : string) : nat :=
  default 0 (Redis.counters st !! type).

(** Keys and sets of the Redis store agree: a worker or a deployment is in
    its set exactly when its key holds a record; every record is stored
    under the id it carries; and no id exceeds the counter of its type. *)
Record Redis_consistent (st : Redis.Store) : Prop := {
  workers_synced :
    ∀ k, k ∈ Redis.workersSet st ↔ is_Some (Redis.workerKeys st !! k);
  workers_own_id :
    ∀ k worker, Redis.workerKeys st !! k = Some worker →
      Worker.id worker = k ∧ 1 ≤ k ≤ counter st "worker";
  deployments_synced :
    ∀ k, k ∈ Redis.deploymentsSet st ↔ is_Some (Redis.deploymentKeys st !! k);
  deployments_own_id :
    ∀ k d, Redis.deploymentKeys st !! k = Some d →
      Deployment.id d = k ∧ 1 ≤ k ≤ counter st "deployment";
  replicas_own_id :
    ∀ k r, Redis.replicaKeys st !! k = Some r →
      Replica.id r = k ∧ 1 ≤ k ≤ counter st "replica"
               ∧ Replica.deploymentId r ∈ Redis.deploymentsSet st
}.

(** The collections of the MongoDB variant: ids are distinct within each
    collection and below the next ObjectId, and no two workers share a
    hostname. *)
Record Mongo_consistent (d : Mongo.Db) : Prop := {
  worker_ids : NoDup (Worker.id <$> Mongo.workers d);
  worker_ids_old : Forall (λ x, Worker.id x < Mongo.nextObjectId d) (Mongo.workers d);
  worker_hostnames : NoDup (Worker.hostname <$> Mongo.workers d);
  deployment_ids : NoDup (Deployment.id <$> Mongo.deployments d);
  deployment_ids_old :
    Forall (λ x, Deployment.id x < Mongo.nextObjectId d) (Mongo.deployments d);
  replica_ids : NoDup (Replica.id <$> Mongo.replicas d);
  replica_ids_old : Forall (λ x, Replica.id x < Mongo.nextObjectId d) (Mongo.replicas d)
}.

(** A computation that keeps [P] true of the world, whether it returns or
    throws. *)
Definition preserves {W A} (P : W → Prop) (m : M W A) : Prop :=
  ∀ w, P w → P (exec m w).

Definition Redis_sound (w : Redis.World) : Prop := Redis_consistent (Redis.store w).

Definition Mongo_sound (w : Mongo.World) : Prop := Mongo_consistent (Mongo.db w).

(** The store is consistent and holds a record for deployment [n]. *)
Definition Redis_knows (n : Id) (w : Redis.World) : Prop :=
  Redis_sound w ∧ is_Some (Redis.deploymentKeys (Redis.store w) !! n).

(** The collections are consistent and every ObjectId below [bound] has been
    handed out. *)
Definition Mongo_knows (bound : Id) (w : Mongo.World) : Prop :=
  Mongo_sound w ∧ bound ≤ Mongo.nextObjectId (Mongo.db w).

(** The assignments carry the replica numbers 1, 2, ... in order. *)
Definition numberedList (ws : list Assignment.t) : Prop :=
  Assignment.replicaId <$> ws = seq 1 (length ws).

Definition numbered (d : Deployment.t) : Prop := numberedList (Deployment.workers d).

Definition Redis_numbered (w : Redis.World) : Prop :=
  map_Forall (λ _ d, numbered d) (Redis.deploymentKeys (Redis.store w)).

Definition Mongo_numbered (w : Mongo.World) : Prop :=
  Forall numbered (Mongo.deployments (Mongo.db w)).

(** Some registered worker of the Redis variant is active and has not yet
    reported a load. *)
Definition Redis_freshWorker (st : Redis.Store) : Prop :=
  ∃ worker, worker ∈ Redis_registered st
            ∧ Worker.status worker = "active" ∧ Worker.currentLoad worker = None.

(** ** A run that leaves a dangling member

    Three workers; deployment 1 with one replica and deployment 2 with
    three.  Replica 1 reports 90 %, a round scales deployment 1 up; it then
    reports 10 %, the third replica of deployment 2 reports 90 %, and the next
    round scales deployment 1 down. *)

Module Scenario_dangling.

Definition wideRequest : DeploymentRequest.t :=
  DeploymentRequest.make "https://github.com/acme/app.git" "kazilsky" (Some 3%Z) (Some 5%Z).

Definition inputs : list Input :=
  [Registers "socket-1" "host-a" 1000; Registers "socket-2" "host-b" 1001;
   Registers "socket-3" "host-c" 1002;
   Reports 1 "active" Scenario.idle 1500; Reports 2 "active" Scenario.idle 1501;
   Reports 3 "active" Scenario.idle 1502;
   Deploys Scenario.request 2000;
   Deploys wideRequest 3000;
   ReportsDeployment (Scenario.report 1 1 90);
   ScalingRound 10000;
   ReportsDeployment (Scenario.report 1 1 10);
   ReportsDeployment (Scenario.report 2 3 90);
   ScalingRound 400000].

(** Deployment 2 as the later rounds read it. *)
Definition starved : Deployment.t :=
  Deployment.make 2 "https://github.com/acme/app.git" "kazilsky" 3 5 "active"
    [Assignment.make 1 1 "pending"; Assignment.make 2 2 "pending";
     Assignment.make 3 3 "active"] 3000 None None.

End Scenario_dangling.

(** A run that leaves one deployment active and one failed: the store
    rejects the read of worker 2 while the second deployment is distributed.
    [first] is the id the first deployment gets (1 in the Redis variant, 3 in
    the MongoDB variant), whose replica then reports a CPU usage of 90. *)
Module Scenario_mixed.

Definition env : Env := {|
  deploymentPath := "./deployments";
  github := github Scenario.env;
  readRejected := λ workerId, bool_decide (workerId = 2)
|}.

Definition twoRequest : DeploymentRequest.t :=
  DeploymentRequest.make "https://github.com/acme/app.git" "kazilsky" (Some 2%Z) (Some 3%Z).

Definition inputs (first : Id) : list Input :=
  [Registers "socket-1" "host-a" 1000; Registers "socket-2" "host-b" 1001;
   Reports 1 "active" Scenario.idle 1500; Reports 2 "active" Scenario.idle 1501;
   Deploys Scenario.request 2000;
   Deploys twoRequest 3000;
   ReportsDeployment (Scenario.report first 1 90)].

(** The second deployment as the run leaves it. *)
Definition failed (deploymentId : Id) : Deployment.t :=
  Deployment.make deploymentId "https://github.com/acme/app.git" "kazilsky" 2 3 "failed"
    [Assignment.make 1 1 "pending"; Assignment.make 2 2 "pending"] 3000 None None.

End Scenario_mixed.
(** ** Lists *)

Module ListFacts.

Lemma filter_none {A} (P : A → Prop) `{∀ x, Decision (P x)} (l : list A) :
  Forall (λ x, ¬ P x) l → filter P l = [].
Proof.
  induction 1 as [|x l Hx _ IH]; [done|].
  by rewrite filter_cons_False.
Qed.

End ListFacts.

(** ** Properties of the normalizer *)

Module RepoFacts.
Import Repo.

Lemma stripPrefixes_no_prefix fuel s :
  ¬ githubPrefix `prefix_of` s → stripPrefixes fuel s = s.
Proof.
  intros Hn. destruct fuel as [|fuel]; [done|].
  simpl. by rewrite decide_False.
Qed.

Lemma stripPrefixes_clean fuel s :
  length s ≤ fuel → ¬ githubPrefix `prefix_of` stripPrefixes fuel s.
Proof.
  revert s. induction fuel as [|fuel IH]; intros s Hlen.
  - destruct s; [|simpl in Hlen; lia].
    simpl. intros [k Hk]. discriminate Hk.
  - simpl. case_decide as Hp; [|done].
    apply IH. rewrite length_drop.
    destruct Hp as [k ->]. rewrite length_app in Hlen.
    rewrite length_app. simpl in *. lia.
Qed.

Lemma stripLeadingPrefixes_clean s :
  ¬ githubPrefix `prefix_of` stripLeadingPrefixes s.
Proof. by apply stripPrefixes_clean. Qed.

Lemma stripPrefixes_app fuel s :
  ¬ githubPrefix `prefix_of` s →
  stripPrefixes (S fuel) (githubPrefix ++ s) = s.
Proof.
  intros Hn. cbn [stripPrefixes].
  rewrite decide_True by apply prefix_app_r, reflexivity.
  rewrite drop_app_length. by apply stripPrefixes_no_prefix.
Qed.

Lemma stripGitSuffix_prefix s : stripGitSuffix s `prefix_of` s.
Proof.
  unfold stripGitSuffix. case_decide; [|done].
  apply prefix_take.
Qed.

Lemma stripGitSuffix_app s : stripGitSuffix (s ++ gitSuffix) = s.
Proof.
  unfold stripGitSuffix.
  rewrite decide_True by apply suffix_app_r, reflexivity.
  rewrite length_app, Nat.add_sub. apply take_app_length.
Qed.

Lemma stripOnePrefix_no_prefix s :
  ¬ githubPrefix `prefix_of` s → stripOnePrefix s = s.
Proof. intros Hn. unfold stripOnePrefix. by rewrite decide_False. Qed.

(** The normalized reference never starts with the host prefix. *)
Lemma normalizeChars_clean s : ¬ githubPrefix `prefix_of` normalizeChars s.
Proof.
  unfold normalizeChars.
  assert (¬ githubPrefix `prefix_of` stripGitSuffix (stripLeadingPrefixes s)) as Hn.
  { intros Hp. apply (stripLeadingPrefixes_clean s).
    etrans; [exact Hp|]. apply stripGitSuffix_prefix. }
  by rewrite stripOnePrefix_no_prefix.
Qed.

(** Appending [.git] cannot complete a host prefix: the only dot of the
    prefix is followed by [c], not by [g], and the prefix ends in a slash. *)
Lemma prefix_git_inv s :
  githubPrefix `prefix_of` s ++ gitSuffix → githubPrefix `prefix_of` s.
Proof.
  intros [k Hk].
  destruct (decide (length githubPrefix ≤ length s)) as [Hle|Hgt].
  - exists (take (length s - length githubPrefix) k).
    apply (f_equal (take (length s))) in Hk.
    rewrite take_app_length, take_app, take_ge in Hk by done. exact Hk.
  - exfalso.
    apply (f_equal (take (length githubPrefix))) in Hk.
    rewrite take_app_length in Hk.
    rewrite take_app in Hk. rewrite take_ge in Hk by lia.
    unfold githubPrefix, gitSuffix in *. cbn [length] in *.
    do 19 (destruct s as [|? s]; [cbn in Hk; discriminate Hk|]).
    cbn [length] in Hgt. lia.
Qed.

Lemma stripLeadingPrefixes_app s :
  ¬ githubPrefix `prefix_of` s → stripLeadingPrefixes (githubPrefix ++ s) = s.
Proof.
  intros Hn. unfold stripLeadingPrefixes. rewrite length_app.
  by apply (stripPrefixes_app (18 + length s)).
Qed.

(** Normalizing a canonical clone URL gives back the reference it was
    formed from. *)
Lemma normalizeChars_canonical s :
  normalizeChars (canonicalChars s) = normalizeChars s.
Proof.
  unfold canonicalChars.
  pose proof (normalizeChars_clean s) as Hn.
  set (n := normalizeChars s) in *.
  assert (¬ githubPrefix `prefix_of` n ++ gitSuffix) as Hng.
  { intros Hp. by apply Hn, prefix_git_inv. }
  unfold normalizeChars at 1.
  rewrite stripLeadingPrefixes_app by done.
  rewrite stripGitSuffix_app. by apply stripOnePrefix_no_prefix.
Qed.

Lemma canonicalChars_idempotent s :
  canonicalChars (canonicalChars s) = canonicalChars s.
Proof.
  unfold canonicalChars at 1. rewrite normalizeChars_canonical. done.
Qed.

Lemma chars_of_list l : chars (string_of_list_ascii l) = l.
Proof. apply list_ascii_of_string_of_list_ascii. Qed.

(** Scenario S5 of the specification. *)
Example canonicalize_doubled_prefix :
  canonicalize "https://github.com/https://github.com/acme/app.git"
  = "https://github.com/acme/app.git".
Proof. vm_compute. reflexivity. Qed.

Example normalizedUrl_plain : normalizedUrl "acme/app" = "acme/app".
Proof. vm_compute. reflexivity. Qed.

(** C8. The repository normalizer is idempotent: canonicalizing a canonical
    clone URL returns it unchanged, for every input string. *)
Theorem canonicalize_idempotent (x : string) :
  canonicalize (canonicalize x) = canonicalize x.
Proof.
  unfold canonicalize. rewrite chars_of_list.
  by rewrite canonicalChars_idempotent.
Qed.

End RepoFacts.

(** ** The arithmetic of doubles *)

Module DoubleFacts.

(** [iter_pos] of the floating-point specification as an iteration over
    [nat]. *)
Lemma iter_pos_nat {A} (f : A → A) (p : positive) (x : A) :
  SpecFloat.iter_pos f p x = Nat.iter (Pos.to_nat p) f x.
Proof.
  revert x. induction p as [p IH|p IH|]; intros x; cbn [SpecFloat.iter_pos]; [| |done].
  - rewrite !IH, Pos2Nat.inj_xI, <- Nat.iter_add, <- Nat.iter_succ_r.
    f_equal. lia.
  - rewrite !IH, Pos2Nat.inj_xO, <- Nat.iter_add. f_equal. lia.
Qed.

Lemma shr_1_positive (r : shr_record) (m : positive) :
  shr_m r = Zpos m → m ≠ 1%positive →
  ∃ m', shr_m (shr_1 r) = Zpos m' ∧ digits2_pos m = Pos.succ (digits2_pos m').
Proof.
  destruct r as [z b s]. simpl. intros -> Hm.
  destruct m as [m|m|]; [by exists m..|done].
Qed.

(** Shifting a mantissa right by fewer places than it has digits leaves a
    positive mantissa. *)
Lemma shr_positive (n : nat) (r : shr_record) (m : positive) :
  shr_m r = Zpos m → n < Pos.to_nat (digits2_pos m) →
  ∃ m', shr_m (Nat.iter n shr_1 r) = Zpos m'.
Proof.
  revert r m. induction n as [|n IH]; intros r m Hr Hn; [by exists m|].
  rewrite Nat.iter_succ_r.
  destruct (shr_1_positive r m Hr) as (m' & Hm' & Hdigits).
  { intros ->. simpl in Hn. lia. }
  apply (IH _ m' Hm'). lia.
Qed.

Lemma shr_fexp_positive (m : positive) (e : Z) (l : location) :
  (emin Double.prec Double.emax ≤ e)%Z →
  ∃ m', shr_m (shr_fexp Double.prec Double.emax (Zpos m) e l).1 = Zpos m'
        ∧ (emin Double.prec Double.emax
           ≤ (shr_fexp Double.prec Double.emax (Zpos m) e l).2)%Z.
Proof.
  intros He. unfold shr_fexp, shr.
  assert (shr_m (shr_record_of_loc (Z.pos m) l) = Zpos m) as Hrecord
    by by destruct l as [|[]].
  destruct (_ - e)%Z as [|p|p] eqn:Hshift; simpl; [eauto| |eauto].
  rewrite iter_pos_nat.
  destruct (shr_positive (Pos.to_nat p) _ m Hrecord) as [m' Hm'];
    [|exists m'; split; [done|lia]].
  revert Hshift He. unfold fexp, emin, Double.prec, Double.emax. simpl. lia.
Qed.

Lemma round_nearest_even_positive (m : positive) (l : location) :
  ∃ m', round_nearest_even (Zpos m) l = Zpos m'.
Proof.
  destruct l as [|[]]; simpl; eauto.
  destruct m; simpl; eauto.
Qed.

(** Rounding a positive mantissa gives a finite double or an infinity of
    the same sign, never a zero or NaN. *)
Lemma binary_round_aux_positive (sx : bool) (m : positive) (e : Z) (l : location) :
  (emin Double.prec Double.emax ≤ e)%Z →
  (∃ m' e', binary_round_aux Double.prec Double.emax sx (Zpos m) e l = S754_finite sx m' e')
  ∨ binary_round_aux Double.prec Double.emax sx (Zpos m) e l = S754_infinity sx.
Proof.
  intros He. unfold binary_round_aux.
  destruct (shr_fexp_positive m e l He) as (m1 & Hm1 & He1).
  destruct (shr_fexp _ _ (Zpos m) e l) as [r1 e1]. simpl in Hm1, He1. rewrite Hm1.
  destruct (round_nearest_even_positive m1 (loc_of_shr_record r1)) as [m2 ->].
  destruct (shr_fexp_positive m2 e1 loc_Exact He1) as (m3 & Hm3 & _).
  destruct (shr_fexp _ _ (Zpos m2) e1 _) as [r2 e2]. simpl in Hm3. rewrite Hm3.
  destruct (_ <=? _)%Z; eauto.
Qed.

(** The double of a positive integer is positive. *)
Lemma ofZ_positive (p : positive) :
  (∃ m e, Double.ofZ (Zpos p) = S754_finite false m e)
  ∨ Double.ofZ (Zpos p) = S754_infinity false.
Proof.
  unfold Double.ofZ, binary_normalize, binary_round.
  destruct (shl_align _ _ _) as [mz ez] eqn:Halign.
  apply binary_round_aux_positive.
  revert Halign. unfold shl_align, fexp, emin, Double.prec, Double.emax.
  destruct (_ - 0)%Z eqn:Hd; intros [= <- <-]; lia.
Qed.

(** Zero divided by the double of a positive integer is zero. *)
Lemma zero_div_positive (p : positive) :
  Double.div (S754_zero false) (Double.ofZ (Zpos p)) = S754_zero false.
Proof.
  destruct (ofZ_positive p) as [(m & e & ->)| ->]; reflexivity.
Qed.

End DoubleFacts.

(** ** The scaling decision *)

Module ScalingFacts.

Lemma Qltb_lt x y : Qltb x y = true ↔ (x < y)%Q.
Proof.
  unfold Qltb. rewrite negb_true_iff.
  split.
  - intros Hb. apply Qnot_le_lt. intros Hle.
    apply Qle_bool_iff in Hle. congruence.
  - intros Hlt. destruct (Qle_bool y x) eqn:Hb; [|done].
    apply Qle_bool_iff in Hb. exfalso. by apply (Qlt_not_le x y).
Qed.

Lemma cooledDown_spec now stamp cooldown :
  cooledDown now stamp cooldown = true ↔ cooldownOver now stamp cooldown.
Proof.
  unfold cooledDown, cooldownOver, elapsed. destruct stamp as [t|].
  - rewrite Z.ltb_lt. split.
    + intros Hlt. right. exists t. split; [done|lia].
    + intros [Hn|(t' & Ht & Hgt)]; [done|]. injection Ht as <-. lia.
  - split; [by left|done].
Qed.


(** The two thresholds as doubles: 70, and 70 / 2 = 35 without rounding. *)
Lemma threshold_double : Double.ofQ scalingSettings.cpuThreshold = Double.ofZ 70.
Proof. reflexivity. Qed.

Lemma half_threshold :
  Double.div (Double.ofQ scalingSettings.cpuThreshold) (Double.ofZ 2) = Double.ofZ 35.
Proof. reflexivity. Qed.

(** No double lies above 70 and below 35: the comparison of two positive
    doubles looks at the exponents first, and those of 70 and 35 are -46
    and -47. *)
Lemma above_70_not_below_35 (a : Double.t) :
  Double.ltb (Double.ofZ 70) a = true → Double.ltb a (Double.ofZ 35) = true → False.
Proof.
  change (Double.ofZ 70) with (S754_finite false 4925812092436480 (-46)).
  change (Double.ofZ 35) with (S754_finite false 4925812092436480 (-47)).
  unfold Double.ltb, SFltb, SFcompare.
  destruct a as [[]|[]| |[] m e]; try discriminate.
  destruct (Z.compare_spec (-46) e), (Z.compare_spec e (-47));
    intros Hup Hdown; try discriminate; lia.
Qed.

Lemma upTest_spec d replicas now :
  Double.ltb (Double.ofQ scalingSettings.cpuThreshold) (avgCpuLoad replicas)
  && (Z.of_nat (length replicas) <? Deployment.maxReplicas d)%Z
  && cooledDown now (Deployment.lastScaleUp d) scalingSettings.scaleUpCooldown = true
  ↔ scaleUpCondition d replicas now.
Proof.
  unfold scaleUpCondition.
  rewrite threshold_double, !andb_true_iff, Z.ltb_lt, cooledDown_spec. tauto.
Qed.

Lemma downTest_spec d replicas now :
  Double.ltb (avgCpuLoad replicas)
             (Double.div (Double.ofQ scalingSettings.cpuThreshold) (Double.ofZ 2))
  && (Deployment.minReplicas d <? Z.of_nat (length replicas))%Z
  && cooledDown now (Deployment.lastScaleDown d) scalingSettings.scaleDownCooldown = true
  ↔ scaleDownCondition d replicas now.
Proof.
  unfold scaleDownCondition.
  rewrite half_threshold, !andb_true_iff, Z.ltb_lt, cooledDown_spec. tauto.
Qed.

Lemma conditions_exclusive d replicas now :
  ¬ (scaleUpCondition d replicas now ∧ scaleDownCondition d replicas now).
Proof.
  intros [(Hup & _) (Hdown & _)].
  exact (above_70_not_below_35 _ Hup Hdown).
Qed.

Lemma scalingDecision_up d replicas now :
  scalingDecision d replicas now = ScaleUp ↔ scaleUpCondition d replicas now.
Proof.
  rewrite <- upTest_spec. unfold scalingDecision.
  destruct (_ && _ && cooledDown now (Deployment.lastScaleUp d) _); [done|].
  destruct (_ && _ && _); split; discriminate.
Qed.

Lemma scalingDecision_down d replicas now :
  scalingDecision d replicas now = ScaleDown ↔ scaleDownCondition d replicas now.
Proof.
  split.
  - unfold scalingDecision.
    destruct (_ && _ && cooledDown now (Deployment.lastScaleUp d) _); [discriminate|].
    destruct (_ && _ && _) eqn:Hdown; [|discriminate].
    intros _. by apply downTest_spec.
  - intros Hdown.
    destruct (scalingDecision d replicas now) eqn:Hdec.
    + exfalso. apply (conditions_exclusive d replicas now).
      split; [by apply scalingDecision_up|done].
    + done.
    + exfalso. apply downTest_spec in Hdown.
      unfold scalingDecision in Hdec. rewrite Hdown in Hdec.
      clear Hdown. revert Hdec. destruct (_ && _ && _); discriminate.
Qed.

Lemma cpuOrZero_reading r : cpuOrZero r = reading r.
Proof. unfold cpuOrZero, reading. by destruct (Replica.metrics r). Qed.

Lemma totalCpuLoad_readings active :
  totalCpuLoad active
  = foldl (λ total x, Double.add total (Double.ofQ x)) (Double.ofZ 0) (reading <$> active).
Proof.
  unfold totalCpuLoad. generalize (Double.ofZ 0).
  induction active as [|r rs IH]; intros total; simpl; [done|].
  by rewrite IH, cpuOrZero_reading.
Qed.

(** The average is the mean, in doubles, of the readings of the replicas
    whose status is active. *)
Lemma avgCpuLoad_mean replicas :
  avgCpuLoad replicas
  = doubleMean (reading <$> filter (λ r, Replica.status r = "active") replicas).
Proof.
  unfold avgCpuLoad, activeReplicas, doubleMean.
  rewrite totalCpuLoad_readings, length_fmap.
  by destruct (filter _ replicas).
Qed.


End ScalingFacts.

(** ** Computations: try and catch *)

Module MonadFacts.

Lemma tryCatch_returns {W} (body : M W unit) (w : W) :
  (tryCatch body (λ _, mret tt) w).1 = Returned tt.
Proof.
  unfold tryCatch. destruct (body w) as [[[]|e] w']; reflexivity.
Qed.

Lemma tryCatch_of_returned {W A} (body : M W A) handler (w : W) a :
  (body w).1 = Returned a → tryCatch body handler w = body w.
Proof.
  unfold tryCatch. destruct (body w) as [[a'|e] w']; simpl; [done|discriminate].
Qed.

Lemma bind_returned {W A B} (m : M W A) (f : A → M W B) w a w' :
  m w = (Returned a, w') → (m ≫= f) w = f a w'.
Proof. unfold mbind, M_bind. by intros ->. Qed.

Lemma bind_thrown {W A B} (m : M W A) (f : A → M W B) w e w' :
  m w = (Thrown e, w') → (m ≫= f) w = (Thrown e, w').
Proof. unfold mbind, M_bind. by intros ->. Qed.

End MonadFacts.

(** ** The scaling tick *)

Module TickFacts.
Import ScalingFacts MonadFacts.

Lemma Mongo_scaleUp_returns d now w : (Mongo.scaleUp d now w).1 = Returned tt.
Proof. apply tryCatch_returns. Qed.

Lemma Mongo_scaleDown_returns d now w : (Mongo.scaleDown d now w).1 = Returned tt.
Proof. apply tryCatch_returns. Qed.

Lemma Redis_scaleUp_returns d now w : (Redis.scaleUp d now w).1 = Returned tt.
Proof. apply tryCatch_returns. Qed.

Lemma Redis_scaleDown_returns d now w : (Redis.scaleDown d now w).1 = Returned tt.
Proof. apply tryCatch_returns. Qed.

Lemma Mongo_checkAndScale_act d now w :
  Mongo.checkAndScale d now w
  = Mongo_act (scalingDecision d (Mongo.findReplicas (Mongo.db w) (Deployment.id d)) now)
              d now w.
Proof.
  unfold Mongo.checkAndScale.
  set (body := (_ ≫= _)).
  assert (body w = Mongo_act (scalingDecision d
            (Mongo.findReplicas (Mongo.db w) (Deployment.id d)) now) d now w) as Hbody.
  { subst body. unfold mbind, M_bind, Mongo.readDb, Mongo_act; simpl.
    by destruct (scalingDecision _ _ _). }
  rewrite <- Hbody. apply tryCatch_of_returned with (a := tt).
  rewrite Hbody. unfold Mongo_act.
  destruct (scalingDecision _ _ _);
    [apply Mongo_scaleUp_returns|apply Mongo_scaleDown_returns|done].
Qed.

Lemma Redis_checkAndScale_act d now w replicas :
  Redis.loadReplicas (Redis.store w) (Deployment.id d) = Returned replicas →
  Redis.checkAndScale d now w = Redis_act (scalingDecision d replicas now) d now w.
Proof.
  intros Hload. unfold Redis.checkAndScale.
  set (body := (_ ≫= _)).
  assert (body w = Redis_act (scalingDecision d replicas now) d now w) as Hbody.
  { subst body. unfold mbind, M_bind, Redis.readStore, liftOutcome, Redis_act; simpl.
    rewrite Hload. by destruct (scalingDecision _ _ _). }
  rewrite <- Hbody. apply tryCatch_of_returned with (a := tt).
  rewrite Hbody. unfold Redis_act.
  destruct (scalingDecision _ _ _);
    [apply Redis_scaleUp_returns|apply Redis_scaleDown_returns|done].
Qed.

(** When a member of the replica set has no record, the round logs the
    error and leaves the deployment alone. *)
Lemma Redis_checkAndScale_abort d now w e :
  Redis.loadReplicas (Redis.store w) (Deployment.id d) = Thrown e →
  Redis.checkAndScale d now w = (Returned tt, w).
Proof.
  intros Hload. unfold Redis.checkAndScale, tryCatch, mbind, M_bind,
    Redis.readStore, liftOutcome; simpl.
  by rewrite Hload.
Qed.

Lemma requireAll_returned {A} (xs : list (option A)) :
  match requireAll xs with
  | Returned ys => xs = Some <$> ys
  | Thrown _ => None ∈ xs
  end.
Proof.
  induction xs as [|[x|] xs IH]; simpl; [done| |by left].
  destruct (requireAll xs) as [ys|e]; [by rewrite IH|by right].
Qed.

Lemma elem_of_smembers (s : gset nat) k : k ∈ Redis.smembers s ↔ k ∈ s.
Proof.
  unfold Redis.smembers. rewrite merge_sort_Permutation. apply elem_of_elements.
Qed.

(** The round loads the replicas exactly when every member of the
    deployment's set has a record, and then in the order of the members. *)
Lemma Redis_loadReplicas_cases st deploymentId :
  match Redis.loadReplicas st deploymentId with
  | Returned replicas =>
      replicas = Redis_replicas st deploymentId
      ∧ ∀ k, k ∈ Redis.replicaSetOf st deploymentId → is_Some (Redis.replicaKeys st !! k)
  | Thrown _ =>
      ∃ k, k ∈ Redis.replicaSetOf st deploymentId ∧ Redis.replicaKeys st !! k = None
  end.
Proof.
  unfold Redis.loadReplicas, Redis_replicas.
  pose proof (requireAll_returned
                ((λ k, Redis.replicaKeys st !! k)
                   <$> Redis.smembers (Redis.replicaSetOf st deploymentId))) as Hall.
  destruct (requireAll _) as [replicas|e].
  - split.
    + revert replicas Hall.
      induction (Redis.smembers _) as [|k ks IH]; intros [|r rs]; try done.
      rewrite !fmap_cons. intros [= Hk Hks]. cbn [omap list_omap].
      rewrite Hk. f_equal. by apply IH.
    + intros k Hk. apply elem_of_smembers in Hk.
      assert (Redis.replicaKeys st !! k
                ∈ (λ k, Redis.replicaKeys st !! k)
                    <$> Redis.smembers (Redis.replicaSetOf st deploymentId)) as Hin.
      { apply list_elem_of_fmap. eauto. }
      rewrite Hall in Hin. apply list_elem_of_fmap in Hin as (r & -> & _). eauto.
  - apply list_elem_of_fmap in Hall as (k & Hk & Hin).
    exists k. split; [by apply elem_of_smembers|done].
Qed.

(** X31. The decision of a scaling round and what the round does with it.
    For the replicas a round has loaded: scale-up is chosen iff the average CPU
    reading exceeds 70, the replica count is below maxReplicas and
    lastScaleUp is absent or more than 300 s old; scale-down iff the average
    is below 35, the count is above minReplicas and lastScaleDown is absent
    or more than 600 s old; the two conditions exclude each other; the
    average is the mean, computed in doubles from left to right, of the
    readings of the replicas whose status is active, and 0 when there is
    none.  The MongoDB variant always runs the action chosen.  The Redis
    variant runs it when every member of the deployment's replica set has a
    record; when one has none, the round leaves the world as it is. *)
Theorem checkAndScale_runs_decision (d : Deployment.t) (now : Time) :
  (∀ replicas,
     (scalingDecision d replicas now = ScaleUp ↔ scaleUpCondition d replicas now)
     ∧ (scalingDecision d replicas now = ScaleDown ↔ scaleDownCondition d replicas now)
     ∧ ¬ (scaleUpCondition d replicas now ∧ scaleDownCondition d replicas now)
     ∧ avgCpuLoad replicas
       = doubleMean (reading <$> filter (λ r, Replica.status r = "active") replicas))
  ∧ (∀ w,
       Mongo.checkAndScale d now w
       = Mongo_act (scalingDecision d (Mongo.findReplicas (Mongo.db w) (Deployment.id d)) now)
                   d now w)
  ∧ (∀ w,
       let st := Redis.store w in
       let members := Redis.replicaSetOf st (Deployment.id d) in
       ((∀ k, k ∈ members → is_Some (Redis.replicaKeys st !! k)) →
        Redis.checkAndScale d now w
        = Redis_act (scalingDecision d (Redis_replicas st (Deployment.id d)) now) d now w)
       ∧ ((∃ k, k ∈ members ∧ Redis.replicaKeys st !! k = None) →
          Redis.checkAndScale d now w = (Returned tt, w))).
Proof.
  split; [|split].
  - intros replicas. split; [apply scalingDecision_up|].
    split; [apply scalingDecision_down|].
    split; [apply conditions_exclusive|apply avgCpuLoad_mean].
  - apply Mongo_checkAndScale_act.
  - intros w. cbv zeta.
    pose proof (Redis_loadReplicas_cases (Redis.store w) (Deployment.id d)) as Hload.
    destruct (Redis.loadReplicas _ _) as [replicas|e] eqn:Hl.
    + destruct Hload as [-> Hall]. split.
      * intros _. by apply Redis_checkAndScale_act.
      * intros (k & Hk & Hnone). destruct (Hall k Hk) as [r Hr]. congruence.
    + destruct Hload as (k & Hk & Hnone). split.
      * intros Hall. destruct (Hall k Hk) as [r Hr]. congruence.
      * intros _. by eapply Redis_checkAndScale_abort.
Qed.

Lemma checkAndScale_runs_decision_witness :
  Redis.checkAndScale Scenario.R.examined 10000 Scenario.R.loaded
  = Redis_act (scalingDecision Scenario.R.examined
                 (Redis_replicas (Redis.store Scenario.R.loaded) 1) 10000)
              Scenario.R.examined 10000 Scenario.R.loaded.
Proof.
  apply (proj1 (proj2 (proj2 (checkAndScale_runs_decision Scenario.R.examined 10000))
                 Scenario.R.loaded)).
  intros k Hk.
  assert (k ∈ Redis.smembers (Redis.replicaSetOf (Redis.store Scenario.R.loaded) 1)) as Hin
    by by apply elem_of_smembers.
  clear Hk. revert k Hin.
  apply (proj1 (Forall_forall
                  (λ k, is_Some (Redis.replicaKeys (Redis.store Scenario.R.loaded) !! k)) _)).
  vm_compute. repeat constructor; eauto.
Defined.

(** Scenario S1: the cooldown is respected. *)
Example cooldown_respected :
  scalingDecision (Scenario.bounded 1 4 None None) (Scenario.running 2 85) 1000000 = ScaleUp
  ∧ scalingDecision (Scenario.bounded 1 4 (Some 1000000%positive) None)
                    (Scenario.running 3 90) 1060000 = NoChange
  ∧ scalingDecision (Scenario.bounded 1 4 (Some 1000000%positive) None)
                    (Scenario.running 3 90) 1310000 = ScaleUp.
Proof. vm_compute. done. Qed.

(** The dead band: with three replicas over a minimum of two, an average
    of 30 scales down, while 40 and 50 lie between 35 and 70 and change
    nothing. *)
Example dead_band :
  scalingDecision (Scenario.bounded 2 4 None None) (Scenario.running 3 30) 1000000 = ScaleDown
  ∧ scalingDecision (Scenario.bounded 2 4 None None) (Scenario.running 3 40) 1000000 = NoChange
  ∧ scalingDecision (Scenario.bounded 2 4 None None) (Scenario.running 3 50) 1000000 = NoChange.
Proof. vm_compute. done. Qed.

(** The average is the one the doubles give.  The readings 55.86, 78.75,
    56.41, 78.18 and 80.8 add up to 350 as decimals, so that their exact mean
    is 70; their doubles add up, from left to right, to a sum whose fifth is
    the double next above 70, and the round scales up. *)
Example rounded_mean_above_threshold :
  let readings := [55.86; 78.75; 56.41; 78.18; 80.8]%Q in
  let replicas :=
    imap (λ n cpu, Replica.make (S n) 1 "active" (S n) None (Some (Metrics.make cpu 0)))
         readings in
  (foldr Qplus 0 readings / 5 == 70)%Q
  ∧ avgCpuLoad replicas = S754_finite false 4925812092436481 (-46)
  ∧ Double.ofZ 70 = S754_finite false 4925812092436480 (-46)
  ∧ scalingDecision (Scenario.bounded 1 8 None None) replicas 1000000 = ScaleUp.
Proof. vm_compute. done. Qed.

(** C1, at a world the handlers reach.  Three workers register and report;
    deployment 1 is created with one replica (Replica 1) and deployment 2
    with three (Replicas 2, 3 and 4).  Deployment 1 is scaled up on a high
    reading and, on a low one, scaled down again: its scale-down deletes the
    key replica:2, the Replica of deployment 2 (the defect of C3), and leaves
    its id in the set of deployment 2.  Meanwhile the third replica of
    deployment 2 has reported 90 % (stored under replica:3, the defect of
    C7).  From then on, at every round, deployment 2 is active, the mean
    reading of its active replicas is 90, it has fewer than its 5 replicas
    allowed and has never been scaled; yet the round reads [status] of the
    missing record, catches the TypeError, and does nothing. *)
Theorem checkAndScale_dangling_member :
  let w := Redis_after Scenario.env Scenario_dangling.inputs in
  let st := Redis.store w in
  let now := 500000%positive in
  Redis.deploymentKeys st !! 2 = Some Scenario_dangling.starved
  ∧ Deployment.status Scenario_dangling.starved = "active"
  ∧ Redis.smembers (Redis.replicaSetOf st 2) = [2; 3; 4]
  ∧ Redis.replicaKeys st !! 2 = None
  ∧ scaleUpCondition Scenario_dangling.starved (Redis_replicas st 2) now
  ∧ (Z.of_nat (length (Redis.smembers (Redis.replicaSetOf st 2)))
     < Deployment.maxReplicas Scenario_dangling.starved)%Z
  ∧ Redis.loadReplicas st 2 = Thrown TypeError
  ∧ Redis.checkAndScale Scenario_dangling.starved now w = (Returned tt, w)
  ∧ Redis.scalingTick now w = (Returned tt, w).
Proof.
  cbv zeta.
  split; [vm_compute; reflexivity|].
  split; [reflexivity|].
  split; [vm_compute; reflexivity|].
  split; [vm_compute; reflexivity|].
  split.
  { split; [vm_compute; reflexivity|].
    split; [vm_compute; reflexivity|by left]. }
  split; [vm_compute; reflexivity|].
  split; [vm_compute; reflexivity|].
  split; vm_compute; reflexivity.
Qed.

End TickFacts.

(** ** Scale-up *)

Module ScaleUpFacts.
Import MonadFacts.

Ltac run :=
  unfold exec, outcome, tryCatch, mbind, M_bind, mret, M_ret, throw,
    liftOutcome, modifyWorld, getWorld in *; simpl in *.

Lemma Redis_scaleUp_run d now w worker :
  Redis.firstAvailable (Redis.store w) (Redis.smembers (Redis.workersSet (Redis.store w)))
    = Returned (Some worker) →
  let number := length (Deployment.workers d) + 1 in
  let replicaId := S (default 0 (Redis.counters (Redis.store w) !! "replica")) in
  let w' := exec (Redis.scaleUp d now) w in
  Redis.replicaKeys (Redis.store w') !! replicaId
    = Some (Replica.make replicaId (Deployment.id d) "pending" number None None)
  ∧ replicaId ∈ Redis.replicaSetOf (Redis.store w') (Deployment.id d)
  ∧ Redis.deploymentKeys (Redis.store w') !! Deployment.id d
    = Some (Deployment.withWorkers
              (Deployment.workers d ++ [Assignment.make (Worker.id worker) number "pending"])
              (Deployment.withLastScaleUp now d))
  ∧ Redis.sent w'
    = Redis.sent w ++ [(Worker.socketId worker,
                        deploymentTask (Deployment.id d) number (Deployment.githubRepo d) now)].
Proof.
  intros Hfound. cbv zeta.
  unfold Redis.scaleUp, Redis.findAvailableWorker, Redis.getNextId, Redis.incr,
    Redis.setReplica, Redis.saddReplicas, Redis.setDeployment, Redis.emit,
    Redis.onStore, Redis.readStore.
  run. rewrite Hfound. simpl.
  split; [by rewrite lookup_insert_eq|].
  split; [|split; [by rewrite lookup_insert_eq|done]].
  unfold Redis.replicaSetOf at 1. simpl. rewrite lookup_insert_eq. simpl.
  set_solver.
Qed.

Lemma Mongo_saveDeployment_lookup d w :
  head (filter (λ x, Deployment.id x = Deployment.id d)
          (Mongo.deployments (Mongo.db (exec (Mongo.saveDeployment d) w))))
  = Some d.
Proof.
  unfold Mongo.saveDeployment, Mongo.setDeployments, Mongo.onDb, Mongo.readDb. run.
  destruct w as [[ws ds rs n] out socks]; simpl.
  case_decide as Hex; simpl.
  - induction ds as [|x ds IH]; [by apply Exists_nil in Hex|].
    rewrite fmap_cons. destruct (decide (Deployment.id x = Deployment.id d)) as [Hx|Hx].
    + by rewrite filter_cons_True.
    + rewrite filter_cons_False by done. apply IH.
      apply Exists_cons in Hex as [?|?]; done.
  - rewrite filter_app. rewrite (ListFacts.filter_none _ ds).
    + simpl. by rewrite filter_cons_True.
    + apply Forall_forall. intros x Hx Heq. apply Hex.
      apply Exists_exists. eauto.
Qed.

Lemma Mongo_scaleUp_run d now w worker :
  head (Mongo.availableByLoad (Mongo.db w)) = Some worker →
  let number := length (Deployment.workers d) + 1 in
  let w' := exec (Mongo.scaleUp d now) w in
  Mongo.replicas (Mongo.db w')
    = Mongo.replicas (Mongo.db w)
      ++ [Replica.make (Mongo.nextObjectId (Mongo.db w)) (Deployment.id d)
                       "pending" number (Some now) None]
  ∧ head (filter (λ x, Deployment.id x = Deployment.id d)
            (Mongo.deployments (Mongo.db w')))
    = Some (Deployment.withWorkers
              (Deployment.workers d ++ [Assignment.make (Worker.id worker) number "pending"])
              (Deployment.withLastScaleUp now d))
  ∧ Mongo.sent w'
    = Mongo.sent w ++ [(Worker.socketId worker,
                        deploymentTask (Deployment.id d) number (Deployment.githubRepo d) now)].
Proof.
  intros Hfound. cbv zeta.
  set (d' := Deployment.withWorkers _ _).
  set (w1 := exec (Mongo.insertReplica (Deployment.id d)
                     (length (Deployment.workers d) + 1) now) w).
  assert (exec (Mongo.scaleUp d now) w
          = exec (Mongo.emit (Worker.socketId worker)
                    (deploymentTask (Deployment.id d) (length (Deployment.workers d) + 1)
                                    (Deployment.githubRepo d) now))
                 (exec (Mongo.saveDeployment d') w1)) as ->.
  { subst w1 d'. unfold Mongo.scaleUp, Mongo.findAvailableWorker, Mongo.readDb. run.
    rewrite Hfound. simpl.
    unfold Mongo.saveDeployment, Mongo.readDb, Mongo.setDeployments, Mongo.onDb. run.
    by case_decide. }
  split; [|split].
  - subst w1. unfold Mongo.saveDeployment, Mongo.readDb, Mongo.setDeployments, Mongo.onDb. run.
    by case_decide.
  - pose proof (Mongo_saveDeployment_lookup d' w1) as Hlook.
    subst d'. simpl in Hlook. exact Hlook.
  - subst w1. unfold Mongo.saveDeployment, Mongo.readDb, Mongo.setDeployments, Mongo.onDb. run.
    by case_decide.
Qed.

(** C2. What a scale-up does once the placement engine has found a worker,
    in both variants: a pending Replica numbered |assignments|+1 is
    persisted, the matching assignment is appended, lastScaleUp is stamped,
    and the worker is sent one message.  That message is the event
    [deploymentTask] carrying deploymentId, replicaId, githubRepo and
    deploymentTime, not [deployRepository] with deploymentDir and repoUrl;
    the worker agent has no handler for it. *)
Theorem scaleUp_emits_deploymentTask (d : Deployment.t) (now : Time) :
  let number := length (Deployment.workers d) + 1 in
  (∀ w worker,
     Redis.firstAvailable (Redis.store w) (Redis.smembers (Redis.workersSet (Redis.store w)))
       = Returned (Some worker) →
     let replicaId := S (default 0 (Redis.counters (Redis.store w) !! "replica")) in
     let w' := exec (Redis.scaleUp d now) w in
     Redis.replicaKeys (Redis.store w') !! replicaId
       = Some (Replica.make replicaId (Deployment.id d) "pending" number None None)
     ∧ replicaId ∈ Redis.replicaSetOf (Redis.store w') (Deployment.id d)
     ∧ Redis.deploymentKeys (Redis.store w') !! Deployment.id d
       = Some (Deployment.withWorkers
                 (Deployment.workers d ++ [Assignment.make (Worker.id worker) number "pending"])
                 (Deployment.withLastScaleUp now d))
     ∧ Redis.sent w'
       = Redis.sent w ++ [(Worker.socketId worker,
                           deploymentTask (Deployment.id d) number
                                          (Deployment.githubRepo d) now)])
  ∧ (∀ w worker,
       head (Mongo.availableByLoad (Mongo.db w)) = Some worker →
       let w' := exec (Mongo.scaleUp d now) w in
       Mongo.replicas (Mongo.db w')
         = Mongo.replicas (Mongo.db w)
           ++ [Replica.make (Mongo.nextObjectId (Mongo.db w)) (Deployment.id d)
                            "pending" number (Some now) None]
       ∧ head (filter (λ x, Deployment.id x = Deployment.id d)
                 (Mongo.deployments (Mongo.db w')))
         = Some (Deployment.withWorkers
                   (Deployment.workers d ++ [Assignment.make (Worker.id worker) number "pending"])
                   (Deployment.withLastScaleUp now d))
       ∧ Mongo.sent w'
         = Mongo.sent w ++ [(Worker.socketId worker,
                             deploymentTask (Deployment.id d) number
                                            (Deployment.githubRepo d) now)])
  ∧ workerHandles (deploymentTask (Deployment.id d) number (Deployment.githubRepo d) now)
    = false.
Proof.
  cbv zeta. split; [|split; [|done]].
  - intros w worker Hfound. by apply Redis_scaleUp_run.
  - intros w worker Hfound. by apply Mongo_scaleUp_run.
Qed.

Lemma scaleUp_emits_deploymentTask_witness :
  let worker := Worker.make 1 "host-a" "socket-1" "active" 1500 (Some Scenario.idle) in
  Redis.firstAvailable (Redis.store Scenario.R.loaded)
      (Redis.smembers (Redis.workersSet (Redis.store Scenario.R.loaded)))
    = Returned (Some worker)
  ∧ Redis.sent (exec (Redis.scaleUp Scenario.R.examined 10000) Scenario.R.loaded)
    = Redis.sent Scenario.R.loaded
      ++ [("socket-1", deploymentTask 1 2 "https://github.com/acme/app.git" 10000)].
Proof.
  cbv zeta.
  assert (Redis.firstAvailable (Redis.store Scenario.R.loaded)
            (Redis.smembers (Redis.workersSet (Redis.store Scenario.R.loaded)))
          = Returned (Some (Worker.make 1 "host-a" "socket-1" "active" 1500
                                        (Some Scenario.idle)))) as Hfound.
  { vm_compute. reflexivity. }
  split; [exact Hfound|].
  destruct (proj1 (scaleUp_emits_deploymentTask Scenario.R.examined 10000)
              Scenario.R.loaded _ Hfound) as (_ & _ & _ & Hsent).
  exact Hsent.
Defined.

End ScaleUpFacts.

(** ** Placement *)

Module PlacementFacts.
Import ScalingFacts MonadFacts ListFacts.



Lemma isAvailable_outcomes worker :
  Redis.isAvailable worker = Returned (Mongo.matchesAvailable worker)
  ∨ (Redis.isAvailable worker = Thrown TypeError
     ∧ Worker.status worker = "active" ∧ Worker.currentLoad worker = None).
Proof.
  unfold Redis.isAvailable, Mongo.matchesAvailable. case_decide as Hs.
  - rewrite bool_decide_eq_true_2 by done.
    destruct (Worker.currentLoad worker); [by left|by right].
  - rewrite bool_decide_eq_false_2 by done. by left.
Qed.







End PlacementFacts.

(** ** Creating a deployment *)

Module DeployFacts.
Import ScalingFacts MonadFacts ListFacts PlacementFacts.

Lemma registered_records st :
  Redis_registered st
  = omap id ((λ workerId, Redis.workerKeys st !! workerId)
               <$> Redis.smembers (Redis.workersSet st)).
Proof.
  unfold Redis_registered.
  induction (Redis.smembers (Redis.workersSet st)) as [|i l IH]; [done|].
  rewrite fmap_cons. cbn [omap list_omap]. rewrite IH. done.
Qed.

Lemma filterAvailable_returned records kept :
  Redis.filterAvailable records = Returned kept → kept = hosts (omap id records).
Proof.
  revert kept. induction records as [|[worker|] rest IH]; intros kept; simpl.
  - by intros [= <-].
  - destruct (isAvailable_outcomes worker) as [Ha|(Ha & _ & _)]; rewrite Ha; [|done].
    destruct (Redis.filterAvailable rest) as [kept'|e]; [|done].
    intros [= <-]. rewrite (IH kept') by done. unfold hosts.
    destruct (Mongo.matchesAvailable worker) eqn:Hm.
    + by rewrite filter_cons_True.
    + rewrite filter_cons_False; [done|]. by rewrite Hm.
  - apply IH.
Qed.

Lemma filterAvailable_reported records :
  (∀ worker, worker ∈ omap id records →
     Worker.status worker = "active" → is_Some (Worker.currentLoad worker)) →
  Redis.filterAvailable records = Returned (hosts (omap id records)).
Proof.
  intros Hrep.
  destruct (Redis.filterAvailable records) as [kept|e] eqn:Hf.
  - by rewrite (filterAvailable_returned _ _ Hf).
  - exfalso.
    induction records as [|[worker|] rest IH]; simpl in Hf; [done| |].
    + destruct (isAvailable_outcomes worker) as [Ha|(Ha & Hs & Hl)]; rewrite Ha in Hf.
      * destruct (Redis.filterAvailable rest) as [kept'|e'] eqn:Hr; [done|].
        apply IH; [|done]. intros x Hx. apply Hrep. simpl. by right.
      * destruct (Hrep worker) as [load Hload]; [simpl; by left|done|congruence].
    + apply IH; [|done]. intros x Hx. by apply Hrep.
Qed.

Lemma length_limit {A} n (l : list A) : length (Mongo.limit n l) ≤ length l.
Proof.
  unfold Mongo.limit. destruct (n =? 0)%Z; [done|].
  rewrite length_take. lia.
Qed.

Lemma length_availableByLoad d :
  length (Mongo.availableByLoad d) = length (hosts (Mongo.workers d)).
Proof.
  unfold Mongo.availableByLoad, hosts.
  apply Permutation_length, merge_sort_Permutation.
Qed.

Lemma Redis_deployRepository_insufficient env request now w :
  let minReplicas := default 1%Z (DeploymentRequest.minReplicas request) in
  (Z.of_nat (length (hosts (Redis_registered (Redis.store w)))) < minReplicas)%Z →
  (∃ e, Redis.deployRepository env request now w = (Thrown e, w))
  ∧ (is_Some (github env (Repo.normalizedUrl (DeploymentRequest.githubRepo request))) →
     Redis_loadsReported (Redis.store w) →
     Redis.deployRepository env request now w
     = (Thrown (InsufficientWorkers minReplicas
                  (length (hosts (Redis_registered (Redis.store w))))), w)).
Proof.
  intros minReplicas Hfew.
  unfold Redis.deployRepository, Redis.validateGithubRepo, Redis.readStore,
    mbind, M_bind, mret, M_ret, throw, liftOutcome; simpl.
  destruct (github env _) as [repoInfo|]; simpl.
  - rewrite registered_records in Hfew |- *.
    set (records := _ <$> Redis.smembers _) in *.
    destruct (Redis.filterAvailable records) as [kept|e] eqn:Hf.
    + rewrite (filterAvailable_returned _ _ Hf).
      fold minReplicas. rewrite (proj2 (Z.ltb_lt _ _) Hfew).
      split; [eauto|done].
    + split; [eauto|]. intros _ Hrep.
      rewrite filterAvailable_reported in Hf; [discriminate|].
      unfold Redis_loadsReported in Hrep. by rewrite registered_records in Hrep.
  - split; [eauto|]. intros [? ?]. discriminate.
Qed.

Lemma Mongo_deployRepository_insufficient env request now w :
  let minReplicas := default 1%Z (DeploymentRequest.minReplicas request) in
  (Z.of_nat (length (hosts (Mongo.workers (Mongo.db w)))) < minReplicas)%Z →
  (∃ e, Mongo.deployRepository env request now w = (Thrown e, w))
  ∧ (is_Some (github env (Repo.normalizedUrl (DeploymentRequest.githubRepo request))) →
     ∃ available,
       Mongo.deployRepository env request now w
       = (Thrown (InsufficientWorkers minReplicas available), w)).
Proof.
  intros minReplicas Hfew.
  unfold Mongo.deployRepository, Mongo.validateGithubRepo, Mongo.readDb,
    mbind, M_bind, mret, M_ret, throw; simpl.
  destruct (github env _) as [repoInfo|]; simpl.
  - fold minReplicas.
    set (workers := Mongo.limit _ _).
    assert ((Z.of_nat (length workers) <? minReplicas)%Z = true) as ->.
    { apply Z.ltb_lt. subst workers.
      pose proof (length_limit (default 3%Z (DeploymentRequest.maxReplicas request))
                    (Mongo.availableByLoad (Mongo.db w))) as Hlim.
      rewrite length_availableByLoad in Hlim. lia. }
    split; eauto.
  - split; [eauto|]. intros [? ?]. discriminate.
Qed.

(** When fewer than minReplicas workers pass the placement filter,
    deployRepository throws and leaves the world as it found it: no
    Deployment, no Replica, no counter, no message.  The error is
    InsufficientWorkers whenever the repository validates (validation runs
    first and throws InvalidRepository otherwise) and, in the Redis variant,
    every active registered worker has reported its load. *)
Theorem deployRepository_insufficient (env : Env) (request : DeploymentRequest.t)
    (now : Time) :
  let minReplicas := default 1%Z (DeploymentRequest.minReplicas request) in
  let validates :=
    is_Some (github env (Repo.normalizedUrl (DeploymentRequest.githubRepo request))) in
  (∀ w,
     (Z.of_nat (length (hosts (Redis_registered (Redis.store w)))) < minReplicas)%Z →
     (∃ e, Redis.deployRepository env request now w = (Thrown e, w))
     ∧ (validates → Redis_loadsReported (Redis.store w) →
        Redis.deployRepository env request now w
        = (Thrown (InsufficientWorkers minReplicas
                     (length (hosts (Redis_registered (Redis.store w))))), w)))
  ∧ (∀ w,
       (Z.of_nat (length (hosts (Mongo.workers (Mongo.db w)))) < minReplicas)%Z →
       (∃ e, Mongo.deployRepository env request now w = (Thrown e, w))
       ∧ (validates →
          ∃ available,
            Mongo.deployRepository env request now w
            = (Thrown (InsufficientWorkers minReplicas available), w))).
Proof.
  cbv zeta. split.
  - intros w. apply Redis_deployRepository_insufficient.
  - intros w. apply Mongo_deployRepository_insufficient.
Qed.

Lemma Mongo_saveDeployment_returns d w : (Mongo.saveDeployment d w).1 = Returned tt.
Proof.
  unfold Mongo.saveDeployment, Mongo.readDb, Mongo.setDeployments, Mongo.onDb,
    modifyWorld, mbind, M_bind; simpl.
  by case_decide.
Qed.

(** Two workers at 85 % and a repository the code host does not know: the
    call fails with InvalidRepository, not with InsufficientWorkers. *)
Lemma deployRepository_unknown_repository :
  ((Z.of_nat (length (hosts (Redis_registered (Redis.store Scenario.R_busy)))) < 1)%Z
   ∧ Redis.deployRepository Scenario.env Scenario.unknownRequest 2000 Scenario.R_busy
     = (Thrown InvalidRepository, Scenario.R_busy))
  ∧ ((Z.of_nat (length (hosts (Mongo.workers (Mongo.db Scenario.Mo_busy)))) < 1)%Z
     ∧ Mongo.deployRepository Scenario.env Scenario.unknownRequest 2000 Scenario.Mo_busy
       = (Thrown InvalidRepository, Scenario.Mo_busy)).
Proof. vm_compute. done. Qed.

(** C5, at a world the handlers reach.  One worker has registered and has
    not yet sent a workerStatus, and a deployment of one replica is asked for
    a repository the code host knows.  No worker passes the placement filter,
    fewer than the one required.  The Redis variant fails with a TypeError,
    raised by the filter when it reads [currentLoad.cpuUsage] of the record
    without [currentLoad], and POST /deploy answers 500 with that message,
    not with InsufficientWorkers; nothing is persisted.  After the same
    registration the MongoDB variant fails with InsufficientWorkers(1, 0)
    and persists nothing. *)
Theorem deployRepository_fresh_worker :
  Redis_registered (Redis.store Scenario.R_fresh)
    = [Worker.make 1 "host-a" "socket-1" "active" 1000 None]
  ∧ hosts (Redis_registered (Redis.store Scenario.R_fresh)) = []
  ∧ github Scenario.env (Repo.normalizedUrl (DeploymentRequest.githubRepo Scenario.request))
    = Some Scenario.repoInfo
  ∧ Redis.deployRepository Scenario.env Scenario.request 2000 Scenario.R_fresh
    = (Thrown TypeError, Scenario.R_fresh)
  ∧ Redis.postDeploy Scenario.env Scenario.request 2000 Scenario.R_fresh
    = (Returned (status500 TypeError), Scenario.R_fresh)
  ∧ hosts (Mongo.workers (Mongo.db Scenario.Mo_fresh)) = []
  ∧ Mongo.deployRepository Scenario.env Scenario.request 2000 Scenario.Mo_fresh
    = (Thrown (InsufficientWorkers 1 0), Scenario.Mo_fresh).
Proof. vm_compute. done. Qed.

Lemma R_busy_loadsReported : Redis_loadsReported (Redis.store Scenario.R_busy).
Proof.
  intros worker Hin _.
  assert (Forall (λ x, is_Some (Worker.currentLoad x))
            (Redis_registered (Redis.store Scenario.R_busy))) as Hall.
  { vm_compute. repeat constructor; eauto. }
  by apply (proj1 (Forall_forall _ _) Hall).
Qed.

(** Scenario S3 of the specification, in both variants. *)
Lemma deployRepository_insufficient_witness :
  Redis.deployRepository Scenario.env Scenario.request 2000 Scenario.R_busy
    = (Thrown (InsufficientWorkers 1
                 (length (hosts (Redis_registered (Redis.store Scenario.R_busy))))),
       Scenario.R_busy)
  ∧ ∃ available,
      Mongo.deployRepository Scenario.env Scenario.request 2000 Scenario.Mo_busy
      = (Thrown (InsufficientWorkers 1 available), Scenario.Mo_busy).
Proof.
  destruct (deployRepository_insufficient Scenario.env Scenario.request 2000)
    as [HRedis HMongo].
  split.
  - destruct (HRedis Scenario.R_busy) as [_ Hkind]; [by vm_compute|].
    apply Hkind; [by eexists; vm_compute|apply R_busy_loadsReported].
  - destruct (HMongo Scenario.Mo_busy) as [_ Hkind]; [by vm_compute|].
    apply Hkind. by eexists; vm_compute.
Defined.

End DeployFacts.

(** ** Distribution *)

Module DistributeFacts.
Import MonadFacts ListFacts DeployFacts.

Lemma omap_cons_list {A B} (f : A → option B) x l :
  omap f (x :: l) = option_list (f x) ++ omap f l.
Proof. cbn [omap list_omap]. by destruct (f x). Qed.

Lemma Redis_dispatch_run env d repoInfo now workerRef w :
  readRejected env (Assignment.workerId workerRef) = false →
  Redis.dispatch env d repoInfo now workerRef w
  = (Returned tt,
     Redis.mkWorld (Redis.store w)
       (Redis.sent w ++ option_list (dispatchedTo env (Redis_find w) d repoInfo now workerRef))
       (Redis.socketWorkerId w)).
Proof.
  intros Hok. unfold Redis.dispatch, dispatchedTo, Redis_find. rewrite Hok.
  unfold mbind, M_bind, mret, M_ret, Redis.getWorker, Redis.readStore,
    Redis.emit, modifyWorld, option_bind. simpl.
  destruct (Redis.workerKeys (Redis.store w) !! Assignment.workerId workerRef); simpl.
  - done.
  - rewrite app_nil_r. by destruct w.
Qed.

Lemma Redis_dispatch_rejected env d repoInfo now workerRef w :
  readRejected env (Assignment.workerId workerRef) = true →
  Redis.dispatch env d repoInfo now workerRef w = (Thrown StoreFailure, w).
Proof. intros Hrej. unfold Redis.dispatch. by rewrite Hrej. Qed.

Lemma Redis_forEach_dispatch env d repoInfo now refs w :
  forEach refs (Redis.dispatch env d repoInfo now) w
  = (if someReadRejected env refs then Thrown StoreFailure else Returned tt,
     Redis.mkWorld (Redis.store w)
       (Redis.sent w ++ omap (dispatchedTo env (Redis_find w) d repoInfo now)
                             (servedBeforeFailure env refs))
       (Redis.socketWorkerId w)).
Proof.
  revert w. induction refs as [|workerRef rest IH]; intros w.
  - simpl. rewrite app_nil_r. by destruct w.
  - cbn [forEach someReadRejected existsb servedBeforeFailure].
    destruct (readRejected env (Assignment.workerId workerRef)) eqn:Hrej.
    + erewrite bind_thrown by (by apply Redis_dispatch_rejected).
      simpl. rewrite app_nil_r. by destruct w.
    + erewrite bind_returned by (by apply Redis_dispatch_run).
      rewrite IH. cbn [Redis.store Redis.sent Redis.socketWorkerId orb].
      rewrite omap_cons_list, <- app_assoc. reflexivity.
Qed.

Lemma Mongo_dispatch_run env d repoInfo now workerRef w :
  readRejected env (Assignment.workerId workerRef) = false →
  Mongo.dispatch env d repoInfo now workerRef w
  = (Returned tt,
     Mongo.mkWorld (Mongo.db w)
       (Mongo.sent w ++ option_list (dispatchedTo env (Mongo_find w) d repoInfo now workerRef))
       (Mongo.socketWorkerId w)).
Proof.
  intros Hok. unfold Mongo.dispatch, dispatchedTo, Mongo_find. rewrite Hok.
  unfold mbind, M_bind, mret, M_ret, Mongo.findWorkerById, Mongo.readDb,
    Mongo.emit, modifyWorld, option_bind. simpl.
  destruct (head (filter _ (Mongo.workers (Mongo.db w)))); simpl.
  - done.
  - rewrite app_nil_r. by destruct w.
Qed.

Lemma Mongo_dispatch_rejected env d repoInfo now workerRef w :
  readRejected env (Assignment.workerId workerRef) = true →
  Mongo.dispatch env d repoInfo now workerRef w = (Thrown StoreFailure, w).
Proof. intros Hrej. unfold Mongo.dispatch. by rewrite Hrej. Qed.

Lemma Mongo_forEach_dispatch env d repoInfo now refs w :
  forEach refs (Mongo.dispatch env d repoInfo now) w
  = (if someReadRejected env refs then Thrown StoreFailure else Returned tt,
     Mongo.mkWorld (Mongo.db w)
       (Mongo.sent w ++ omap (dispatchedTo env (Mongo_find w) d repoInfo now)
                             (servedBeforeFailure env refs))
       (Mongo.socketWorkerId w)).
Proof.
  revert w. induction refs as [|workerRef rest IH]; intros w.
  - simpl. rewrite app_nil_r. by destruct w.
  - cbn [forEach someReadRejected existsb servedBeforeFailure].
    destruct (readRejected env (Assignment.workerId workerRef)) eqn:Hrej.
    + erewrite bind_thrown by (by apply Mongo_dispatch_rejected).
      simpl. rewrite app_nil_r. by destruct w.
    + erewrite bind_returned by (by apply Mongo_dispatch_run).
      rewrite IH. cbn [Mongo.db Mongo.sent Mongo.socketWorkerId orb].
      rewrite omap_cons_list, <- app_assoc. reflexivity.
Qed.

Lemma Redis_distributeToWorkers_run env d repoInfo now w :
  let refs := Deployment.workers d in
  let failed := someReadRejected env refs in
  let messages :=
    omap (dispatchedTo env (Redis_find w) d repoInfo now) (servedBeforeFailure env refs) in
  Redis.distributeToWorkers env d repoInfo now w
  = (if failed then Thrown StoreFailure else Returned (Deployment.withStatus "active" d),
     exec (Redis.setDeployment (Deployment.id d)
             (Deployment.withStatus (if failed then "failed" else "active") d))
          (Redis.mkWorld (Redis.store w) (Redis.sent w ++ messages)
                         (Redis.socketWorkerId w))).
Proof.
  cbv zeta. unfold Redis.distributeToWorkers, tryCatch.
  unfold mbind at 1 3, M_bind at 1 3.
  rewrite Redis_forEach_dispatch.
  by destruct (someReadRejected env (Deployment.workers d)).
Qed.

Lemma Mongo_saveDeployment_exec d w :
  Mongo.saveDeployment d w = (Returned tt, exec (Mongo.saveDeployment d) w).
Proof.
  pose proof (Mongo_saveDeployment_returns d w) as Hr. unfold exec.
  destruct (Mongo.saveDeployment d w) as [o w']. simpl in *. by subst o.
Qed.

Lemma Mongo_distributeToWorkers_run env d repoInfo now w :
  let refs := Deployment.workers d in
  let failed := someReadRejected env refs in
  let messages :=
    omap (dispatchedTo env (Mongo_find w) d repoInfo now) (servedBeforeFailure env refs) in
  Mongo.distributeToWorkers env d repoInfo now w
  = (if failed then Thrown StoreFailure else Returned (Deployment.withStatus "active" d),
     exec (Mongo.saveDeployment
             (Deployment.withStatus (if failed then "failed" else "active") d))
          (Mongo.mkWorld (Mongo.db w) (Mongo.sent w ++ messages)
                         (Mongo.socketWorkerId w))).
Proof.
  cbv zeta. unfold Mongo.distributeToWorkers, tryCatch.
  unfold mbind at 1 3, M_bind at 1 3.
  rewrite Mongo_forEach_dispatch.
  destruct (someReadRejected env (Deployment.workers d));
    unfold mbind, M_bind; rewrite Mongo_saveDeployment_exec; reflexivity.
Qed.

(** C6, as the code has it.  The loop sends a deployRepository message for
    each assignment in turn; an assignment whose worker record is gone is
    skipped without an error, and the deployment is then saved as active all
    the same.  Only a rejected read of the store stops the loop: the
    deployment is saved as failed, the messages sent before stay sent, and
    the error is thrown to the caller. *)
Theorem distributeToWorkers_outcome (env : Env) (d : Deployment.t)
    (repoInfo : RepoInfo) (now : Time) :
  let refs := Deployment.workers d in
  let failed := someReadRejected env refs in
  let saved := Deployment.withStatus (if failed then "failed" else "active") d in
  (∀ w,
     Redis.distributeToWorkers env d repoInfo now w
     = (if failed then Thrown StoreFailure else Returned (Deployment.withStatus "active" d),
        exec (Redis.setDeployment (Deployment.id d) saved)
             (Redis.mkWorld (Redis.store w)
                (Redis.sent w ++ omap (dispatchedTo env (Redis_find w) d repoInfo now)
                                      (servedBeforeFailure env refs))
                (Redis.socketWorkerId w))))
  ∧ (∀ w,
       Mongo.distributeToWorkers env d repoInfo now w
       = (if failed then Thrown StoreFailure else Returned (Deployment.withStatus "active" d),
          exec (Mongo.saveDeployment saved)
               (Mongo.mkWorld (Mongo.db w)
                  (Mongo.sent w ++ omap (dispatchedTo env (Mongo_find w) d repoInfo now)
                                        (servedBeforeFailure env refs))
                  (Mongo.socketWorkerId w)))).
Proof.
  cbv zeta. split; intros w.
  - apply Redis_distributeToWorkers_run.
  - apply Mongo_distributeToWorkers_run.
Qed.

(** A chosen worker has disconnected before its dispatch: the call returns
    instead of throwing, the deployment is stored as active instead of
    failed, and only the other worker was sent a message. *)
Lemma distributeToWorkers_worker_gone :
  let afterRedis :=
    exec (Redis.distributeToWorkers Scenario.env (Scenario.planned 1)
            Scenario.repoInfo 2000) Scenario.R_halfGone in
  let afterMongo :=
    exec (Mongo.distributeToWorkers Scenario.env (Scenario.planned 3)
            Scenario.repoInfo 2000) Scenario.Mo_halfGone in
  (Redis_find Scenario.R_halfGone 2 = None
   ∧ outcome (Redis.distributeToWorkers Scenario.env (Scenario.planned 1)
                Scenario.repoInfo 2000) Scenario.R_halfGone
     = Returned (Deployment.withStatus "active" (Scenario.planned 1))
   ∧ Deployment.status <$> Scenario.R.deployment afterRedis 1 = Some "active"
   ∧ Redis.sent afterRedis
     = Redis.sent Scenario.R_halfGone
       ++ [("socket-1", deployRepository "./deployments/1_1"
                          "https://github.com/acme/app.git" 1 1 2000)])
  ∧ (Mongo_find Scenario.Mo_halfGone 2 = None
     ∧ outcome (Mongo.distributeToWorkers Scenario.env (Scenario.planned 3)
                  Scenario.repoInfo 2000) Scenario.Mo_halfGone
       = Returned (Deployment.withStatus "active" (Scenario.planned 3))
     ∧ Deployment.status <$> Scenario.Mo.deployment afterMongo 3 = Some "active"
     ∧ Mongo.sent afterMongo
       = Mongo.sent Scenario.Mo_halfGone
         ++ [("socket-1", deployRepository "./deployments/3_1"
                            "https://github.com/acme/app.git" 1 3 2000)]).
Proof. vm_compute. done. Qed.

End DistributeFacts.

(** ** Replica numbers and replica identifiers *)

Module ReplicaFacts.

(** C3. The second round of the run scales deployment 1 down.  The tail
    assignment (replica number 2) is popped, its worker is sent
    removeReplica{1, 2} and lastScaleDown is stamped.  In the Redis variant
    the Replica of deployment 1 with number 2 (identifier 3) stays in the
    store and in the deployment's set, while the entity with identifier 2,
    the only Replica of deployment 2, is deleted.  The MongoDB variant
    deletes nothing: it marks the matching Replica as removing. *)
Theorem scaleDown_removes_by_number :
  (∃ d,
     Scenario.R.deployment Scenario.R.relaxed 1 = Some d
     ∧ last (Deployment.workers d) = Some (Assignment.make 1 2 "pending")
     ∧ Scenario.R.scaledDown = exec (Redis.scaleDown d 20000) Scenario.R.relaxed
     ∧ Deployment.workers <$> Scenario.R.deployment Scenario.R.scaledDown 1
       = Some [Assignment.make 1 1 "active"]
     ∧ Scenario.R.deployment Scenario.R.scaledDown 1 ≫= Deployment.lastScaleDown
       = Some 20000%positive
     ∧ Redis.sent Scenario.R.scaledDown
       = Redis.sent Scenario.R.relaxed ++ [("socket-1", removeReplica 1 2)])
  ∧ (Redis.replicaKeys (Redis.store Scenario.R.scaledDown) !! 3
       = Some (Replica.make 3 1 "pending" 2 None None)
     ∧ 3 ∈ Redis.replicaSetOf (Redis.store Scenario.R.scaledDown) 1
     ∧ Redis.replicaKeys (Redis.store Scenario.R.relaxed) !! 2
       = Some (Replica.make 2 2 "pending" 1 (Some 3000%positive) None)
     ∧ Redis.replicaKeys (Redis.store Scenario.R.scaledDown) !! 2 = None
     ∧ 2 ∈ Redis.replicaSetOf (Redis.store Scenario.R.scaledDown) 2
     ∧ Redis.loadReplicas (Redis.store Scenario.R.scaledDown) 2 = Thrown TypeError)
  ∧ (Mongo.sent Scenario.Mo.scaledDown
       = Mongo.sent Scenario.Mo.relaxed ++ [("socket-1", removeReplica 3 2)]
     ∧ filter (λ r, Replica.deploymentId r = 3 ∧ Replica.replicaNumber r = 2)
              (Mongo.replicas (Mongo.db Scenario.Mo.scaledDown))
       = [Replica.make 7 3 "removing" 2 (Some 10000%positive) None]).
Proof.
  split; [|split].
  - eexists. split; [vm_compute; reflexivity|]. vm_compute. done.
  - split; [by vm_compute|]. split; [apply (bool_decide_unpack _); by vm_compute|].
    split; [by vm_compute|]. split; [by vm_compute|].
    split; [apply (bool_decide_unpack _); by vm_compute|by vm_compute].
  - vm_compute. done.
Qed.

(** C7. In the run, the replica of deployment 2 (replica number 1,
    identifier 2) reports that it is active.  The assignment of deployment 2
    is updated; in the Redis variant the Replica that receives the status
    and the metrics is the one with identifier 1, which belongs to
    deployment 1, and the Replica of deployment 2 stays pending.  The
    MongoDB variant updates the Replica of the reporting deployment. *)
Theorem deploymentStatus_updates_by_identifier :
  let afterRedis :=
    exec (Redis.deploymentStatus (Scenario.report 2 1 90)) Scenario.R.deployed in
  let afterMongo :=
    exec (Mongo.deploymentStatus (Scenario.report 5 1 90)) Scenario.Mo.deployed in
  (Deployment.workers <$> Scenario.R.deployment afterRedis 2
     = Some [Assignment.make 1 1 "active"]
   ∧ Redis.replicaKeys (Redis.store Scenario.R.deployed) !! 1
     = Some (Replica.make 1 1 "pending" 1 (Some 2000%positive) None)
   ∧ Redis.replicaKeys (Redis.store afterRedis) !! 1
     = Some (Replica.make 1 1 "active" 1 (Some 2000%positive)
                          (Some (Metrics.make 90 0)))
   ∧ Redis.replicaKeys (Redis.store afterRedis) !! 2
     = Some (Replica.make 2 2 "pending" 1 (Some 3000%positive) None))
  ∧ (Deployment.workers <$> Scenario.Mo.deployment afterMongo 5
       = Some [Assignment.make 1 1 "active"]
     ∧ Mongo.replicas (Mongo.db afterMongo)
       = [Replica.make 4 3 "pending" 1 (Some 2000%positive) None;
          Replica.make 6 5 "active" 1 (Some 3000%positive) (Some (Metrics.make 90 0))]).
Proof. vm_compute. done. Qed.

End ReplicaFacts.

(** ** The worker registry *)

Module RegistryFacts.
Import MonadFacts ListFacts.

Lemma length_filter_filter {A} (P Q : A → Prop)
    `{∀ x, Decision (P x), ∀ x, Decision (Q x)} (l : list A) :
  length (filter P (filter Q l)) ≤ length (filter P l).
Proof.
  induction l as [|x l IH]; [done|].
  rewrite (filter_cons Q). destruct (decide (Q x)).
  - rewrite !(filter_cons P). destruct (decide (P x)); simpl; lia.
  - rewrite (filter_cons P). destruct (decide (P x)); simpl; lia.
Qed.

Lemma Mongo_registerWorker_run socket hostname now w :
  Mongo.registerWorker socket hostname now w
  = (Returned tt,
     Mongo.mkWorld
       (Mongo.mkDb
          (filter (λ x, Worker.hostname x ≠ hostname) (Mongo.workers (Mongo.db w))
           ++ [Worker.make (Mongo.nextObjectId (Mongo.db w)) hostname socket
                           "active" now None])
          (Mongo.deployments (Mongo.db w)) (Mongo.replicas (Mongo.db w))
          (S (Mongo.nextObjectId (Mongo.db w))))
       (Mongo.sent w ++ [(socket, workerRegistered (Mongo.nextObjectId (Mongo.db w)))])
       (<[socket := Mongo.nextObjectId (Mongo.db w)]> (Mongo.socketWorkerId w))).
Proof. reflexivity. Qed.

Lemma Mongo_disconnect_run socket w :
  Mongo.disconnect socket w
  = (Returned tt,
     match Mongo.socketWorkerId w !! socket with
     | Some workerId =>
         Mongo.mkWorld
           (Mongo.mkDb (filter (λ x, Worker.id x ≠ workerId) (Mongo.workers (Mongo.db w)))
                       (Mongo.deployments (Mongo.db w)) (Mongo.replicas (Mongo.db w))
                       (Mongo.nextObjectId (Mongo.db w)))
           (Mongo.sent w) (Mongo.socketWorkerId w)
     | None => w
     end).
Proof.
  unfold Mongo.disconnect, mbind, M_bind, getWorld.
  by destruct (Mongo.socketWorkerId w !! socket).
Qed.

Lemma register_keeps_unique hostname worker workers :
  Worker.hostname worker = hostname →
  hostnamesUnique workers →
  hostnamesUnique (filter (λ x, Worker.hostname x ≠ hostname) workers ++ [worker]).
Proof.
  intros Hname Huniq h. unfold named. rewrite filter_app, length_app.
  destruct (decide (h = hostname)) as [->|Hne].
  - rewrite (filter_none _ (filter _ workers)).
    + rewrite filter_cons_True by done. simpl. lia.
    + apply Forall_forall. intros x Hx Hh.
      apply list_elem_of_filter in Hx as [Hx _]. done.
  - rewrite (filter_cons_False _ worker) by congruence. simpl.
    pose proof (length_filter_filter (λ x, Worker.hostname x = h)
                  (λ x, Worker.hostname x ≠ hostname) workers) as Hle.
    specialize (Huniq h). unfold named in Huniq. lia.
Qed.

Lemma removal_keeps_unique (P : Worker.t → Prop) `{∀ x, Decision (P x)} workers :
  hostnamesUnique workers → hostnamesUnique (filter P workers).
Proof.
  intros Huniq h. unfold named.
  pose proof (length_filter_filter (λ x, Worker.hostname x = h) P workers) as Hle.
  specialize (Huniq h). unfold named in Huniq. lia.
Qed.

Lemma Mongo_handle_unique e w :
  hostnamesUnique (Mongo.workers (Mongo.db w)) →
  (Mongo_handle e w).1 = Returned tt
  ∧ hostnamesUnique (Mongo.workers (Mongo.db (Mongo_handle e w).2)).
Proof.
  intros Huniq. destruct e as [socket hostname now|socket]; cbn [Mongo_handle].
  - rewrite Mongo_registerWorker_run. simpl. split; [done|].
    by apply register_keeps_unique.
  - rewrite Mongo_disconnect_run. simpl. split; [done|].
    destruct (Mongo.socketWorkerId w !! socket); simpl; [|done].
    by apply removal_keeps_unique.
Qed.

(** With the purge of the MongoDB variant, any sequence of registrations
    and disconnections keeps at most one record per hostname. *)
Lemma Mongo_hostnames_unique events w :
  hostnamesUnique (Mongo.workers (Mongo.db w)) →
  hostnamesUnique (Mongo.workers (Mongo.db (exec (Mongo_run events) w))).
Proof.
  revert w. induction events as [|e events IH]; intros w Huniq; [done|].
  destruct (Mongo_handle_unique e w Huniq) as [Hret Hnext].
  unfold exec, Mongo_run in *. cbn [forEach]. unfold mbind, M_bind.
  destruct (Mongo_handle e w) as [o w1]. simpl in Hret, Hnext. subst o.
  by apply IH.
Qed.

(** C4. The same hostname registers over two connections.  The Redis
    variant allocates a fresh identifier and persists an active record with
    the time of registration each time, and purges nothing: two records
    carry the hostname.  The MongoDB variant purges first and keeps one. *)
Theorem registerWorker_twice :
  (Scenario.R_twice
     = exec (Redis_run [Register "socket-1" "host-a" 1000;
                        Register "socket-2" "host-a" 2000]) Redis.emptyWorld
   ∧ Redis.workerKeys (Redis.store Scenario.R_twice) !! 1
     = Some (Worker.make 1 "host-a" "socket-1" "active" 1000 None)
   ∧ Redis.workerKeys (Redis.store Scenario.R_twice) !! 2
     = Some (Worker.make 2 "host-a" "socket-2" "active" 2000 None)
   ∧ length (named "host-a" (Redis_registered (Redis.store Scenario.R_twice))) = 2
   ∧ ¬ hostnamesUnique (Redis_registered (Redis.store Scenario.R_twice)))
  ∧ (Scenario.Mo_twice
       = exec (Mongo_run [Register "socket-1" "host-a" 1000;
                          Register "socket-2" "host-a" 2000]) Mongo.emptyWorld
     ∧ Mongo.workers (Mongo.db Scenario.Mo_twice)
       = [Worker.make 2 "host-a" "socket-2" "active" 2000 None]).
Proof.
  split.
  - split; [by vm_compute|]. split; [by vm_compute|]. split; [by vm_compute|].
    assert (length (named "host-a" (Redis_registered (Redis.store Scenario.R_twice))) = 2)
      as Htwo by (by vm_compute).
    split; [exact Htwo|].
    intros Huniq. specialize (Huniq "host-a"). lia.
  - vm_compute. done.
Qed.

End RegistryFacts.

(** ** Sorting and the listings *)

Module ListingFacts.
Import MonadFacts ListFacts.

Section Sorting.
Context {A : Type} (compare : A → A → Z).

Lemma insertSorted_Permutation x l : insertSorted compare x l ≡ₚ x :: l.
Proof.
  induction l as [|y l IH]; simpl; [done|].
  destruct (compare x y <=? 0)%Z; [done|].
  rewrite IH. apply Permutation_swap.
Qed.

Lemma sortWith_Permutation l : sortWith compare l ≡ₚ l.
Proof.
  induction l as [|x l IH]; simpl; [done|].
  fold (sortWith compare l). by rewrite insertSorted_Permutation, IH.
Qed.

Lemma sortWith_length l : length (sortWith compare l) = length l.
Proof. apply Permutation_length, sortWith_Permutation. Qed.

Hypothesis compare_total : ∀ a b, inOrder compare a b ∨ inOrder compare b a.

Lemma insertSorted_HdRel y x l :
  inOrder compare y x → HdRel (inOrder compare) y l →
  HdRel (inOrder compare) y (insertSorted compare x l).
Proof.
  intros Hyx Hhd. destruct l as [|z l]; simpl; [by constructor|].
  destruct (compare x z <=? 0)%Z; [by constructor|].
  constructor. by inversion Hhd.
Qed.

Lemma insertSorted_Sorted x l :
  Sorted (inOrder compare) l → Sorted (inOrder compare) (insertSorted compare x l).
Proof.
  induction 1 as [|y l Hsorted IH Hhd]; simpl; [by repeat constructor|].
  destruct (compare x y <=? 0)%Z eqn:Hxy.
  - constructor; [by constructor|]. constructor. by apply Z.leb_le.
  - constructor; [done|]. apply insertSorted_HdRel; [|done].
    apply Z.leb_gt in Hxy. destruct (compare_total y x) as [?|Hxy']; [done|].
    unfold inOrder in Hxy'. lia.
Qed.

Lemma sortWith_Sorted l : Sorted (inOrder compare) (sortWith compare l).
Proof.
  induction l as [|x l IH]; simpl; [constructor|].
  by apply insertSorted_Sorted.
Qed.

(** Elements that compare as equal keep their order. *)
Lemma insertSorted_stable x l :
  Forall (λ y, inOrder compare x y) l → insertSorted compare x l = x :: l.
Proof.
  destruct 1 as [|y l Hxy _]; simpl; [done|].
  by rewrite (proj2 (Z.leb_le _ _) Hxy).
Qed.

End Sorting.

Lemma newestFirst_total a b : inOrder newestFirst a b ∨ inOrder newestFirst b a.
Proof. unfold inOrder, newestFirst. lia. Qed.

Lemma freshestFirst_total a b : inOrder freshestFirst a b ∨ inOrder freshestFirst b a.
Proof. unfold inOrder, freshestFirst. lia. Qed.

Lemma byReplicaNumber_total a b : inOrder byReplicaNumber a b ∨ inOrder byReplicaNumber b a.
Proof. unfold inOrder, byReplicaNumber. lia. Qed.

Lemma Sorted_take {A} (R : A → A → Prop) n (l : list A) :
  Sorted R l → Sorted R (take n l).
Proof.
  intros Hs. revert n. induction Hs as [|x l Hs IH Hhd]; intros [|n]; simpl;
    try constructor.
  - apply IH.
  - destruct Hhd as [|y l' Hxy]; destruct n; simpl; by constructor.
Qed.

Lemma Sorted_weaken {A} (R S : A → A → Prop) (l : list A) :
  (∀ a b, R a b → S a b) → Sorted R l → Sorted S l.
Proof.
  intros HRS. induction 1 as [|x l _ IH Hhd]; constructor; [done|].
  destruct Hhd; constructor; auto.
Qed.

Lemma omap_id_fmap {A B} (f : A → option B) (l : list A) :
  omap id (f <$> l) = omap f l.
Proof.
  induction l as [|x l IH]; [done|].
  rewrite fmap_cons. cbn [omap list_omap]. by rewrite IH.
Qed.

Lemma Redis_listDeployments_run w :
  Redis.listDeployments w
  = (Returned (take 10 (sortWith newestFirst (Redis_deployments (Redis.store w)))), w).
Proof.
  unfold Redis.listDeployments, Redis.readStore, mbind, M_bind, mret, M_ret.
  by rewrite omap_id_fmap.
Qed.

Lemma Redis_listReplicas_run deploymentId w :
  Redis.listReplicas deploymentId w
  = (Returned (sortWith byReplicaNumber (Redis_replicas (Redis.store w) deploymentId)), w).
Proof.
  unfold Redis.listReplicas, Redis.readStore, mbind, M_bind, mret, M_ret.
  by rewrite omap_id_fmap.
Qed.

Lemma newest_ten (stored : list Deployment.t) :
  let listed := take 10 (sortWith newestFirst stored) in
  length listed = length stored `min` 10
  ∧ Sorted (λ a b, (Deployment.createdAt b ≤ Deployment.createdAt a)%positive) listed
  ∧ ∃ rest, listed ++ rest ≡ₚ stored
      ∧ ∀ a b, a ∈ listed → b ∈ rest →
          (Deployment.createdAt b ≤ Deployment.createdAt a)%positive.
Proof.
  cbv zeta.
  assert (Sorted (λ a b, (Deployment.createdAt b ≤ Deployment.createdAt a)%positive)
            (sortWith newestFirst stored)) as Hsorted.
  { eapply Sorted_weaken; [|apply sortWith_Sorted, newestFirst_total].
    intros a b. unfold inOrder, newestFirst. lia. }
  split; [|split].
  - rewrite length_take, sortWith_length. lia.
  - by apply Sorted_take.
  - exists (drop 10 (sortWith newestFirst stored)). split.
    + rewrite take_drop. apply sortWith_Permutation.
    + intros a b Ha Hb.
      eapply Sorted_StronglySorted in Hsorted; [|intros x y z; lia].
      rewrite <- (take_drop 10 (sortWith newestFirst stored)) in Hsorted.
      by apply (StronglySorted_app_1_elem_of _ _ _ a b) in Hsorted.
Qed.

(** X1. In both variants the listing of deployments returns without
    changing anything; its answer holds the ten newest stored deployments
    (all of them when there are fewer), newest first: the stored
    deployments are the listed ones together with others none of which is
    newer than a listed one.  In the Redis variant a member of the
    [deployments] set without a record is skipped. *)
Theorem listDeployments_newest_ten :
  (∀ w : Redis.World, ∃ listed,
     Redis.listDeployments w = (Returned listed, w)
     ∧ length listed = length (Redis_deployments (Redis.store w)) `min` 10
     ∧ Sorted (λ a b, (Deployment.createdAt b ≤ Deployment.createdAt a)%positive) listed
     ∧ ∃ rest, listed ++ rest ≡ₚ Redis_deployments (Redis.store w)
         ∧ ∀ a b, a ∈ listed → b ∈ rest →
             (Deployment.createdAt b ≤ Deployment.createdAt a)%positive)
  ∧ (∀ w : Mongo.World, ∃ listed,
       Mongo.listDeployments w = (Returned listed, w)
       ∧ length listed = length (Mongo.deployments (Mongo.db w)) `min` 10
       ∧ Sorted (λ a b, (Deployment.createdAt b ≤ Deployment.createdAt a)%positive) listed
       ∧ ∃ rest, listed ++ rest ≡ₚ Mongo.deployments (Mongo.db w)
           ∧ ∀ a b, a ∈ listed → b ∈ rest →
               (Deployment.createdAt b ≤ Deployment.createdAt a)%positive).
Proof.
  split; intros w; eexists.
  - split; [apply Redis_listDeployments_run|]. apply newest_ten.
  - split; [reflexivity|]. apply (newest_ten (Mongo.deployments (Mongo.db w))).
Qed.

Lemma sorted_replicas (stored : list Replica.t) :
  let listed := sortWith byReplicaNumber stored in
  listed ≡ₚ stored
  ∧ Sorted (λ a b, Replica.replicaNumber a ≤ Replica.replicaNumber b) listed.
Proof.
  cbv zeta. split; [apply sortWith_Permutation|].
  eapply Sorted_weaken; [|apply sortWith_Sorted, byReplicaNumber_total].
  intros a b. unfold inOrder, byReplicaNumber. lia.
Qed.

Lemma sorted_workers (stored : list Worker.t) :
  let listed := sortWith freshestFirst stored in
  listed ≡ₚ stored
  ∧ Sorted (λ a b, (Worker.lastHeartbeat b ≤ Worker.lastHeartbeat a)%positive) listed.
Proof.
  cbv zeta. split; [apply sortWith_Permutation|].
  eapply Sorted_weaken; [|apply sortWith_Sorted, freshestFirst_total].
  intros a b. unfold inOrder, freshestFirst. lia.
Qed.

Lemma Redis_listWorkers_run w :
  Redis.listWorkers w
  = (Returned (sortWith freshestFirst (Redis_registered (Redis.store w))), w).
Proof.
  unfold Redis.listWorkers, Redis.readStore, mbind, M_bind, mret, M_ret.
  by rewrite omap_id_fmap.
Qed.

(** X2. In both variants the listing of a deployment's replicas is a
    rearrangement, in ascending replica number, of that deployment's stored
    replicas, and the listing of workers a rearrangement of the registered
    workers with the freshest heartbeat first; neither changes anything.
    In the Redis variant a member of a set whose record is gone is skipped
    instead of failing the request. *)
Theorem listReplicas_listWorkers_sorted :
  (∀ (w : Redis.World) deploymentId, ∃ listed,
     Redis.listReplicas deploymentId w = (Returned listed, w)
     ∧ listed ≡ₚ Redis_replicas (Redis.store w) deploymentId
     ∧ Sorted (λ a b, Replica.replicaNumber a ≤ Replica.replicaNumber b) listed)
  ∧ (∀ (w : Mongo.World) deploymentId, ∃ listed,
       Mongo.listReplicas deploymentId w = (Returned listed, w)
       ∧ listed ≡ₚ Mongo.findReplicas (Mongo.db w) deploymentId
       ∧ Sorted (λ a b, Replica.replicaNumber a ≤ Replica.replicaNumber b) listed)
  ∧ (∀ w : Redis.World, ∃ listed,
       Redis.listWorkers w = (Returned listed, w)
       ∧ listed ≡ₚ Redis_registered (Redis.store w)
       ∧ Sorted (λ a b, (Worker.lastHeartbeat b ≤ Worker.lastHeartbeat a)%positive) listed)
  ∧ (∀ w : Mongo.World, ∃ listed,
       Mongo.listWorkers w = (Returned listed, w)
       ∧ listed ≡ₚ Mongo.workers (Mongo.db w)
       ∧ Sorted (λ a b, (Worker.lastHeartbeat b ≤ Worker.lastHeartbeat a)%positive) listed).
Proof.
  split; [|split; [|split]].
  - intros w deploymentId. eexists.
    split; [apply Redis_listReplicas_run|]. apply sorted_replicas.
  - intros w deploymentId. eexists.
    split; [reflexivity|].
    apply (sorted_replicas (Mongo.findReplicas (Mongo.db w) deploymentId)).
  - intros w. eexists. split; [apply Redis_listWorkers_run|]. apply sorted_workers.
  - intros w. eexists. split; [reflexivity|].
    apply (sorted_workers (Mongo.workers (Mongo.db w))).
Qed.

End ListingFacts.

(** ** The worker agent: formatBytes *)

Module FormatFacts.
Import ScalingFacts.

Lemma pow1024_0 : (pow1024 0 == 1)%Q.
Proof. reflexivity. Qed.

Lemma pow1024_S n : (pow1024 (S n) == 1024 * pow1024 n)%Q.
Proof.
  unfold pow1024. rewrite Nat2Z.inj_succ, Z.pow_succ_r by lia.
  rewrite inject_Z_mult. reflexivity.
Qed.

Lemma scaleDown1024_spec fuel value unitIndex :
  unitIndex ≤ 4 → 4 - unitIndex ≤ fuel →
  ∃ value' steps,
    WorkerNode.scaleDown1024 fuel value unitIndex = (value', unitIndex + steps)
    ∧ (value == value' * pow1024 steps)%Q
    ∧ unitIndex + steps ≤ 4
    ∧ (unitIndex + steps = 4 ∨ (value' < 1024)%Q)
    ∧ (steps = 0 ∨ (1 <= value')%Q).
Proof.
  revert value unitIndex. induction fuel as [|fuel IH]; intros value unitIndex Hle Hfuel.
  - exists value, 0. simpl. rewrite Nat.add_0_r.
    split; [done|]. split; [rewrite pow1024_0; ring|].
    split; [lia|]. split; [left; lia|by left].
  - cbn [WorkerNode.scaleDown1024].
    destruct (Qle_bool 1024 value) eqn:Hbig; cbn [andb].
    + change (length WorkerNode.units - 1) with 4.
      destruct (unitIndex <? 4) eqn:Hroom.
      * apply Nat.ltb_lt in Hroom.
        destruct (IH (value / 1024)%Q (S unitIndex)) as (value' & steps & Hrun & Heq & Hmax & Hstop & Hone);
          [lia..|].
        exists value', (S steps). rewrite Hrun.
        split; [f_equal; lia|].
        split.
        { rewrite pow1024_S.
          assert (value == value / 1024 * 1024)%Q as Hv by (field; discriminate).
          rewrite Hv at 1. rewrite Heq. ring. }
        split; [lia|]. split; [destruct Hstop; [left; lia|by right]|].
        right. destruct Hone as [->|Hone]; [|done].
        rewrite pow1024_0 in Heq. apply Qle_bool_iff in Hbig.
        assert (value' == value / 1024)%Q as -> by (rewrite Heq; ring).
        apply Qle_shift_div_l; [reflexivity|]. by rewrite Qmult_1_l.
      * apply Nat.ltb_ge in Hroom.
        exists value, 0. rewrite Nat.add_0_r.
        split; [done|]. split; [rewrite pow1024_0; ring|].
        split; [lia|]. split; [left; lia|by left].
    + exists value, 0. rewrite Nat.add_0_r.
      split; [done|]. split; [rewrite pow1024_0; ring|].
      split; [lia|]. split; [|by left].
      right. apply Qnot_le_lt. intros Hle'. apply Qle_bool_iff in Hle'. congruence.
Qed.

(** X3. formatBytes picks a unit among B, KB, MB, GB and TB and prints
    the byte count divided by 1024 once per step up the list: the printed
    value times 1024 to the power of the unit's position is the byte count;
    the value is below 1024 unless the unit is TB, and at least 1 unless the
    unit is B. *)
Theorem formatBytes_scale (toFixed2 : Q → string) (bytes : Q) :
  ∃ value unitIndex unit,
    WorkerNode.formatBytes toFixed2 bytes = (toFixed2 value ++ " " ++ unit)%string
    ∧ WorkerNode.units !! unitIndex = Some unit
    ∧ (bytes == value * pow1024 unitIndex)%Q
    ∧ (unitIndex = 4 ∨ (value < 1024)%Q)
    ∧ (unitIndex = 0 ∨ (1 <= value)%Q).
Proof.
  destruct (scaleDown1024_spec 5 bytes 0) as (value & steps & Hrun & Heq & Hmax & Hstop & Hone);
    [lia..|].
  change (0 + steps) with steps in Hrun, Hmax, Hstop.
  assert (is_Some (WorkerNode.units !! steps)) as [unit Hunit].
  { apply lookup_lt_is_Some. simpl. lia. }
  exists value, steps, unit.
  unfold WorkerNode.formatBytes. change (length WorkerNode.units) with 5.
  rewrite Hrun, Hunit. done.
Qed.

End FormatFacts.

(** ** The worker agent: status reports *)

Module AgentFacts.
Import ScalingFacts PlacementFacts.

Lemma Qltb_false x y : Qltb x y = false ↔ (y <= x)%Q.
Proof.
  unfold Qltb. rewrite negb_false_iff. apply Qle_bool_iff.
Qed.

Lemma averageMeasured_nan stats : None ∈ stats → WorkerNode.averageMeasured stats = None.
Proof.
  intros Hnan. unfold WorkerNode.averageMeasured.
  rewrite (proj2 (mapM_None id stats)); [done|].
  apply Exists_exists. eauto.
Qed.

(** X4. The status of a report is active, busy or overloaded.  When [docker
    stats] fails the agent reports active with a load of zeros.  When one of
    the values parsed from its output is NaN, the CPU usage of the report is
    NaN and the status is decided by the memory reading alone, so that an
    agent may report active without a CPU reading.  When the percentages of
    the report are numbers, an active report carries a CPU usage of at most
    60, and the record the orchestrator keeps after the report passes the
    placement filter, in both variants, exactly when the reported status is
    active: workers between 60 and 80 are reported busy and never chosen, so
    the bound 80 of the filter never decides. *)
Theorem calculateStatus_placement (round2 : Q → Q) (thisWorkerId : option nat)
    (loadAvg0 : Q) (dockerStats : option (list WorkerNode.Measure))
    (memoryUsage : WorkerNode.Measure) (runningContainers : nat) :
  let report := WorkerNode.calculateStatus round2 thisWorkerId loadAvg0 dockerStats
                  memoryUsage runningContainers in
  (WorkerNode.status report = "active" ∨ WorkerNode.status report = "busy"
   ∨ WorkerNode.status report = "overloaded")
  ∧ (dockerStats = None →
     report = WorkerNode.Build_StatusReport thisWorkerId "active"
                (WorkerNode.Measured.make (Some 0%Q) (Some 0%Q) 0))
  ∧ (∀ stats, dockerStats = Some stats → None ∈ stats →
       WorkerNode.Measured.cpuUsage (WorkerNode.load report) = None
       ∧ WorkerNode.status report
         = if WorkerNode.exceeds memoryUsage 90 then "overloaded"
           else if WorkerNode.exceeds memoryUsage 70 then "busy" else "active")
  ∧ (∀ load, received (WorkerNode.load report) = Some load →
       (WorkerNode.status report = "active" → (Load.cpuUsage load <= 60)%Q)
       ∧ ∀ (workerId : Id) (hostname : string) (socket : SocketId) (now : Time),
           let worker := Worker.make workerId hostname socket (WorkerNode.status report)
                           now (Some load) in
           Mongo.matchesAvailable worker = bool_decide (WorkerNode.status report = "active")
           ∧ Redis.isAvailable worker
             = Returned (bool_decide (WorkerNode.status report = "active"))).
Proof.
  cbv zeta. unfold WorkerNode.calculateStatus.
  destruct dockerStats as [stats|]; cbn [WorkerNode.status WorkerNode.load].
  - set (cpu := WorkerNode.maxMeasured _ _).
    split; [|split; [done|split]].
    + destruct (_ || _); [eauto|]. destruct (_ || _); eauto.
    + subst cpu. intros stats' [= <-] Hnan.
      rewrite (averageMeasured_nan _ Hnan). by cbn.
    + intros load Hload. unfold received in Hload. cbn in Hload.
      destruct cpu as [c|]; [|discriminate]. cbn in Hload.
      destruct (round2 <$> memoryUsage) as [memory|]; [|discriminate].
      injection Hload as <-. cbn [WorkerNode.exceeds Load.cpuUsage].
      unfold Mongo.matchesAvailable, Redis.isAvailable; cbn.
      destruct (Qltb 80 c || WorkerNode.exceeds memoryUsage 90) eqn:Hover.
      { split; [discriminate|]. intros ? ? ? ?.
        rewrite !bool_decide_eq_false_2 by done. cbn. by rewrite decide_False. }
      destruct (Qltb 60 c || WorkerNode.exceeds memoryUsage 70) eqn:Hbusy.
      { split; [discriminate|]. intros ? ? ? ?.
        rewrite !bool_decide_eq_false_2 by done. cbn. by rewrite decide_False. }
      apply orb_false_iff in Hbusy as [Hcpu _]. apply Qltb_false in Hcpu.
      split; [done|]. intros ? ? ? ?.
      assert (Qltb c 80 = true) as Hlt.
      { apply Qltb_lt. eapply Qle_lt_trans; [exact Hcpu|reflexivity]. }
      rewrite !bool_decide_eq_true_2 by done. cbn. rewrite decide_True by done.
      by rewrite Hlt.
  - split; [eauto|split; [done|split; [done|]]].
    intros load Hload. unfold received in Hload. cbn in Hload. injection Hload as <-.
    split; [discriminate|]. intros ? ? ? ?.
    unfold Mongo.matchesAvailable, Redis.isAvailable; cbn. done.
Qed.

(** A container at 30 %, a load average of 50 and a memory reading of 40:
    the report is active with a CPU usage of 50, and the worker is
    eligible. *)
Lemma calculateStatus_placement_witness :
  let report := WorkerNode.calculateStatus id (Some 1) 50 (Some [Some 30%Q])
                  (Some 40%Q) 2 in
  let load := Load.make 50 40 2 in
  received (WorkerNode.load report) = Some load
  ∧ WorkerNode.status report = "active"
  ∧ Redis.isAvailable (Worker.make 1 "host-a" "socket-1" (WorkerNode.status report)
                                   1500 (Some load))
    = Returned true.
Proof.
  cbv zeta.
  assert (received (WorkerNode.load
                      (WorkerNode.calculateStatus id (Some 1) 50
                         (Some [Some 30%Q]) (Some 40%Q) 2))
          = Some (Load.make 50 40 2)) as Hreceived by (vm_compute; reflexivity).
  split; [exact Hreceived|]. split; [vm_compute; reflexivity|].
  destruct (proj2 (proj2 (proj2
              (calculateStatus_placement id (Some 1) 50 (Some [Some 30%Q])
                 (Some 40%Q) 2))) _ Hreceived) as [_ Hfilter].
  destruct (Hfilter 1 "host-a" "socket-1" 1500%positive) as [_ ->].
  by vm_compute.
Defined.

(** A container for which [docker stats] prints [--]: the report is active
    and its CPU usage is NaN. *)
Example calculateStatus_nan :
  let report := WorkerNode.calculateStatus id (Some 1) 95 (Some [Some 99%Q; None])
                  (Some 20%Q) 2 in
  WorkerNode.status report = "active"
  ∧ WorkerNode.Measured.cpuUsage (WorkerNode.load report) = None.
Proof. vm_compute. done. Qed.

End AgentFacts.

(** ** The worker agent: building and deploying *)

Module DeployProjectFacts.
Import WorkerNode.

Section Keeping.
Context (R : State → State → Prop) `{!Reflexive R, !Transitive R}.

Lemma keeps_ret {A} (a : A) : keeps R (mret a : Agent A).
Proof. intros s. simpl. reflexivity. Qed.

Lemma keeps_fail {A} c : keeps R (fail c : Agent A).
Proof. intros s. simpl. reflexivity. Qed.

Lemma keeps_bind {A B} (m : Agent A) (f : A → Agent B) :
  keeps R m → (∀ a, keeps R (f a)) → keeps R (m ≫= f).
Proof.
  intros Hm Hf s. specialize (Hm s). unfold mbind, Agent_bind.
  destruct (m s) as [[a|c] s']; simpl in *; [|done].
  etrans; [exact Hm|apply Hf].
Qed.

Lemma keeps_attempt {A} (body : Agent A) handler :
  keeps R body → (∀ c, keeps R (handler c)) → keeps R (attempt body handler).
Proof.
  intros Hm Hh s. specialize (Hm s). unfold attempt.
  destruct (body s) as [[a|c] s']; simpl in *; [done|].
  etrans; [exact Hm|apply Hh].
Qed.

End Keeping.

Global Instance sameEmitted_refl : Reflexive sameEmitted.
Proof. by intros s. Qed.
Global Instance sameEmitted_trans : Transitive sameEmitted.
Proof. unfold sameEmitted. intros s1 s2 s3 H12 H23. congruence. Qed.
Global Instance logGrows_refl : Reflexive logGrows.
Proof. intros s. unfold logGrows. reflexivity. Qed.
Global Instance logGrows_trans : Transitive logGrows.
Proof. unfold logGrows. intros s1 s2 s3 H12 H23. by etrans. Qed.

Section OnHost.
Context (host : Host).

Lemma execPromise_run c s :
  execPromise host c s
  = (if fails host (length (ran s)) c then Failed c else Done tt,
     mkState (ran s ++ [c]) (emitted s) (dirs s)).
Proof. reflexivity. Qed.

Lemma execQuietly_run c s :
  execQuietly host c s = (Done tt, mkState (ran s ++ [c]) (emitted s) (dirs s)).
Proof.
  unfold execQuietly, attempt. rewrite execPromise_run.
  by destruct (fails host _ c).
Qed.

Lemma bind_done {A B} (m : Agent A) (f : A → Agent B) s a s' :
  m s = (Done a, s') → (m ≫= f) s = f a s'.
Proof. unfold mbind, Agent_bind. by intros ->. Qed.

Lemma bind_failed {A B} (m : Agent A) (f : A → Agent B) s c s' :
  m s = (Failed c, s') → (m ≫= f) s = (Failed c, s').
Proof. unfold mbind, Agent_bind. by intros ->. Qed.

(** cleanup runs its five docker commands whatever their results, removes
    the directory if there is one, and never fails. *)
Lemma cleanup_run dir deploymentId replicaId s :
  let container := containerName deploymentId replicaId in
  let docker :=
    [dockerInspect container; dockerStopGrace container; dockerRemoveForce container;
     dockerRemoveImage (imageTag deploymentId replicaId); dockerPrune] in
  cleanup host dir deploymentId replicaId s
  = (Done tt,
     if decide (dir ∈ dirs s)
     then mkState (ran s ++ docker ++ [removeDirectory dir]) (emitted s)
            (if fails host (length (ran s) + 5) (removeDirectory dir)
             then dirs s else dirs s ∖ {[dir]})
     else mkState (ran s ++ docker) (emitted s) (dirs s)).
Proof.
  cbv zeta. unfold cleanup, attempt.
  do 5 (erewrite bind_done by apply execQuietly_run).
  unfold mbind at 1, Agent_bind at 1. cbn [dirs ran emitted].
  destruct (decide (dir ∈ dirs s)).
  - unfold mbind, Agent_bind. rewrite execPromise_run. cbn [ran emitted dirs].
    rewrite !length_app. cbn [length].
    replace (length (ran s) + 1 + 1 + 1 + 1 + 1) with (length (ran s) + 5) by lia.
    rewrite <- !app_assoc. cbn [app].
    destruct (fails host _ _); reflexivity.
  - unfold mret, Agent_ret. rewrite <- !app_assoc. reflexivity.
Qed.

Lemma buildAttempts_run dir deploymentId replicaId remaining s :
  1 ≤ remaining →
  ∃ k result s',
    buildAttempts host dir deploymentId replicaId remaining s = (result, s')
    ∧ 1 ≤ k ≤ remaining
    ∧ ran s' = ran s ++ buildRounds dir (imageTag deploymentId replicaId) k
    ∧ emitted s' = emitted s
    ∧ dirs s' = dirs s
    ∧ (result = Done true
       ∨ (result = Failed (dockerBuild dir (imageTag deploymentId replicaId))
          ∧ k = remaining)).
Proof.
  revert s. induction remaining as [|remaining IH]; intros s Hpos; [lia|].
  cbn [buildAttempts]. unfold attempt.
  erewrite bind_done by apply execQuietly_run.
  unfold mbind at 1, Agent_bind at 1. rewrite execPromise_run. cbn [ran emitted dirs].
  destruct (fails host _ _).
  - destruct remaining as [|remaining'].
    + exists 1. eexists _, _. split; [reflexivity|]. cbn [ran emitted dirs].
      rewrite <- app_assoc. repeat split; eauto.
    + erewrite bind_done by reflexivity.
      destruct (IH (mkState ((ran s ++ [dockerPrune])
                               ++ [dockerBuild dir (imageTag deploymentId replicaId)]
                               ++ [sleep5000]) (emitted s) (dirs s)))
        as (k & result & s' & Hrun & Hk & Hran & Hem & Hdirs & Hres); [lia|].
      cbn [ran emitted dirs] in *.
      exists (S k), result, s'.
      split.
      { rewrite <- Hrun. f_equal. f_equal. by rewrite <- !app_assoc. }
      split; [lia|]. split.
      { rewrite Hran. rewrite <- !app_assoc. destruct k as [|k]; [lia|]. reflexivity. }
      split; [done|]. split; [done|].
      destruct Hres as [?|[? ?]]; [by left|right; split; [done|lia]].
  - exists 1. eexists _, _. split; [reflexivity|]. cbn [ran emitted dirs].
    rewrite <- app_assoc. split; [lia|]. repeat split; eauto.
Qed.

(** X5. retryDockerBuild with no attempt allowed returns false without
    running anything.  Otherwise it runs between one and maxAttempts rounds
    of prune and build, waiting five seconds between rounds, stops at the
    first build that succeeds and then returns true, and throws the failure
    of the build only after maxAttempts failed builds; it never returns
    false, emits nothing and touches no directory. *)
Theorem retryDockerBuild_rounds (dir : string) (deploymentId replicaId : nat)
    (maxAttempts : nat) (s : State) :
  let image := imageTag deploymentId replicaId in
  (maxAttempts = 0
   ∧ retryDockerBuild host dir deploymentId replicaId maxAttempts s = (Done false, s))
  ∨ (∃ k result s',
       retryDockerBuild host dir deploymentId replicaId maxAttempts s = (result, s')
       ∧ 1 ≤ k ≤ maxAttempts
       ∧ ran s' = ran s ++ buildRounds dir image k
       ∧ emitted s' = emitted s
       ∧ dirs s' = dirs s
       ∧ (result = Done true
          ∨ (result = Failed (dockerBuild dir image) ∧ k = maxAttempts))).
Proof.
  cbv zeta. destruct maxAttempts as [|n]; [by left|].
  right. apply buildAttempts_run. lia.
Qed.

Lemma keeps_execPromise_emitted c : keeps sameEmitted (execPromise host c).
Proof. by intros s. Qed.

Lemma keeps_execPromise_log c : keeps logGrows (execPromise host c).
Proof. intros s. unfold logGrows. simpl. by apply prefix_app_r. Qed.

Lemma keeps_execQuietly_emitted c : keeps sameEmitted (execQuietly host c).
Proof. intros s. by rewrite execQuietly_run. Qed.

Lemma keeps_execQuietly_log c : keeps logGrows (execQuietly host c).
Proof. intros s. rewrite execQuietly_run. unfold logGrows. simpl. by apply prefix_app_r. Qed.

Lemma keeps_setDirs_emitted f : keeps sameEmitted (setDirs f).
Proof. by intros s. Qed.

Lemma keeps_setDirs_log f : keeps logGrows (setDirs f).
Proof. intros s. unfold logGrows. simpl. done. Qed.

Lemma keeps_socketEmit_log e : keeps logGrows (socketEmit e).
Proof. intros s. unfold logGrows. simpl. done. Qed.

Lemma keeps_cleanup_emitted dir deploymentId replicaId :
  keeps sameEmitted (cleanup host dir deploymentId replicaId).
Proof. intros s. rewrite cleanup_run. unfold sameEmitted. by case_decide. Qed.

Lemma keeps_cleanup_log dir deploymentId replicaId :
  keeps logGrows (cleanup host dir deploymentId replicaId).
Proof.
  intros s. rewrite cleanup_run. unfold logGrows.
  case_decide; simpl; by apply prefix_app_r.
Qed.

Lemma keeps_retryDockerBuild_emitted dir deploymentId replicaId n :
  keeps sameEmitted (retryDockerBuild host dir deploymentId replicaId n).
Proof.
  intros s. unfold retryDockerBuild. destruct n as [|n]; [done|].
  destruct (buildAttempts_run dir deploymentId replicaId (S n) s)
    as (k & result & s' & -> & _ & _ & Hem & _); [lia|exact Hem].
Qed.

Lemma keeps_retryDockerBuild_log dir deploymentId replicaId n :
  keeps logGrows (retryDockerBuild host dir deploymentId replicaId n).
Proof.
  intros s. unfold retryDockerBuild. destruct n as [|n]; [done|].
  destruct (buildAttempts_run dir deploymentId replicaId (S n) s)
    as (k & result & s' & -> & _ & Hran & _); [lia|]. unfold logGrows; simpl.
  rewrite Hran. by apply prefix_app_r.
Qed.

Lemma emitsAtEnd_socketEmit e : emitsAtEnd e (socketEmit e).
Proof. by intros s. Qed.

Lemma emitsAtEnd_bind {A} e (m : Agent A) (f : A → Agent unit) :
  keeps sameEmitted m → (∀ a, emitsAtEnd e (f a)) → emitsAtEnd e (m ≫= f).
Proof.
  intros Hm Hf s. specialize (Hm s). unfold mbind, Agent_bind, sameEmitted in *.
  destruct (m s) as [[a|c] s1]; simpl in Hm; [|done].
  specialize (Hf a s1). destruct (f a s1) as [[[]|c] s2]; congruence.
Qed.

Ltac quiet :=
  repeat first
    [ apply keeps_execPromise_emitted | apply keeps_execQuietly_emitted
    | apply keeps_setDirs_emitted | apply keeps_cleanup_emitted
    | apply keeps_retryDockerBuild_emitted | apply (keeps_ret sameEmitted)
    | apply (keeps_bind sameEmitted); [|intros ?]
    | destruct (hasRequirements host) ].

Ltac logged :=
  repeat first
    [ apply keeps_execPromise_log | apply keeps_execQuietly_log
    | apply keeps_setDirs_log | apply keeps_cleanup_log | apply keeps_socketEmit_log
    | apply keeps_retryDockerBuild_log | apply (keeps_ret logGrows)
    | apply (keeps_bind logGrows); [|intros ?]
    | apply (keeps_attempt logGrows); [|intros ?]
    | destruct (hasRequirements host) ].

(** X6. deployProject never throws and emits exactly one deploymentStatus
    for its deployment and replica number: either active, with port
    8000 + replicaId and metrics of zero, or failed, with no metrics and the
    command that failed.  Whatever happens, the first command it runs is the
    inspection that opens cleanup. *)
Theorem deployProject_reports (thisWorkerId : nat) (deploymentDir repoUrl : string)
    (replicaId deploymentId : nat) (s : State) :
  ∃ s',
    deployProject host thisWorkerId deploymentDir repoUrl replicaId deploymentId s
      = (Done tt, s')
    ∧ (emitted s'
         = emitted s
           ++ [deploymentStatusSent
                 (StatusUpdate.make thisWorkerId deploymentId replicaId "active"
                                    (Some (Metrics.make 0 0)))
                 (Some (8000 + Z.of_nat replicaId)%Z) None]
       ∨ ∃ c, emitted s'
              = emitted s
                ++ [deploymentStatusSent
                      (StatusUpdate.make thisWorkerId deploymentId replicaId "failed" None)
                      None (Some c)])
    ∧ ∃ rest,
        ran s' = ran s ++ dockerInspect (containerName deploymentId replicaId) :: rest.
Proof.
  unfold deployProject. cbv zeta.
  match goal with |- context [attempt ?b ?h] => set (body := b); set (handler := h) end.
  assert (emitsAtEnd
            (deploymentStatusSent
               (StatusUpdate.make thisWorkerId deploymentId replicaId "active"
                                  (Some (Metrics.make 0 0)))
               (Some (8000 + Z.of_nat replicaId)%Z) None) body) as Hend.
  { subst body. repeat (apply emitsAtEnd_bind; [quiet|intros ?]).
    apply emitsAtEnd_socketEmit. }
  assert (keeps logGrows (attempt body handler)) as Hlog.
  { subst body handler. logged. }
  assert (ran s ++ [dockerInspect (containerName deploymentId replicaId)]
          `prefix_of` ran (attempt body handler s).2) as Hfirst.
  { subst body. unfold attempt.
    erewrite bind_done by apply cleanup_run.
    match goal with |- context [(?rest ?sc)] =>
      match rest with (_ ≫= _) => set (after := rest); set (cleaned := sc) end end.
    assert (keeps logGrows (attempt after handler)) as Hafter.
    { subst after handler. logged. }
    specialize (Hafter cleaned). unfold logGrows, attempt in Hafter.
    etrans; [|exact Hafter].
    subst cleaned. case_decide; simpl; apply prefix_app, prefix_cons, prefix_nil. }
  clear Hlog. destruct Hfirst as [rest Hrest].
  specialize (Hend s). unfold attempt in *.
  destruct (body s) as [[[]|c] s1].
  - exists s1. split; [done|]. split; [by left|].
    exists rest. simpl in Hrest. by rewrite Hrest, <- app_assoc.
  - assert (∃ s2, handler c s1 = (Done tt, s2)
                  ∧ emitted s2
                    = emitted s1
                      ++ [deploymentStatusSent
                            (StatusUpdate.make thisWorkerId deploymentId replicaId
                                               "failed" None)
                            None (Some c)]) as (s2 & Hhandler & Hfailed).
    { subst handler. cbv beta. erewrite bind_done by reflexivity.
      rewrite cleanup_run. cbv zeta. eexists. split; [reflexivity|].
      by case_decide. }
    rewrite Hhandler in Hrest |- *.
    exists s2. split; [done|]. split.
    + right. exists c. by rewrite Hfailed, Hend.
    + exists rest. simpl in Hrest. by rewrite Hrest, <- app_assoc.
Qed.

End OnHost.

End DeployProjectFacts.

(** ** Names of directories, containers and images *)

Module NamingFacts.

Lemma pretty_N_go_occurs c x s :
  notDigit c → ¬ occurs c s → ¬ occurs c (pretty_N_go x s).
Proof.
  intros Hc. revert s. induction (N.lt_wf_0 x) as [x _ IH]; intros s Hs.
  destruct (decide (x = 0)%N) as [->|Hx]; [by rewrite pretty_N_go_0|].
  rewrite pretty_N_go_step by lia. apply IH.
  - apply N.div_lt; lia.
  - simpl. intros [Heq|Hin]; [by apply (Hc (x `mod` 10)%N)|done].
Qed.

Lemma pretty_nat_occurs c (n : nat) : notDigit c → ¬ occurs c (pretty n).
Proof.
  intros Hc. unfold pretty, pretty_nat, pretty, pretty_N.
  case_decide.
  - simpl. intros [Heq|[]]. by apply (Hc 0%N).
  - apply pretty_N_go_occurs; [done|]. intros [].
Qed.

Lemma notDigit_char c :
  c ≠ "0"%char → c ≠ "1"%char → c ≠ "2"%char → c ≠ "3"%char → c ≠ "4"%char →
  c ≠ "5"%char → c ≠ "6"%char → c ≠ "7"%char → c ≠ "8"%char → c ≠ "9"%char →
  notDigit c.
Proof.
  intros ? ? ? ? ? ? ? ? ? ? n Heq. unfold pretty_N_char in Heq.
  repeat case_match; congruence.
Qed.

Lemma split_at_separator c u u' v v' :
  ¬ occurs c u → ¬ occurs c u' →
  (u +:+ String c v) = (u' +:+ String c v') → u = u' ∧ v = v'.
Proof.
  revert u'. induction u as [|a u IH]; intros [|a' u'] Hu Hu'; simpl in *.
  - by intros [= ->].
  - intros [= <- _]. destruct Hu'. by left.
  - intros [= -> _]. destruct Hu. by left.
  - intros [= -> Hrest]. destruct (IH u') as [-> ->]; [tauto|tauto|done|done].
Qed.

Lemma numbered_inj c (d r d' r' : nat) :
  notDigit c →
  (pretty d +:+ String c (pretty r)) = (pretty d' +:+ String c (pretty r')) →
  d = d' ∧ r = r'.
Proof.
  intros Hc Heq.
  apply split_at_separator in Heq as [Hd Hr]; [|by apply pretty_nat_occurs..].
  split; by apply (inj pretty).
Qed.

(** X8. Two replicas share a deployment directory (as the orchestrator
    names it), a container name or an image tag only if they are the same
    replica of the same deployment. *)
Theorem replica_names_injective (env : Env) (d r d' r' : nat) :
  (deploymentDirOf env d r = deploymentDirOf env d' r' ↔ d = d' ∧ r = r')
  ∧ (WorkerNode.containerName d r = WorkerNode.containerName d' r' ↔ d = d' ∧ r = r')
  ∧ (WorkerNode.imageTag d r = WorkerNode.imageTag d' r' ↔ d = d' ∧ r = r').
Proof.
  split; [|split]; (split; [|by intros [-> ->]]).
  - unfold deploymentDirOf. intros Heq.
    apply (inj (String.app _)) in Heq. injection Heq as Heq.
    apply (numbered_inj "_" d r d' r'); [|done].
    by apply notDigit_char.
  - unfold WorkerNode.containerName. intros Heq.
    injection Heq as Heq.
    apply (numbered_inj "-" d r d' r'); [|done].
    by apply notDigit_char.
  - unfold WorkerNode.imageTag. intros Heq.
    injection Heq as Heq.
    apply (numbered_inj ":" d r d' r'); [|done].
    by apply notDigit_char.
Qed.

End NamingFacts.

(** ** What the agent's reports do to scaling *)

Module AgentScalingFacts.
Import ScalingFacts DoubleFacts.

Lemma reportedByAgent_zero r : reportedByAgent r → cpuOrZero r = 0%Q.
Proof. unfold cpuOrZero. by intros [->| ->]. Qed.

(** Adding zeros to zero gives zero, also in doubles. *)
Lemma totalCpuLoad_zero rs :
  Forall (λ r, cpuOrZero r = 0%Q) rs → totalCpuLoad rs = S754_zero false.
Proof.
  unfold totalCpuLoad. change (Double.ofZ 0) with (S754_zero false).
  induction 1 as [|r rs Hr _ IH]; simpl; [done|].
  by rewrite Hr.
Qed.

Lemma avgCpuLoad_zero replicas :
  Forall reportedByAgent replicas → avgCpuLoad replicas = S754_zero false.
Proof.
  intros Hall. unfold avgCpuLoad.
  destruct (activeReplicas replicas) as [|r rs] eqn:Hactive; [reflexivity|].
  cbn [length Nat.ltb Nat.leb]. rewrite totalCpuLoad_zero.
  - cbn [Z.of_nat]. apply zero_div_positive.
  - rewrite <- Hactive. unfold activeReplicas.
    apply Forall_forall. intros x Hx. apply reportedByAgent_zero.
    apply list_elem_of_filter in Hx as [_ Hx].
    by apply (proj1 (Forall_forall _ _) Hall).
Qed.

(** X7. When every replica's metrics are what the agent can have reported
    (none, or the zeros deployProject sends), the average is zero: the
    controller never decides to scale up, and decides to scale down exactly
    when the replica count exceeds minReplicas and the scale-down cooldown
    is over. *)
Theorem agent_metrics_never_scale_up (d : Deployment.t) (replicas : list Replica.t)
    (now : Time) :
  Forall reportedByAgent replicas →
  scalingDecision d replicas now
  = if (Deployment.minReplicas d <? Z.of_nat (length replicas))%Z
       && cooledDown now (Deployment.lastScaleDown d) scalingSettings.scaleDownCooldown
    then ScaleDown else NoChange.
Proof.
  intros Hall. unfold scalingDecision.
  rewrite (avgCpuLoad_zero replicas Hall). reflexivity.
Qed.

Lemma agent_metrics_never_scale_up_witness :
  Forall reportedByAgent (Scenario.running 3 0)
  ∧ scalingDecision (Scenario.bounded 2 4 None None) (Scenario.running 3 0) 1000000
    = ScaleDown.
Proof.
  assert (Forall reportedByAgent (Scenario.running 3 0)) as Hall.
  { repeat constructor; by right. }
  split; [exact Hall|].
  exact (agent_metrics_never_scale_up (Scenario.bounded 2 4 None None)
           (Scenario.running 3 0) 1000000 Hall).
Defined.

End AgentScalingFacts.

(** ** Removing a replica on the agent *)

Module RemoveReplicaFacts.
Import WorkerNode.

(** X9. The removeReplica handler of the agent never fails and always
    answers with exactly one replicaRemoved event, whatever the commands
    do: it runs the five docker commands in order, removes the replica's
    directory when it exists, and the directory is gone afterwards unless
    that removal itself failed. *)
Theorem onRemoveReplica_always_reports (host : Host) (deploymentPath : string)
    (deploymentId replicaId : nat) (s : State) :
  let dir := replicaDir host deploymentPath deploymentId replicaId in
  let container := containerName deploymentId replicaId in
  let docker :=
    [dockerInspect container; dockerStopGrace container; dockerRemoveForce container;
     dockerRemoveImage (imageTag deploymentId replicaId); dockerPrune] in
  ∃ s',
    onRemoveReplica host deploymentPath deploymentId replicaId s = (Done tt, s')
    ∧ emitted s' = emitted s ++ [replicaRemovedSent deploymentId replicaId]
    ∧ ran s' = ran s ++ docker
               ++ (if decide (dir ∈ dirs s) then [removeDirectory dir] else [])
    ∧ (dirs s' = dirs s ∖ {[dir]}
       ∨ dirs s' = dirs s
         ∧ fails host (length (ran s) + 5) (removeDirectory dir) = true).
Proof.
  cbv zeta. unfold onRemoveReplica, attempt.
  erewrite DeployProjectFacts.bind_done by apply DeployProjectFacts.cleanup_run.
  unfold socketEmit. eexists. split; [reflexivity|].
  case_decide as Hdir; cbn [emitted ran dirs].
  - split; [done|]. split; [done|].
    destruct (fails host _ _) eqn:Hfails; [by right|by left].
  - split; [done|]. split; [by rewrite app_nil_r|].
    left. symmetry. apply difference_disjoint_L. by apply disjoint_singleton_r.
Qed.

End RemoveReplicaFacts.

(** ** Edge cases of the orchestrator's handlers *)

Module HandlerFacts.
Import MonadFacts.

Lemma Redis_scaleDown_run d now w :
  Redis.scaleDown d now w
  = (Returned tt,
     match tailWorker (Redis_find w) d with
     | None => w
     | Some (lastWorker, worker) =>
         let st := Redis.store w in
         Redis.mkWorld
           (Redis.mkStore (Redis.counters st) (Redis.workerKeys st)
              (<[Deployment.id d :=
                   Deployment.withWorkers (removelast (Deployment.workers d))
                     (Deployment.withLastScaleDown now d)]> (Redis.deploymentKeys st))
              (delete (Assignment.replicaId lastWorker) (Redis.replicaKeys st))
              (Redis.workersSet st) (Redis.deploymentsSet st)
              (<[Deployment.id d :=
                   Redis.replicaSetOf st (Deployment.id d)
                   ∖ {[Assignment.replicaId lastWorker]}]> (Redis.replicaSets st)))
           (Redis.sent w
            ++ [(Worker.socketId worker,
                 removeReplica (Deployment.id d) (Assignment.replicaId lastWorker))])
           (Redis.socketWorkerId w)
     end).
Proof.
  unfold Redis.scaleDown, tailWorker, Redis_find.
  destruct (last (Deployment.workers d)) as [lastWorker|]; simpl; [|done].
  unfold tryCatch, mbind, M_bind, Redis.getWorker, Redis.readStore. simpl.
  by destruct (Redis.workerKeys (Redis.store w) !! Assignment.workerId lastWorker).
Qed.

Lemma Mongo_scaleDown_run d now w :
  let d' := Deployment.withWorkers (slice0 (-1) (Deployment.workers d))
              (Deployment.withLastScaleDown now d) in
  Mongo.scaleDown d now w
  = (Returned tt,
     match tailWorker (Mongo_find w) d with
     | None => w
     | Some (lastWorker, worker) =>
         Mongo.mkWorld
           (Mongo.mkDb (Mongo.workers (Mongo.db w))
              (Mongo.deployments (Mongo.db (exec (Mongo.saveDeployment d') w)))
              (Mongo.updateFirst (Deployment.id d) (Assignment.replicaId lastWorker)
                 (Replica.withStatus "removing") (Mongo.replicas (Mongo.db w)))
              (Mongo.nextObjectId (Mongo.db w)))
           (Mongo.sent w
            ++ [(Worker.socketId worker,
                 removeReplica (Deployment.id d) (Assignment.replicaId lastWorker))])
           (Mongo.socketWorkerId w)
     end).
Proof.
  cbv zeta. unfold Mongo.scaleDown, tailWorker, Mongo_find.
  destruct (last (Deployment.workers d)) as [lastWorker|]; simpl; [|done].
  unfold tryCatch, mbind, M_bind, Mongo.findWorkerById, Mongo.readDb. simpl.
  destruct (head (filter _ (Mongo.workers (Mongo.db w)))) as [worker|]; [|done]. simpl.
  unfold Mongo.saveDeployment, Mongo.findOneAndUpdateReplica, mbind, M_bind,
    Mongo.readDb, Mongo.setDeployments, Mongo.setReplicas, Mongo.onDb, modifyWorld,
    exec, Mongo.emit. simpl.
  by case_decide.
Qed.

Lemma length_updateFirst deploymentId replicaNumber update rs :
  length (Mongo.updateFirst deploymentId replicaNumber update rs) = length rs.
Proof.
  induction rs as [|r rs IH]; simpl; [done|]. case_decide; simpl; by rewrite ?IH.
Qed.

Lemma grown_differs {A} (l : list A) x : l ++ [x] ≠ l.
Proof.
  intros Heq. apply (f_equal length) in Heq. rewrite length_app in Heq. simpl in Heq. lia.
Qed.

(** X10. scaleDown acts only when the deployment's last assignment names a
    worker whose record still exists: otherwise the world is left exactly as
    it was, without message and without stamp.  When it acts, the worker is
    sent removeReplica with the replica number of the popped assignment; the
    Redis variant deletes the key replica:{number}, whatever deployment owns
    that entity, and keeps every other Replica; the MongoDB variant deletes
    no Replica. *)
Theorem scaleDown_needs_tail_worker (d : Deployment.t) (now : Time) :
  (∀ w, let w' := exec (Redis.scaleDown d now) w in
     outcome (Redis.scaleDown d now) w = Returned tt
     ∧ (w' = w ↔ tailWorker (Redis_find w) d = None)
     ∧ ∀ lastWorker worker,
         tailWorker (Redis_find w) d = Some (lastWorker, worker) →
         Redis.sent w'
         = Redis.sent w
           ++ [(Worker.socketId worker,
                removeReplica (Deployment.id d) (Assignment.replicaId lastWorker))]
         ∧ Redis.replicaKeys (Redis.store w')
           = delete (Assignment.replicaId lastWorker) (Redis.replicaKeys (Redis.store w))
         ∧ Redis.deploymentKeys (Redis.store w') !! Deployment.id d
           = Some (Deployment.withWorkers (removelast (Deployment.workers d))
                     (Deployment.withLastScaleDown now d))
         ∧ Redis.workerKeys (Redis.store w') = Redis.workerKeys (Redis.store w))
  ∧ (∀ w, let w' := exec (Mongo.scaleDown d now) w in
     outcome (Mongo.scaleDown d now) w = Returned tt
     ∧ (w' = w ↔ tailWorker (Mongo_find w) d = None)
     ∧ ∀ lastWorker worker,
         tailWorker (Mongo_find w) d = Some (lastWorker, worker) →
         Mongo.sent w'
         = Mongo.sent w
           ++ [(Worker.socketId worker,
                removeReplica (Deployment.id d) (Assignment.replicaId lastWorker))]
         ∧ Mongo.replicas (Mongo.db w')
           = Mongo.updateFirst (Deployment.id d) (Assignment.replicaId lastWorker)
               (Replica.withStatus "removing") (Mongo.replicas (Mongo.db w))
         ∧ length (Mongo.replicas (Mongo.db w')) = length (Mongo.replicas (Mongo.db w))
         ∧ Mongo_find w' = Mongo_find w).
Proof.
  split; intros w; cbv zeta; unfold exec, outcome.
  - rewrite Redis_scaleDown_run. cbn [fst snd].
    destruct (tailWorker (Redis_find w) d) as [[lastWorker worker]|].
    + split; [done|]. split.
      * split; [|done]. intros Heq. apply (f_equal Redis.sent) in Heq.
        simpl in Heq. by apply grown_differs in Heq.
      * intros ? ? [= <- <-]. simpl. by rewrite lookup_insert_eq.
    + split; [done|]. split; [done|]. by intros ? ? [=].
  - rewrite Mongo_scaleDown_run. cbn [fst snd].
    destruct (tailWorker (Mongo_find w) d) as [[lastWorker worker]|].
    + split; [done|]. split.
      * split; [|done]. intros Heq. apply (f_equal Mongo.sent) in Heq.
        simpl in Heq. by apply grown_differs in Heq.
      * intros ? ? [= <- <-]. simpl. by rewrite length_updateFirst.
    + split; [done|]. split; [done|]. by intros ? ? [=].
Qed.

Lemma filter_fmap_preserving {A} `{EqDecision K} (key : A → K) (g : A → A) k
    (l : list A) :
  (∀ x, key (g x) = key x) →
  filter (λ x, key x = k) (g <$> l) = g <$> filter (λ x, key x = k) l.
Proof.
  intros Hg. induction l as [|x l IH]; [done|].
  rewrite fmap_cons. destruct (decide (key x = k)) as [Hx|Hx].
  - rewrite !filter_cons_True by (by rewrite ?Hg). by rewrite fmap_cons, IH.
  - rewrite !filter_cons_False by (by rewrite ?Hg). done.
Qed.

Lemma Redis_workerStatus_run workerId status load now w :
  Redis.workerStatus workerId status load now w
  = (Returned tt,
     match Redis_find w workerId with
     | Some worker =>
         let st := Redis.store w in
         Redis.mkWorld
           (Redis.mkStore (Redis.counters st)
              (<[workerId := refreshed status load now worker]> (Redis.workerKeys st))
              (Redis.deploymentKeys st) (Redis.replicaKeys st) (Redis.workersSet st)
              (Redis.deploymentsSet st) (Redis.replicaSets st))
           (Redis.sent w) (Redis.socketWorkerId w)
     | None => w
     end).
Proof.
  unfold Redis.workerStatus, Redis_find, tryCatch, mbind, M_bind, Redis.getWorker,
    Redis.readStore. simpl.
  by destruct (Redis.workerKeys (Redis.store w) !! workerId).
Qed.

Lemma Mongo_workerStatus_run workerId status load now w :
  Mongo.workerStatus workerId status load now w
  = (Returned tt,
     match Mongo_find w workerId with
     | Some worker =>
         Mongo.mkWorld
           (Mongo.mkDb
              ((λ x, if decide (Worker.id x = Worker.id worker)
                     then refreshed status load now worker else x)
                 <$> Mongo.workers (Mongo.db w))
              (Mongo.deployments (Mongo.db w)) (Mongo.replicas (Mongo.db w))
              (Mongo.nextObjectId (Mongo.db w)))
           (Mongo.sent w) (Mongo.socketWorkerId w)
     | None => w
     end).
Proof.
  unfold Mongo.workerStatus, Mongo_find, tryCatch, mbind, M_bind, Mongo.findWorkerById,
    Mongo.readDb. simpl.
  by destruct (head _).
Qed.

(** X11. A workerStatus event registers and removes nothing: the set of
    worker records and the id, hostname and socket of each stay as they
    were, and so do deployments, replicas and the messages sent; a report
    that names an unknown worker changes nothing at all, so a worker that was
    swept is not brought back by its later reports.  In the Redis variant the
    named record, when it exists, takes the reported status and load and the
    current time, and no other record changes; in the MongoDB variant the
    list of worker ids stays the same. *)
Theorem workerStatus_refreshes (workerId : nat) (status : string) (load : Load.t)
    (now : Time) :
  (∀ w, let w' := exec (Redis.workerStatus workerId status load now) w in
     outcome (Redis.workerStatus workerId status load now) w = Returned tt
     ∧ Redis_find w' workerId = refreshed status load now <$> Redis_find w workerId
     ∧ (∀ other, other ≠ workerId → Redis_find w' other = Redis_find w other)
     ∧ (∀ other, identity <$> Redis_find w' other = identity <$> Redis_find w other)
     ∧ Redis.workersSet (Redis.store w') = Redis.workersSet (Redis.store w)
     ∧ Redis.deploymentKeys (Redis.store w') = Redis.deploymentKeys (Redis.store w)
     ∧ Redis.replicaKeys (Redis.store w') = Redis.replicaKeys (Redis.store w)
     ∧ Redis.sent w' = Redis.sent w
     ∧ (is_Some (Redis_find w workerId) ∨ w' = w))
  ∧ (∀ w, let w' := exec (Mongo.workerStatus workerId status load now) w in
     outcome (Mongo.workerStatus workerId status load now) w = Returned tt
     ∧ Worker.id <$> Mongo.workers (Mongo.db w') = Worker.id <$> Mongo.workers (Mongo.db w)
     ∧ (∀ other, identity <$> Mongo_find w' other = identity <$> Mongo_find w other)
     ∧ Mongo.deployments (Mongo.db w') = Mongo.deployments (Mongo.db w)
     ∧ Mongo.replicas (Mongo.db w') = Mongo.replicas (Mongo.db w)
     ∧ Mongo.sent w' = Mongo.sent w
     ∧ (is_Some (Mongo_find w workerId) ∨ w' = w)).
Proof.
  split; intros w; cbv zeta; unfold exec, outcome.
  - rewrite Redis_workerStatus_run. cbn [fst snd].
    destruct (Redis_find w workerId) as [worker|] eqn:Hfind.
    + unfold Redis_find in *. simpl.
      split; [done|]. split; [by rewrite lookup_insert_eq|].
      split; [by intros other Hother; rewrite lookup_insert_ne|].
      split; [|by eauto 10].
      intros other. destruct (decide (other = workerId)) as [->|Hother].
      * by rewrite lookup_insert_eq, Hfind.
      * by rewrite lookup_insert_ne.
    + rewrite Hfind. by eauto 10.
  - rewrite Mongo_workerStatus_run. cbn [fst snd].
    destruct (Mongo_find w workerId) as [worker|] eqn:Hfind; [|by eauto 10].
    simpl. split; [done|].
    set (g := λ x : Worker.t, if decide (Worker.id x = Worker.id worker)
                              then refreshed status load now worker else x).
    assert (∀ x, Worker.id (g x) = Worker.id x) as Hg.
    { intros x. unfold g. by case_decide. }
    split; [|split; [|by eauto 10]].
    + rewrite <- list_fmap_compose. apply list_fmap_ext. intros _ x _. apply Hg.
    + intros other. unfold Mongo_find in *. simpl.
      rewrite (filter_fmap_preserving Worker.id g) by done.
      destruct (filter (λ x, Worker.id x = other) (Mongo.workers (Mongo.db w)))
        as [|x rest] eqn:Hx; [done|].
      simpl. f_equal. unfold g. case_decide as Hid; [|done].
      assert (x ∈ filter (λ x, Worker.id x = other) (Mongo.workers (Mongo.db w)))
        as Hother by (rewrite Hx; left).
      apply list_elem_of_filter in Hother as [Hother _].
      pose proof Hfind as Hworker.
      apply head_Some_elem_of, list_elem_of_filter in Hworker as [Hworker _].
      assert (other = workerId) as -> by congruence.
      rewrite Hx in Hfind. by injection Hfind as ->.
Qed.

Lemma reportAssignment_placement u ws ws' :
  reportAssignment u ws = Some ws' → placement <$> ws' = placement <$> ws.
Proof.
  unfold reportAssignment.
  destruct (list_find _ ws) as [[i a]|] eqn:Hfind; [|done].
  intros [= <-]. apply list_find_Some in Hfind as (Hi & _ & _).
  rewrite list_fmap_insert. apply list_insert_id.
  by rewrite list_lookup_fmap, Hi.
Qed.

Lemma Redis_deploymentStatus_run u w :
  let st := Redis.store w in
  Redis.deploymentStatus u w
  = (Returned tt,
     match Redis.deploymentKeys st !! StatusUpdate.deploymentId u with
     | None => w
     | Some d =>
         Redis.mkWorld
           (Redis.mkStore (Redis.counters st) (Redis.workerKeys st)
              (match reportAssignment u (Deployment.workers d) with
               | Some workers' =>
                   <[StatusUpdate.deploymentId u := Deployment.withWorkers workers' d]>
                     (Redis.deploymentKeys st)
               | None => Redis.deploymentKeys st
               end)
              (match Redis.replicaKeys st !! StatusUpdate.replicaId u with
               | Some replica =>
                   <[StatusUpdate.replicaId u :=
                       Replica.withReport (StatusUpdate.status u) (StatusUpdate.metrics u)
                                          replica]> (Redis.replicaKeys st)
               | None => Redis.replicaKeys st
               end)
              (Redis.workersSet st) (Redis.deploymentsSet st) (Redis.replicaSets st))
           (Redis.sent w) (Redis.socketWorkerId w)
     end).
Proof.
  cbv zeta. unfold Redis.deploymentStatus, tryCatch, mbind, M_bind, Redis.getDeployment,
    Redis.getReplica, Redis.readStore. simpl.
  destruct (Redis.deploymentKeys (Redis.store w) !! _) as [d|]; [|done].
  destruct (reportAssignment u (Deployment.workers d)) as [workers'|]; simpl;
    destruct (Redis.replicaKeys (Redis.store w) !! _) as [replica|]; simpl;
    by destruct w as [[] ? ?].
Qed.

(** X15. A deploymentStatus event sends nothing and leaves the workers, the
    sets and the counters alone; an event that names an unknown deployment
    changes nothing at all.  For a known deployment of the Redis variant the
    record may differ from the old one only in the statuses of its
    assignments; no other deployment changes; and the Replica that receives
    the status and the metrics is the one stored under the key
    replica:{replicaId}, replicaId being the replica number of the event,
    whatever deployment that entity belongs to.  The MongoDB variant keeps
    the number of replicas and the worker collection. *)
Theorem deploymentStatus_effect (u : StatusUpdate.t) :
  (∀ w, let st := Redis.store w in
        let w' := exec (Redis.deploymentStatus u) w in
        let st' := Redis.store w' in
        let found := Redis.deploymentKeys st !! StatusUpdate.deploymentId u in
     outcome (Redis.deploymentStatus u) w = Returned tt
     ∧ (is_Some found ∨ w' = w)
     ∧ (∀ d, found = Some d →
          (∃ d', Redis.deploymentKeys st' !! StatusUpdate.deploymentId u = Some d'
                 ∧ sameButStatuses d d')
          ∧ Redis.replicaKeys st' !! StatusUpdate.replicaId u
            = Replica.withReport (StatusUpdate.status u) (StatusUpdate.metrics u)
                <$> Redis.replicaKeys st !! StatusUpdate.replicaId u)
     ∧ (∀ k, k ≠ StatusUpdate.deploymentId u →
          Redis.deploymentKeys st' !! k = Redis.deploymentKeys st !! k)
     ∧ (∀ k, k ≠ StatusUpdate.replicaId u →
          Redis.replicaKeys st' !! k = Redis.replicaKeys st !! k)
     ∧ Redis.sent w' = Redis.sent w
     ∧ Redis.workerKeys st' = Redis.workerKeys st
     ∧ Redis.workersSet st' = Redis.workersSet st
     ∧ Redis.deploymentsSet st' = Redis.deploymentsSet st
     ∧ Redis.replicaSets st' = Redis.replicaSets st
     ∧ Redis.counters st' = Redis.counters st)
  ∧ (∀ w, let w' := exec (Mongo.deploymentStatus u) w in
     outcome (Mongo.deploymentStatus u) w = Returned tt
     ∧ (is_Some (head (filter (λ x, Deployment.id x = StatusUpdate.deploymentId u)
                              (Mongo.deployments (Mongo.db w))))
        ∨ w' = w)
     ∧ length (Mongo.replicas (Mongo.db w')) = length (Mongo.replicas (Mongo.db w))
     ∧ length (Mongo.deployments (Mongo.db w')) = length (Mongo.deployments (Mongo.db w))
     ∧ Mongo.workers (Mongo.db w') = Mongo.workers (Mongo.db w)
     ∧ Mongo.nextObjectId (Mongo.db w') = Mongo.nextObjectId (Mongo.db w)
     ∧ Mongo.sent w' = Mongo.sent w).
Proof.
  split; intros w; cbv zeta; unfold exec, outcome.
  - rewrite Redis_deploymentStatus_run. cbn [fst snd].
    destruct (Redis.deploymentKeys (Redis.store w) !! StatusUpdate.deploymentId u)
      as [d|] eqn:Hfound.
    + simpl. split; [done|]. split; [by left|]. split; [|split; [|split; [|done]]].
      * intros ? [= <-]. split.
        -- destruct (reportAssignment u (Deployment.workers d)) as [workers'|] eqn:Hrep.
           ++ rewrite lookup_insert_eq. eexists. split; [done|].
              split; [done|]. simpl. by apply (reportAssignment_placement u).
           ++ exists d. by rewrite Hfound.
        -- destruct (Redis.replicaKeys (Redis.store w) !! StatusUpdate.replicaId u)
             as [replica|] eqn:Hreplica; simpl.
           ++ by rewrite lookup_insert_eq.
           ++ by rewrite Hreplica.
      * intros k Hk. destruct (reportAssignment u (Deployment.workers d)); [|done].
        by rewrite lookup_insert_ne.
      * intros k Hk.
        destruct (Redis.replicaKeys (Redis.store w) !! StatusUpdate.replicaId u); [|done].
        by rewrite lookup_insert_ne.
    + split; [done|]. split; [by right|]. split; [by intros ? [=]|]. done.
  - unfold Mongo.deploymentStatus, tryCatch, mbind, M_bind, Mongo.findDeploymentById,
      Mongo.readDb. cbn [fst snd].
    destruct (head (filter _ (Mongo.deployments (Mongo.db w)))) as [d|] eqn:Hfound;
      [|by eauto 10].
    destruct (reportAssignment u (Deployment.workers d)) as [workers'|].
    + unfold Mongo.saveDeployment, Mongo.findOneAndUpdateReplica, mbind, M_bind,
        Mongo.readDb, Mongo.setDeployments, Mongo.setReplicas, Mongo.onDb, modifyWorld.
      cbn [fst snd Mongo.db Mongo.deployments].
      assert (Exists (λ x, Deployment.id x
                           = Deployment.id (Deployment.withWorkers workers' d))
                (Mongo.deployments (Mongo.db w))) as Hex.
      { apply head_Some_elem_of, list_elem_of_filter in Hfound as [Hid Hin].
        apply Exists_exists. exists d. done. }
      rewrite decide_True by done. simpl.
      rewrite length_updateFirst, length_fmap. by eauto 10.
    + unfold Mongo.findOneAndUpdateReplica, mbind, M_bind, mret, M_ret,
        Mongo.readDb, Mongo.setReplicas, Mongo.onDb, modifyWorld. simpl.
      rewrite length_updateFirst. by eauto 10.
Qed.

End HandlerFacts.

(** ** The inactivity sweep *)

Module SweepFacts.
Import MonadFacts.

Lemma Redis_sweep_one cutoff workerId w :
  (workerData ← Redis.getWorker workerId;
   match workerData with
   | Some worker =>
       if isInactive cutoff worker
       then Redis.sremWorkers workerId ;; Redis.delWorker workerId
       else mret tt
   | None => mret tt
   end) w
  = (Returned tt,
     if expiredIn cutoff (Redis.store w) workerId
     then
       let st := Redis.store w in
       Redis.mkWorld
         (Redis.mkStore (Redis.counters st) (delete workerId (Redis.workerKeys st))
            (Redis.deploymentKeys st) (Redis.replicaKeys st)
            (Redis.workersSet st ∖ {[workerId]})
            (Redis.deploymentsSet st) (Redis.replicaSets st))
         (Redis.sent w) (Redis.socketWorkerId w)
     else w).
Proof.
  unfold expiredIn, mbind, M_bind, Redis.getWorker, Redis.readStore. simpl.
  destruct (Redis.workerKeys (Redis.store w) !! workerId) as [worker|]; [|done].
  by destruct (isInactive cutoff worker).
Qed.

Lemma Redis_sweep_loop cutoff ids w :
  ∃ w',
    forEach ids (λ workerId,
      workerData ← Redis.getWorker workerId;
      match workerData with
      | Some worker =>
          if isInactive cutoff worker
          then Redis.sremWorkers workerId ;; Redis.delWorker workerId
          else mret tt
      | None => mret tt
      end) w = (Returned tt, w')
    ∧ Redis.sent w' = Redis.sent w
    ∧ Redis.socketWorkerId w' = Redis.socketWorkerId w
    ∧ Redis.counters (Redis.store w') = Redis.counters (Redis.store w)
    ∧ Redis.deploymentKeys (Redis.store w') = Redis.deploymentKeys (Redis.store w)
    ∧ Redis.replicaKeys (Redis.store w') = Redis.replicaKeys (Redis.store w)
    ∧ Redis.deploymentsSet (Redis.store w') = Redis.deploymentsSet (Redis.store w)
    ∧ Redis.replicaSets (Redis.store w') = Redis.replicaSets (Redis.store w)
    ∧ ∀ workerId,
        Redis.workerKeys (Redis.store w') !! workerId
        = (if bool_decide (workerId ∈ ids) && expiredIn cutoff (Redis.store w) workerId
           then None else Redis.workerKeys (Redis.store w) !! workerId)
        ∧ (workerId ∈ Redis.workersSet (Redis.store w')
           ↔ workerId ∈ Redis.workersSet (Redis.store w)
             ∧ bool_decide (workerId ∈ ids) && expiredIn cutoff (Redis.store w) workerId
               = false).
Proof.
  revert w. induction ids as [|h rest IH]; intros w.
  - exists w. split; [done|]. do 7 (split; [done|]).
    intros workerId. rewrite bool_decide_eq_false_2 by apply not_elem_of_nil.
    simpl. tauto.
  - cbn [forEach]. erewrite bind_returned by apply Redis_sweep_one.
    set (w1 := if expiredIn cutoff (Redis.store w) h then _ else w).
    destruct (IH w1) as (w' & -> & Hsent & Hsock & Hc & Hd & Hr & Hds & Hrs & Hworkers).
    exists w'. split; [done|].
    assert (Redis.sent w1 = Redis.sent w ∧ Redis.socketWorkerId w1 = Redis.socketWorkerId w
            ∧ Redis.counters (Redis.store w1) = Redis.counters (Redis.store w)
            ∧ Redis.deploymentKeys (Redis.store w1) = Redis.deploymentKeys (Redis.store w)
            ∧ Redis.replicaKeys (Redis.store w1) = Redis.replicaKeys (Redis.store w)
            ∧ Redis.deploymentsSet (Redis.store w1) = Redis.deploymentsSet (Redis.store w)
            ∧ Redis.replicaSets (Redis.store w1) = Redis.replicaSets (Redis.store w))
      as (H1 & H2 & H3 & H4 & H5 & H6 & H7).
    { subst w1. by destruct (expiredIn _ _ h). }
    rewrite Hsent, Hsock, Hc, Hd, Hr, Hds, Hrs. do 7 (split; [done|]).
    intros workerId. destruct (Hworkers workerId) as [Hkeys Hset]. clear Hworkers.
    rewrite Hkeys, Hset. clear Hkeys Hset.
    destruct (decide (workerId = h)) as [->|Hne].
    + rewrite (bool_decide_eq_true_2 (h ∈ h :: rest)) by left. cbn [andb].
      subst w1. destruct (expiredIn cutoff (Redis.store w) h) eqn:Hexp.
      * match goal with |- context [expiredIn cutoff ?st1 h] =>
          assert (expiredIn cutoff st1 h = false) as ->
            by (unfold expiredIn; simpl; by rewrite lookup_delete_eq) end.
        rewrite andb_false_r. simpl. rewrite lookup_delete_eq. split; [done|].
        rewrite elem_of_difference, elem_of_singleton. split; [by intros [[_ ?] _]|by intros [_ ?]].
      * rewrite Hexp, andb_false_r. tauto.
    + assert (bool_decide (workerId ∈ h :: rest) = bool_decide (workerId ∈ rest)) as ->.
      { apply bool_decide_ext. rewrite elem_of_cons. tauto. }
      assert (Redis.workerKeys (Redis.store w1) !! workerId
              = Redis.workerKeys (Redis.store w) !! workerId) as Hsame.
      { subst w1. destruct (expiredIn _ _ h); simpl; [|done].
        by rewrite lookup_delete_ne. }
      assert (workerId ∈ Redis.workersSet (Redis.store w1)
              ↔ workerId ∈ Redis.workersSet (Redis.store w)) as Hin.
      { subst w1. destruct (expiredIn _ _ h); simpl; [|done].
        rewrite elem_of_difference, elem_of_singleton. tauto. }
      unfold expiredIn. rewrite Hsame, Hin. tauto.
Qed.

(** X12. One sweep of the Redis variant returns normally and removes, from
    the set and from the key space together, exactly the registered workers
    whose record has a heartbeat older than two minutes or the status
    inactive; every other worker record stays as it was, and no deployment,
    replica, counter or message is touched (assignments that name a removed
    worker stay in their deployment).  No registered record left is
    inactive. *)
Theorem Redis_cleanupInactiveWorkers_sweeps (now : Time) (w : Redis.World) :
  let cutoff := cutoffTime now in
  let st := Redis.store w in
  let w' := exec (Redis.cleanupInactiveWorkers now) w in
  let st' := Redis.store w' in
  outcome (Redis.cleanupInactiveWorkers now) w = Returned tt
  ∧ (∀ workerId,
       Redis.workerKeys st' !! workerId
       = (if bool_decide (workerId ∈ Redis.workersSet st) && expiredIn cutoff st workerId
          then None else Redis.workerKeys st !! workerId)
       ∧ (workerId ∈ Redis.workersSet st'
          ↔ workerId ∈ Redis.workersSet st ∧ expiredIn cutoff st workerId = false))
  ∧ Forall (λ worker, isInactive cutoff worker = false) (Redis_registered st')
  ∧ Redis.deploymentKeys st' = Redis.deploymentKeys st
  ∧ Redis.deploymentsSet st' = Redis.deploymentsSet st
  ∧ Redis.replicaKeys st' = Redis.replicaKeys st
  ∧ Redis.replicaSets st' = Redis.replicaSets st
  ∧ Redis.counters st' = Redis.counters st
  ∧ Redis.sent w' = Redis.sent w.
Proof.
  cbv zeta. unfold exec, outcome, Redis.cleanupInactiveWorkers.
  destruct (Redis_sweep_loop (cutoffTime now)
              (Redis.smembers (Redis.workersSet (Redis.store w))) w)
    as (w' & Hrun & Hsent & _ & Hc & Hd & Hr & Hds & Hrs & Hworkers).
  unfold tryCatch. erewrite bind_returned by reflexivity. cbv zeta.
  unfold id. rewrite Hrun. cbn [fst snd].
  assert (∀ workerId,
    Redis.workerKeys (Redis.store w') !! workerId
    = (if bool_decide (workerId ∈ Redis.workersSet (Redis.store w))
          && expiredIn (cutoffTime now) (Redis.store w) workerId
       then None else Redis.workerKeys (Redis.store w) !! workerId)
    ∧ (workerId ∈ Redis.workersSet (Redis.store w')
       ↔ workerId ∈ Redis.workersSet (Redis.store w)
         ∧ expiredIn (cutoffTime now) (Redis.store w) workerId = false)) as Hpoint.
  { intros workerId. destruct (Hworkers workerId) as [Hkeys Hset].
    assert (bool_decide (workerId ∈ Redis.smembers (Redis.workersSet (Redis.store w)))
            = bool_decide (workerId ∈ Redis.workersSet (Redis.store w))) as Hdec.
    { apply bool_decide_ext. apply TickFacts.elem_of_smembers. }
    rewrite Hdec in Hkeys, Hset. split; [done|]. rewrite Hset.
    destruct (decide (workerId ∈ Redis.workersSet (Redis.store w))) as [Hin|Hin].
    - rewrite bool_decide_eq_true_2 by done. simpl. tauto.
    - tauto. }
  split; [done|]. split; [exact Hpoint|]. split; [|done].
  apply Forall_forall. intros worker Hworker.
  unfold Redis_registered in Hworker.
  apply list_elem_of_omap in Hworker as (workerId & Hin & Hlookup).
  apply TickFacts.elem_of_smembers in Hin.
  destruct (Hpoint workerId) as [Hkeys Hset].
  apply Hset in Hin as [Hin Hexp].
  rewrite Hkeys, Hexp, andb_false_r in Hlookup.
  unfold expiredIn in Hexp. by rewrite Hlookup in Hexp.
Qed.

Lemma same_key_same_element {A K} (key : A → K) (l : list A) x y :
  NoDup (key <$> l) → x ∈ l → y ∈ l → key x = key y → x = y.
Proof.
  induction l as [|z l IH]; [by intros _ ?%elem_of_nil|].
  rewrite fmap_cons. intros [Hz Hl]%NoDup_cons Hx Hy Hkey.
  apply elem_of_cons in Hx as [->|Hx]; apply elem_of_cons in Hy as [->|Hy].
  - done.
  - destruct Hz. rewrite Hkey. by apply list_elem_of_fmap_2.
  - destruct Hz. rewrite <- Hkey. by apply list_elem_of_fmap_2.
  - by apply IH.
Qed.

Lemma filter_agree {A} (P Q : A → Prop) `{∀ x, Decision (P x)} `{∀ x, Decision (Q x)}
    (l : list A) :
  (∀ x, x ∈ l → P x ↔ Q x) → filter P l = filter Q l.
Proof.
  induction l as [|x l IH]; intros Hagree; [done|].
  assert (filter P l = filter Q l) as Hrest.
  { apply IH. intros y Hy. apply Hagree. by right. }
  destruct (decide (P x)) as [Hx|Hx].
  - rewrite !filter_cons_True; [by rewrite Hrest|by apply Hagree; [left|]|done].
  - rewrite !filter_cons_False; [done| |done].
    intros HQ. apply Hx. apply Hagree; [left|done].
Qed.

Lemma filter_all {A} (P : A → Prop) `{∀ x, Decision (P x)} (l : list A) :
  (∀ x, x ∈ l → P x) → filter P l = l.
Proof.
  induction l as [|x l IH]; intros Hall; [done|].
  rewrite filter_cons_True by (apply Hall; left).
  f_equal. apply IH. intros y Hy. apply Hall. by right.
Qed.

(** X13. One sweep of the MongoDB variant, on a collection whose ids are
    distinct, returns normally and keeps exactly the workers, in their
    order, whose heartbeat is at most two minutes old and whose status is
    not inactive; deployments, replicas and messages are not touched. *)
Theorem Mongo_cleanupInactiveWorkers_sweeps (now : Time) (w : Mongo.World) :
  NoDup (Worker.id <$> Mongo.workers (Mongo.db w)) →
  let w' := exec (Mongo.cleanupInactiveWorkers now) w in
  outcome (Mongo.cleanupInactiveWorkers now) w = Returned tt
  ∧ Mongo.workers (Mongo.db w')
    = filter (λ worker, isInactive (cutoffTime now) worker = false)
             (Mongo.workers (Mongo.db w))
  ∧ Mongo.deployments (Mongo.db w') = Mongo.deployments (Mongo.db w)
  ∧ Mongo.replicas (Mongo.db w') = Mongo.replicas (Mongo.db w)
  ∧ Mongo.nextObjectId (Mongo.db w') = Mongo.nextObjectId (Mongo.db w)
  ∧ Mongo.sent w' = Mongo.sent w.
Proof.
  intros Hnodup. cbv zeta.
  unfold exec, outcome, Mongo.cleanupInactiveWorkers, tryCatch, mbind, M_bind,
    Mongo.readDb, Mongo.setWorkers, Mongo.onDb, modifyWorld. cbn [fst snd].
  set (ws := Mongo.workers (Mongo.db w)) in *.
  set (inactive := filter (λ x, isInactive (cutoffTime now) x = true) ws).
  assert (filter (λ x, Worker.id x ∉ Worker.id <$> inactive) ws
          = filter (λ x, isInactive (cutoffTime now) x = false) ws) as Hfilter.
  { apply filter_agree. intros x Hx. split.
    - intros Hnot. destruct (isInactive (cutoffTime now) x) eqn:Hin; [|done].
      destruct Hnot. apply list_elem_of_fmap_2. by apply list_elem_of_filter.
    - intros Hfresh (y & Hid & Hy)%list_elem_of_fmap.
      apply list_elem_of_filter in Hy as [Hy Hyin].
      assert (x = y) as -> by (by apply (same_key_same_element Worker.id ws)).
      congruence. }
  destruct (0 <? length inactive) eqn:Hlen; cbn [fst snd Mongo.db Mongo.workers
    Mongo.deployments Mongo.replicas Mongo.nextObjectId Mongo.sent].
  - fold ws. by rewrite Hfilter.
  - unfold mret, M_ret. cbn [fst snd]. split; [done|]. split; [|done].
    apply Nat.ltb_ge in Hlen. assert (inactive = []) as Hnil.
    { destruct inactive; [done|simpl in Hlen; lia]. }
    rewrite <- Hfilter, Hnil. fold ws. symmetry. apply filter_all.
    intros x _. apply not_elem_of_nil.
Qed.

Lemma Mongo_cleanupInactiveWorkers_sweeps_witness :
  NoDup (Worker.id <$> Mongo.workers (Mongo.db Scenario.Mo.registered))
  ∧ Mongo.workers
      (Mongo.db (exec (Mongo.cleanupInactiveWorkers 200000) Scenario.Mo.registered))
    = filter (λ worker, isInactive (cutoffTime 200000) worker = false)
             (Mongo.workers (Mongo.db Scenario.Mo.registered)).
Proof.
  assert (NoDup (Worker.id <$> Mongo.workers (Mongo.db Scenario.Mo.registered)))
    as Hnodup.
  { apply (bool_decide_unpack _). vm_compute. reflexivity. }
  split; [exact Hnodup|].
  exact (proj1 (proj2 (Mongo_cleanupInactiveWorkers_sweeps 200000
                         Scenario.Mo.registered Hnodup))).
Defined.

End SweepFacts.

(** ** The candidate list of a new deployment *)

Module CandidateFacts.
Import DeployFacts.

(** X14. The MongoDB variant cuts the list of candidate workers to
    maxReplicas before it compares the count with minReplicas: a request
    for a valid repository with a non-zero maxReplicas smaller (in absolute
    value) than minReplicas fails with InsufficientWorkers however many
    workers could host it, and the world is left unchanged. *)
Theorem Mongo_deployRepository_cut_to_max (env : Env) (request : DeploymentRequest.t)
    (now : Time) (w : Mongo.World) :
  let minReplicas := default 1%Z (DeploymentRequest.minReplicas request) in
  let maxReplicas := default 3%Z (DeploymentRequest.maxReplicas request) in
  is_Some (github env (Repo.normalizedUrl (DeploymentRequest.githubRepo request))) →
  maxReplicas ≠ 0%Z →
  (Z.abs maxReplicas < minReplicas)%Z →
  Mongo.deployRepository env request now w
  = (Thrown (InsufficientWorkers minReplicas
               (Z.abs_nat maxReplicas `min` length (hosts (Mongo.workers (Mongo.db w))))),
     w).
Proof.
  intros minReplicas maxReplicas [repoInfo Hvalid] Hmax Hless.
  unfold Mongo.deployRepository, Mongo.validateGithubRepo, Mongo.readDb,
    mbind, M_bind, mret, M_ret, throw; simpl.
  rewrite Hvalid. fold minReplicas maxReplicas.
  assert (length (Mongo.limit maxReplicas (Mongo.availableByLoad (Mongo.db w)))
          = Z.abs_nat maxReplicas `min` length (hosts (Mongo.workers (Mongo.db w))))
    as Hlen.
  { unfold Mongo.limit. rewrite (proj2 (Z.eqb_neq _ _) Hmax).
    by rewrite length_take, length_availableByLoad. }
  rewrite Hlen.
  assert ((Z.of_nat (Z.abs_nat maxReplicas
                     `min` length (hosts (Mongo.workers (Mongo.db w))))
           <? minReplicas)%Z = true) as ->; [|done].
  apply Z.ltb_lt. lia.
Qed.

Lemma Mongo_deployRepository_cut_to_max_witness :
  let request := DeploymentRequest.make "acme/app" "kazilsky" (Some 3%Z) (Some 2%Z) in
  is_Some (github Scenario.env (Repo.normalizedUrl (DeploymentRequest.githubRepo request)))
  ∧ Mongo.deployRepository Scenario.env request 2000 Scenario.Mo.registered
    = (Thrown (InsufficientWorkers 3
                 (2 `min` length (hosts (Mongo.workers (Mongo.db Scenario.Mo.registered))))),
       Scenario.Mo.registered).
Proof.
  cbv zeta.
  assert (is_Some (github Scenario.env
            (Repo.normalizedUrl
               (DeploymentRequest.githubRepo
                  (DeploymentRequest.make "acme/app" "kazilsky" (Some 3%Z) (Some 2%Z))))))
    as Hvalid.
  { vm_compute. eexists. reflexivity. }
  split; [exact Hvalid|].
  apply (Mongo_deployRepository_cut_to_max Scenario.env
           (DeploymentRequest.make "acme/app" "kazilsky" (Some 3%Z) (Some 2%Z))
           2000 Scenario.Mo.registered Hvalid); simpl; lia.
Defined.

End CandidateFacts.

(** ** Rounds that do nothing, and the cooldowns *)

Module RoundFacts.
Import MonadFacts ScalingFacts.



Lemma stamped_blocks_up d stamp :
  Deployment.lastScaleUp d = Some stamp → blocksScaleUp d stamp.
Proof.
  intros Hstamp replicas later Hearly. unfold scalingDecision.
  rewrite Hstamp. unfold cooledDown.
  rewrite (proj2 (Z.ltb_ge _ _) Hearly), andb_false_r.
  by destruct (_ && _ && _).
Qed.

Lemma stamped_blocks_down d stamp :
  Deployment.lastScaleDown d = Some stamp → blocksScaleDown d stamp.
Proof.
  intros Hstamp replicas later Hearly. unfold scalingDecision.
  rewrite Hstamp. unfold cooledDown at 2.
  rewrite (proj2 (Z.ltb_ge _ _) Hearly), andb_false_r.
  by destruct (_ && _ && _).
Qed.

Lemma Redis_scaleUp_cases d now w :
  Redis.scaleUp d now w = (Returned tt, w)
  ∨ ∃ worker,
      Redis.firstAvailable (Redis.store w) (Redis.smembers (Redis.workersSet (Redis.store w)))
      = Returned (Some worker).
Proof.
  unfold Redis.scaleUp, Redis.findAvailableWorker, Redis.readStore, tryCatch,
    mbind, M_bind, liftOutcome, throw; simpl.
  destruct (Redis.firstAvailable _ _) as [[found|]|e]; eauto.
Qed.

Lemma Mongo_scaleUp_cases d now w :
  Mongo.scaleUp d now w = (Returned tt, w)
  ∨ ∃ worker, head (Mongo.availableByLoad (Mongo.db w)) = Some worker.
Proof.
  unfold Mongo.scaleUp, Mongo.findAvailableWorker, Mongo.readDb, tryCatch,
    mbind, M_bind, throw; simpl.
  destruct (head _) as [found|]; eauto.
Qed.

(** X17. Every scaling action that takes effect starts its cooldown: after
    scaleUp at time now, either nothing changed or the stored deployment is
    one for which no scale-up is decided during the next 300 seconds,
    whatever the replicas report; after scaleDown, either nothing changed or
    no scale-down is decided during the next 600 seconds.  Both variants. *)
Theorem scaling_starts_cooldown (d : Deployment.t) (now : Time) :
  (∀ w, let w' := exec (Redis.scaleUp d now) w in
     w' = w ∨ ∃ d', Redis.deploymentKeys (Redis.store w') !! Deployment.id d = Some d'
                    ∧ blocksScaleUp d' now)
  ∧ (∀ w, let w' := exec (Redis.scaleDown d now) w in
     w' = w ∨ ∃ d', Redis.deploymentKeys (Redis.store w') !! Deployment.id d = Some d'
                    ∧ blocksScaleDown d' now)
  ∧ (∀ w, let w' := exec (Mongo.scaleUp d now) w in
     w' = w ∨ ∃ d', head (filter (λ x, Deployment.id x = Deployment.id d)
                            (Mongo.deployments (Mongo.db w'))) = Some d'
                    ∧ blocksScaleUp d' now)
  ∧ (∀ w, let w' := exec (Mongo.scaleDown d now) w in
     w' = w ∨ ∃ d', head (filter (λ x, Deployment.id x = Deployment.id d)
                            (Mongo.deployments (Mongo.db w'))) = Some d'
                    ∧ blocksScaleDown d' now).
Proof.
  split; [|split; [|split]]; intros w; cbv zeta.
  - destruct (Redis_scaleUp_cases d now w) as [Hsame|[worker Hfound]].
    + left. unfold exec. by rewrite Hsame.
    + right. destruct (ScaleUpFacts.Redis_scaleUp_run d now w worker Hfound)
        as (_ & _ & Hstored & _).
      eexists. split; [exact Hstored|]. by apply stamped_blocks_up.
  - unfold exec. rewrite HandlerFacts.Redis_scaleDown_run. cbn [snd].
    destruct (tailWorker (Redis_find w) d) as [[lastWorker worker]|]; [right|by left].
    simpl. rewrite lookup_insert_eq. eexists. split; [done|]. by apply stamped_blocks_down.
  - destruct (Mongo_scaleUp_cases d now w) as [Hsame|[worker Hfound]].
    + left. unfold exec. by rewrite Hsame.
    + right. destruct (ScaleUpFacts.Mongo_scaleUp_run d now w worker Hfound)
        as (_ & Hstored & _).
      eexists. split; [exact Hstored|]. by apply stamped_blocks_up.
  - unfold exec. rewrite HandlerFacts.Mongo_scaleDown_run. cbn [snd].
    destruct (tailWorker (Mongo_find w) d) as [[lastWorker worker]|]; [right|by left].
    cbn [Mongo.db Mongo.deployments].
    set (d' := Deployment.withWorkers _ _).
    exists d'. split; [exact (ScaleUpFacts.Mongo_saveDeployment_lookup d' w)|].
    by apply stamped_blocks_down.
Qed.

End RoundFacts.

(** ** The WebSocket dispatcher *)

Module DispatcherFacts.
Import Dispatcher.

Lemma leastFrom_lookup (before rest : list Worker) prev :
  (before ++ rest) !! prev.1 = Some prev.2 →
  prev.1 < length before →
  let chosen := leastFrom prev (length before) rest in
  (before ++ rest) !! chosen.1 = Some chosen.2.
Proof.
  revert before prev. induction rest as [|curr rest IH]; intros before prev Hprev Hlt; [done|].
  cbn [leastFrom]. cbv zeta.
  replace (S (length before)) with (length (before ++ [curr])) by (rewrite length_app; simpl; lia).
  replace (before ++ curr :: rest) with ((before ++ [curr]) ++ rest) in *
    by (by rewrite <- app_assoc).
  apply IH.
  - destruct (lessLoaded prev.2 curr); [done|]. simpl.
    rewrite lookup_app_l by (rewrite length_app; simpl; lia).
    by rewrite lookup_app_r, Nat.sub_diag.
  - rewrite length_app. simpl. destruct (lessLoaded prev.2 curr); simpl; lia.
Qed.

Lemma getLeastLoadedWorker_lookup workers index chosen :
  getLeastLoadedWorker workers = Some (index, chosen) → workers !! index = Some chosen.
Proof.
  destruct workers as [|first rest]; [done|]. simpl. intros [= Heq].
  pose proof (leastFrom_lookup [first] rest (0, first)) as Hlook.
  simpl in Hlook. rewrite Heq in Hlook. apply Hlook; [done|lia].
Qed.

Lemma getLeastLoadedWorker_none workers :
  getLeastLoadedWorker workers = None ↔ workers = [].
Proof. by destruct workers. Qed.

Lemma lessLoaded_known prev curr :
  is_Some (load prev) → is_Some (load curr) →
  if lessLoaded prev curr then loadLt prev curr else loadLe curr prev.
Proof.
  intros [a Ha] [b Hb]. unfold lessLoaded, loadLt, loadLe. rewrite Ha, Hb.
  destruct (a <? b)%Z eqn:Hlt; [by apply Z.ltb_lt|by apply Z.ltb_ge].
Qed.

Lemma loadLe_trans a b c : loadLe a b → loadLe b c → loadLe a c.
Proof.
  unfold loadLe. destruct (load a), (load b), (load c); try done. lia.
Qed.

Lemma loadLe_lt_trans a b c : loadLe a b → loadLt b c → loadLt a c.
Proof.
  unfold loadLe, loadLt. destruct (load a), (load b), (load c); try done. lia.
Qed.

Lemma loadLt_le a b : loadLt a b → loadLe a b.
Proof. unfold loadLe, loadLt. destruct (load a), (load b); try done. lia. Qed.

Lemma leastFrom_minimum (before rest : list Worker) prev :
  loadsKnown (before ++ rest) →
  is_Some (load prev.2) →
  prev.1 < length before →
  (∀ j other, j < length before → (before ++ rest) !! j = Some other →
     loadLe prev.2 other) →
  (∀ j other, prev.1 < j < length before → (before ++ rest) !! j = Some other →
     loadLt prev.2 other) →
  let chosen := leastFrom prev (length before) rest in
  (∀ j other, (before ++ rest) !! j = Some other → loadLe chosen.2 other)
  ∧ (∀ j other, chosen.1 < j → (before ++ rest) !! j = Some other →
       loadLt chosen.2 other).
Proof.
  revert before prev. induction rest as [|curr rest IH];
    intros before prev Hknown Hprev Hlt Hmin Hlast.
  - cbn [leastFrom]. cbv zeta. rewrite app_nil_r in *. split.
    + intros j other Hj. apply (Hmin j); [|done]. by apply lookup_lt_Some in Hj.
    + intros j other Hgt Hj. apply (Hlast j); [|done].
      apply lookup_lt_Some in Hj. lia.
  - cbn [leastFrom]. cbv zeta.
    assert (is_Some (load curr)) as Hcurr.
    { apply (proj1 (Forall_forall _ _) Hknown). apply elem_of_app. right. left. }
    assert ((before ++ curr :: rest) !! length before = Some curr) as Hat.
    { by rewrite lookup_app_r, Nat.sub_diag. }
    pose proof (lessLoaded_known prev.2 curr Hprev Hcurr) as Hcmp.
    replace (S (length before)) with (length (before ++ [curr]))
      by (rewrite length_app; simpl; lia).
    replace (before ++ curr :: rest) with ((before ++ [curr]) ++ rest) in *
      by (by rewrite <- app_assoc).
    apply IH; [done|..].
    + by destruct (lessLoaded prev.2 curr).
    + rewrite length_app. simpl. destruct (lessLoaded prev.2 curr); simpl; lia.
    + intros j other Hj Hother. rewrite length_app in Hj. simpl in Hj.
      destruct (decide (j = length before)) as [->|Hne].
      * assert (other = curr) as -> by congruence.
        destruct (lessLoaded prev.2 curr); simpl; [by apply loadLt_le|].
        unfold loadLe. destruct Hcurr as [c ->]. lia.
      * assert (loadLe prev.2 other) as Hle by (apply (Hmin j); [lia|done]).
        destruct (lessLoaded prev.2 curr); simpl; [done|].
        by apply loadLe_trans with prev.2.
    + intros j other Hj Hother. rewrite length_app in Hj. simpl in Hj.
      destruct (lessLoaded prev.2 curr) eqn:Hless; simpl in *.
      * destruct (decide (j = length before)) as [->|Hne].
        -- assert (other = curr) as -> by congruence. done.
        -- apply (Hlast j); [lia|done].
      * lia.
Qed.

(** X18. getLeastLoadedWorker returns null exactly when no child server is
    connected.  When every load is a number, the worker it returns is an
    element of the list with the least load, and every worker connected
    after it has a strictly greater load: among equally loaded workers the
    most recently connected one is chosen. *)
Theorem getLeastLoadedWorker_last_minimum (workers : list Worker) :
  loadsKnown workers →
  match getLeastLoadedWorker workers with
  | None => workers = []
  | Some (index, chosen) =>
      workers !! index = Some chosen
      ∧ (∀ other, other ∈ workers → loadLe chosen other)
      ∧ (∀ later other, index < later → workers !! later = Some other →
           loadLt chosen other)
  end.
Proof.
  intros Hknown.
  destruct (getLeastLoadedWorker workers) as [[index chosen]|] eqn:Hget;
    [|by apply getLeastLoadedWorker_none].
  split; [by apply getLeastLoadedWorker_lookup|].
  destruct workers as [|first rest]; [done|]. simpl in Hget. injection Hget as Hget.
  assert (is_Some (load first)) as Hfirst.
  { apply (proj1 (Forall_forall _ _) Hknown). left. }
  pose proof (leastFrom_minimum [first] rest (0, first) Hknown Hfirst) as Hmin.
  simpl in Hmin. rewrite Hget in Hmin. simpl in Hmin.
  destruct Hmin as [Hle Hlt]; [lia| | |].
  - intros j other Hj Hother. assert (j = 0) as -> by lia. simpl in Hother.
    injection Hother as <-. unfold loadLe. destruct Hfirst as [c ->]. lia.
  - intros j other Hj. lia.
  - split; [|exact Hlt].
    intros other Hin. apply list_elem_of_lookup in Hin as [j Hj]. by apply (Hle j).
Qed.

Lemma getLeastLoadedWorker_last_minimum_witness :
  let workers := [mkWorker 100 1 (Some 2%Z); mkWorker 200 2 (Some 1%Z);
                  mkWorker 300 3 (Some 1%Z)] in
  loadsKnown workers
  ∧ workers !! 2 = Some (mkWorker 300 3 (Some 1%Z))
  ∧ (∀ other, other ∈ workers → loadLe (mkWorker 300 3 (Some 1%Z)) other)
  ∧ (∀ later other, 2 < later → workers !! later = Some other →
       loadLt (mkWorker 300 3 (Some 1%Z)) other).
Proof.
  cbv zeta.
  assert (loadsKnown [mkWorker 100 1 (Some 2%Z); mkWorker 200 2 (Some 1%Z);
                      mkWorker 300 3 (Some 1%Z)]) as Hknown.
  { repeat constructor; by eexists. }
  split; [exact Hknown|].
  exact (getLeastLoadedWorker_last_minimum _ Hknown).
Defined.

Lemma connectedSockets_snoc events e :
  connectedSockets (events ++ [e])
  = connectedSockets events ++ match e with Connected ws _ => [ws] | _ => [] end.
Proof.
  unfold connectedSockets. rewrite omap_app. destruct e; simpl; by rewrite ?app_nil_r.
Qed.

Lemma Forall_kept {A} (P : A → Prop) (Q : A → Prop) `{∀ x, Decision (Q x)} (l : list A) :
  Forall P l → Forall P (filter Q l).
Proof.
  intros Hall. apply Forall_forall. intros x [_ Hx]%list_elem_of_filter.
  by apply (proj1 (Forall_forall _ _) Hall).
Qed.

Lemma NoDup_fmap_filter {A B} (f : A → B) (Q : A → Prop) `{∀ x, Decision (Q x)}
    (l : list A) :
  NoDup (f <$> l) → NoDup (f <$> filter Q l).
Proof.
  induction l as [|x l IH]; [done|].
  rewrite fmap_cons. intros [Hx Hl]%NoDup_cons.
  destruct (decide (Q x)).
  - rewrite filter_cons_True by done. rewrite fmap_cons. apply NoDup_cons.
    split; [|by apply IH].
    intros (y & Heq & [_ Hy]%list_elem_of_filter)%list_elem_of_fmap.
    apply Hx. rewrite Heq. by apply list_elem_of_fmap_2.
  - rewrite filter_cons_False by done. by apply IH.
Qed.

(** The facts carried along a run: nothing has been sent, every load is
    still the 0 it was given at connection, sockets are not shared, and the
    workers belong to sockets that have connected. *)
Lemma dispatcherRun_idle events :
  NoDup (connectedSockets events) →
  let s := dispatcherRun events in
  sent s = []
  ∧ Forall (λ w, load w = Some 0%Z) (workers s)
  ∧ NoDup (connection <$> workers s)
  ∧ Forall (λ w, connection w ∈ connectedSockets events) (workers s).
Proof.
  cbv zeta. induction events as [|e events IH] using rev_ind; intros Hnodup.
  { unfold dispatcherRun. simpl. repeat split; constructor. }
  rewrite connectedSockets_snoc in *.
  apply NoDup_app in Hnodup as (Hnodup & Hfresh & _).
  destruct (IH Hnodup) as (Hsent & Hloads & Hconn & Hseen). clear IH.
  unfold dispatcherRun in *. rewrite foldl_app. simpl.
  set (s := foldl dispatcherStep emptyState events) in *.
  destruct e as [ws now|ws|body]; simpl.
  - assert (ws ∉ connectedSockets events) as Hws.
    { intros Hin. apply (Hfresh ws Hin). left. }
    split; [done|]. split; [|split].
    + apply Forall_app. split; [done|]. by repeat constructor.
    + rewrite fmap_app. apply NoDup_app. split; [done|]. split; [|apply NoDup_singleton].
      intros c Hc Hc'. apply list_elem_of_singleton in Hc' as ->. simpl in Hc.
      apply list_elem_of_fmap in Hc as (w & Heq & Hw).
      apply Hws. rewrite Heq. by apply (proj1 (Forall_forall _ _) Hseen).
    + apply Forall_app. split.
      * eapply Forall_impl; [exact Hseen|]. intros w Hw. apply elem_of_app. by left.
      * constructor; [|constructor]. simpl. apply elem_of_app. right. left.
  - rewrite app_nil_r. split; [done|]. split; [by apply Forall_kept|].
    split; [by apply NoDup_fmap_filter|by apply Forall_kept].
  - rewrite app_nil_r. by unfold reqBody, postDeploy.
Qed.

(** X20. The dispatcher never dispatches.  The application installs no
    body-parsing middleware, so [req.body] is undefined when the handler of
    POST /deploy destructures it: every request is answered with status 500
    and changes nothing.  Along every run (connections, closes and deploy
    requests, each socket connecting once) no command has been sent to a
    child server, every listed worker still has the load 0 it was given when
    it connected, and no two listed workers share a socket. *)
Theorem dispatcher_never_dispatches (events : list DispatcherEvent) :
  NoDup (connectedSockets events) →
  let s := dispatcherRun events in
  sent s = []
  ∧ Forall (λ w, load w = Some 0%Z) (workers s)
  ∧ NoDup (connection <$> workers s)
  ∧ ∀ posted, postDeploy (reqBody posted) s = (destructuringFailed, s).
Proof.
  intros Hnodup.
  destruct (dispatcherRun_idle events Hnodup) as (Hsent & Hloads & Hconn & _).
  by repeat split.
Qed.

Lemma dispatcher_never_dispatches_witness :
  let events :=
    [Connected 1 100; Connected 2 200;
     DeployRequested (mkCommand (Some "shop") (Some "acme/shop") (Some 3%Z));
     Closed 1;
     DeployRequested (mkCommand (Some "wiki") (Some "acme/wiki") (Some 1%Z))] in
  NoDup (connectedSockets events)
  ∧ dispatcherRun events = mkState [mkWorker 200 2 (Some 0%Z)] []
  ∧ sent (dispatcherRun events) = [].
Proof.
  cbv zeta.
  set (events := [Connected 1 100; Connected 2 200;
     DeployRequested (mkCommand (Some "shop") (Some "acme/shop") (Some 3%Z));
     Closed 1;
     DeployRequested (mkCommand (Some "wiki") (Some "acme/wiki") (Some 1%Z))]).
  assert (NoDup (connectedSockets events)) as Hnodup.
  { apply (bool_decide_unpack _). vm_compute. reflexivity. }
  split; [exact Hnodup|]. split; [vm_compute; reflexivity|].
  exact (proj1 (dispatcher_never_dispatches events Hnodup)).
Defined.

End DispatcherFacts.

(** ** What every run of the orchestrator keeps true *)

Module InvariantFacts.
Import MonadFacts.

Section Preserving.
Context {W : Type} (P : W → Prop).

Lemma preserves_ret {A} (a : A) : preserves P (mret a : M W A).
Proof. by intros w. Qed.

Lemma preserves_throw {A} e : preserves P (throw e : M W A).
Proof. by intros w. Qed.

Lemma preserves_liftOutcome {A} (o : Outcome A) : preserves P (liftOutcome o : M W A).
Proof. by intros w. Qed.

Lemma preserves_bind {A B} (m : M W A) (f : A → M W B) :
  preserves P m → (∀ a, preserves P (f a)) → preserves P (m ≫= f).
Proof.
  intros Hm Hf w Hw. specialize (Hm w Hw). unfold exec, mbind, M_bind in *.
  destruct (m w) as [[a|e] w1]; simpl in *; [by apply Hf|done].
Qed.

Lemma preserves_tryCatch {A} (body : M W A) handler :
  preserves P body → (∀ e, preserves P (handler e)) → preserves P (tryCatch body handler).
Proof.
  intros Hm Hf w Hw. specialize (Hm w Hw). unfold exec, tryCatch in *.
  destruct (body w) as [[a|e] w1]; simpl in *; [done|by apply Hf].
Qed.

Lemma preserves_forEach {A} (xs : list A) (body : A → M W unit) :
  (∀ x, preserves P (body x)) → preserves P (forEach xs body).
Proof.
  intros Hbody. induction xs as [|x xs IH]; [apply preserves_ret|].
  cbn [forEach]. apply preserves_bind; [apply Hbody|]. intros _. exact IH.
Qed.

Lemma preserves_forEach_in {A} (xs : list A) (body : A → M W unit) :
  (∀ x, x ∈ xs → preserves P (body x)) → preserves P (forEach xs body).
Proof.
  induction xs as [|x xs IH]; intros Hbody; [apply preserves_ret|].
  cbn [forEach]. apply preserves_bind; [apply Hbody; left|]. intros _.
  apply IH. intros y Hy. apply Hbody. by right.
Qed.

End Preserving.

Lemma counter_other st type n other :
  other ≠ type →
  default 0 (<[type := n]> (Redis.counters st) !! other) = counter st other.
Proof. intros Hne. unfold counter. by rewrite lookup_insert_ne. Qed.

Lemma Redis_registerWorker_sound socket hostname now :
  preserves Redis_sound (Redis.registerWorker socket hostname now).
Proof.
  intros w [Hws Hwo Hds Hdo Hro].
  unfold Redis_sound, exec, Redis.registerWorker, tryCatch, Redis.getNextId, Redis.incr,
    mbind, M_bind, Redis.readStore, Redis.onStore, Redis.setWorker, Redis.saddWorkers,
    Redis.setSocketWorkerId, Redis.emit, modifyWorld, mret, M_ret. simpl.
  set (n := S (default 0 (Redis.counters (Redis.store w) !! "worker"))).
  constructor; simpl; unfold counter; simpl.
  - intros k. rewrite elem_of_union, elem_of_singleton, Hws.
    destruct (decide (k = n)) as [->|Hne].
    + rewrite lookup_insert_eq. split; [by eexists|by left].
    + rewrite lookup_insert_ne by done. split; [by intros [?|?]|by right].
  - intros k worker. rewrite lookup_insert_eq.
    destruct (decide (k = n)) as [->|Hne].
    + rewrite lookup_insert_eq. intros [= <-]. simpl. split; [done|]. subst n. simpl. lia.
    + rewrite lookup_insert_ne by done. intros Hk.
      destruct (Hwo k worker Hk) as [Hid Hle]. unfold counter in Hle.
      split; [done|]. subst n. simpl. lia.
  - done.
  - intros k d Hk. rewrite lookup_insert_ne by done. by apply Hdo.
  - intros k r Hk. rewrite lookup_insert_ne by done. by apply Hro.
Qed.

Lemma Redis_workerStatus_sound workerId status load now :
  preserves Redis_sound (Redis.workerStatus workerId status load now).
Proof.
  intros w Hw. unfold Redis_sound, exec.
  rewrite HandlerFacts.Redis_workerStatus_run. cbn [snd].
  destruct (Redis_find w workerId) as [worker|] eqn:Hfind; [|done].
  unfold Redis_find in Hfind. destruct Hw as [Hws Hwo Hds Hdo Hro].
  constructor; simpl; unfold counter; simpl; [| |done..].
  - intros k. rewrite Hws. destruct (decide (k = workerId)) as [->|Hne].
    + rewrite lookup_insert_eq, Hfind. split; by eexists.
    + by rewrite lookup_insert_ne.
  - intros k x. destruct (decide (k = workerId)) as [->|Hne].
    + rewrite lookup_insert_eq. intros [= <-]. simpl. by apply Hwo.
    + rewrite lookup_insert_ne by done. apply Hwo.
Qed.

Lemma Redis_disconnect_sound socket : preserves Redis_sound (Redis.disconnect socket).
Proof.
  intros w [Hws Hwo Hds Hdo Hro].
  unfold Redis_sound, exec, Redis.disconnect, mbind, M_bind, getWorld. simpl.
  destruct (Redis.socketWorkerId w !! socket) as [workerId|]; [|done].
  unfold tryCatch, mbind, M_bind, Redis.sremWorkers, Redis.delWorker, Redis.onStore,
    modifyWorld. simpl.
  constructor; simpl; unfold counter; simpl; [| |done..].
  - intros k. rewrite elem_of_difference, elem_of_singleton, Hws.
    destruct (decide (k = workerId)) as [->|Hne].
    + rewrite lookup_delete_eq. split; [by intros [_ ?]|by intros [? ?]].
    + rewrite lookup_delete_ne by done. tauto.
  - intros k x. destruct (decide (k = workerId)) as [->|Hne].
    + by rewrite lookup_delete_eq.
    + rewrite lookup_delete_ne by done. apply Hwo.
Qed.

Lemma Redis_cleanupInactiveWorkers_sound now :
  preserves Redis_sound (Redis.cleanupInactiveWorkers now).
Proof.
  intros w [Hws Hwo Hds Hdo Hro].
  unfold Redis_sound, exec, Redis.cleanupInactiveWorkers.
  destruct (SweepFacts.Redis_sweep_loop (cutoffTime now)
              (Redis.smembers (Redis.workersSet (Redis.store w))) w)
    as (w' & Hrun & _ & _ & Hc & Hd & Hr & Hdset & _ & Hworkers).
  unfold tryCatch. erewrite bind_returned by reflexivity. cbv zeta.
  unfold id. rewrite Hrun. cbn [snd].
  constructor; unfold counter; rewrite ?Hc, ?Hd, ?Hr, ?Hdset; [| |done..].
  - intros k. destruct (Hworkers k) as [-> ->]. rewrite Hws.
    destruct (_ && _); [|tauto].
    split; [by intros [_ ?]|by intros [? ?]].
  - intros k x. destruct (Hworkers k) as [-> _].
    destruct (_ && _); [done|apply Hwo].
Qed.

Lemma Redis_deploymentStatus_sound u : preserves Redis_sound (Redis.deploymentStatus u).
Proof.
  intros w [Hws Hwo Hds Hdo Hro]. unfold Redis_sound, exec.
  rewrite HandlerFacts.Redis_deploymentStatus_run. cbn [snd].
  destruct (Redis.deploymentKeys (Redis.store w) !! StatusUpdate.deploymentId u)
    as [d|] eqn:Hfound; [|done].
  constructor; simpl; unfold counter; simpl; [done|done|..].
  - intros k. rewrite Hds.
    destruct (reportAssignment u (Deployment.workers d)); [|done].
    destruct (decide (k = StatusUpdate.deploymentId u)) as [->|Hne].
    + rewrite lookup_insert_eq, Hfound. split; by eexists.
    + by rewrite lookup_insert_ne.
  - intros k x. destruct (reportAssignment u (Deployment.workers d)); [|apply Hdo].
    destruct (decide (k = StatusUpdate.deploymentId u)) as [->|Hne].
    + rewrite lookup_insert_eq. intros [= <-]. simpl. by apply Hdo.
    + rewrite lookup_insert_ne by done. apply Hdo.
  - intros k r.
    destruct (Redis.replicaKeys (Redis.store w) !! StatusUpdate.replicaId u)
      as [replica|] eqn:Hreplica; [|apply Hro].
    destruct (decide (k = StatusUpdate.replicaId u)) as [->|Hne].
    + rewrite lookup_insert_eq. intros [= <-]. simpl. by apply Hro.
    + rewrite lookup_insert_ne by done. apply Hro.
Qed.

Lemma Redis_setDeployment_knows d :
  preserves (Redis_knows (Deployment.id d)) (Redis.setDeployment (Deployment.id d) d).
Proof.
  intros w [[Hws Hwo Hds Hdo Hro] [d0 Hknown]].
  unfold Redis_knows, Redis_sound, exec, Redis.setDeployment, Redis.onStore, modifyWorld.
  simpl. split; [|by rewrite lookup_insert_eq].
  constructor; simpl; unfold counter; simpl; [done|done| | |done].
  - intros k. rewrite Hds. destruct (decide (k = Deployment.id d)) as [->|Hne].
    + rewrite lookup_insert_eq, Hknown. split; by eexists.
    + by rewrite lookup_insert_ne.
  - intros k x. destruct (decide (k = Deployment.id d)) as [->|Hne].
    + rewrite lookup_insert_eq. intros [= <-]. split; [done|].
      by destruct (Hdo _ _ Hknown).
    + rewrite lookup_insert_ne by done. apply Hdo.
Qed.

Lemma Redis_emit_knows n socket m : preserves (Redis_knows n) (Redis.emit socket m).
Proof. by intros w Hw. Qed.

(** A new Replica of deployment [n]: fresh id, record, membership. *)
Lemma Redis_newReplica_knows n (make : nat → Replica.t) :
  (∀ replicaId, Replica.id (make replicaId) = replicaId
                ∧ Replica.deploymentId (make replicaId) = n) →
  preserves (Redis_knows n)
    (replicaId ← Redis.getNextId "replica";
     Redis.setReplica replicaId (make replicaId) ;;
     Redis.saddReplicas n replicaId).
Proof.
  intros Hmake w [[Hws Hwo Hds Hdo Hro] Hknown].
  unfold Redis_knows, Redis_sound, exec, Redis.getNextId, Redis.incr, mbind, M_bind,
    Redis.readStore, Redis.onStore, Redis.setReplica, Redis.saddReplicas, modifyWorld,
    mret, M_ret. simpl.
  split; [|done].
  set (r := S (default 0 (Redis.counters (Redis.store w) !! "replica"))).
  constructor; simpl; unfold counter; simpl; [done| |done| |].
  - intros k x Hk. rewrite lookup_insert_ne by done. by apply Hwo.
  - intros k x Hk. rewrite lookup_insert_ne by done. by apply Hdo.
  - intros k x. rewrite lookup_insert_eq. destruct (decide (k = r)) as [->|Hne].
    + rewrite lookup_insert_eq. intros [= <-]. destruct (Hmake r) as [-> ->].
      split; [done|]. split; [subst r; simpl; lia|]. by apply Hds.
    + rewrite lookup_insert_ne by done. intros Hk.
      destruct (Hro k x Hk) as (Hid & Hle & Hin). unfold counter in Hle.
      split; [done|]. split; [subst r; simpl; lia|done].
Qed.

Lemma Redis_scaleUp_knows d now :
  preserves (Redis_knows (Deployment.id d)) (Redis.scaleUp d now).
Proof.
  unfold Redis.scaleUp. apply preserves_tryCatch; [|intros; apply preserves_ret].
  apply preserves_bind.
  { unfold Redis.findAvailableWorker. apply preserves_bind; [by intros w|].
    intros st. apply preserves_liftOutcome. }
  intros [worker|]; [|apply preserves_throw].
  set (number := length (Deployment.workers d) + 1).
  pose proof (Redis_newReplica_knows (Deployment.id d)
                (λ replicaId, Replica.make replicaId (Deployment.id d) "pending"
                                number None None)) as Hnew.
  intros w Hw. specialize (Hnew (λ _, conj eq_refl eq_refl) w Hw).
  revert Hnew.
  unfold exec, Redis.getNextId, Redis.incr, mbind, M_bind, Redis.readStore, Redis.onStore,
    Redis.setReplica, Redis.saddReplicas, modifyWorld, mret, M_ret. simpl.
  intros Hnew.
  set (d' := Deployment.withWorkers _ _).
  apply (Redis_setDeployment_knows d') in Hnew.
  exact Hnew.
Qed.

Lemma Redis_scaleDown_knows d now :
  preserves (Redis_knows (Deployment.id d)) (Redis.scaleDown d now).
Proof.
  intros w [[Hws Hwo Hds Hdo Hro] [d0 Hknown]].
  unfold Redis_knows, Redis_sound, exec. rewrite HandlerFacts.Redis_scaleDown_run.
  cbn [snd].
  destruct (tailWorker (Redis_find w) d) as [[lastWorker worker]|];
    [|by split; [constructor|eexists]].
  simpl. split; [|by rewrite lookup_insert_eq].
  constructor; simpl; unfold counter; simpl; [done|done| | |].
  - intros k. rewrite Hds. destruct (decide (k = Deployment.id d)) as [->|Hne].
    + rewrite lookup_insert_eq, Hknown. split; by eexists.
    + by rewrite lookup_insert_ne.
  - intros k x. destruct (decide (k = Deployment.id d)) as [->|Hne].
    + rewrite lookup_insert_eq. intros [= <-]. split; [done|].
      by destruct (Hdo _ _ Hknown).
    + rewrite lookup_insert_ne by done. apply Hdo.
  - intros k x Hk. apply lookup_delete_Some in Hk as [_ Hk]. by apply Hro.
Qed.

Lemma Redis_checkAndScale_knows d now :
  preserves (Redis_knows (Deployment.id d)) (Redis.checkAndScale d now).
Proof.
  unfold Redis.checkAndScale. apply preserves_tryCatch; [|intros; apply preserves_ret].
  apply preserves_bind; [by intros w|]. intros st.
  apply preserves_bind; [apply preserves_liftOutcome|]. intros replicas.
  destruct (scalingDecision d replicas now);
    [apply Redis_scaleUp_knows|apply Redis_scaleDown_knows|apply preserves_ret].
Qed.

Lemma Redis_scalingTick_sound now : preserves Redis_sound (Redis.scalingTick now).
Proof.
  unfold Redis.scalingTick. apply preserves_tryCatch; [|intros; apply preserves_ret].
  apply preserves_bind; [by intros w|]. intros st.
  apply preserves_forEach. intros deploymentId w Hw.
  unfold exec, mbind, M_bind, Redis.getDeployment, Redis.readStore. simpl.
  destruct (Redis.deploymentKeys (Redis.store w) !! deploymentId) as [d|] eqn:Hd; [|done].
  case_decide; [|done].
  assert (Deployment.id d = deploymentId) as Hid by (by destruct Hw as [_ _ _ Hdo _]; apply Hdo).
  apply (Redis_checkAndScale_knows d now w). split; [done|]. rewrite Hid. by eexists.
Qed.

Lemma exec_bind {W A B} (m : M W A) (f : A → M W B) w a w1 :
  m w = (Returned a, w1) → exec (m ≫= f) w = exec (f a) w1.
Proof. intros Hm. unfold exec. by rewrite (bind_returned _ _ _ _ _ Hm). Qed.

Lemma Redis_dispatch_knows env n d repoInfo now workerRef :
  preserves (Redis_knows n) (Redis.dispatch env d repoInfo now workerRef).
Proof.
  unfold Redis.dispatch. apply preserves_bind.
  { destruct (readRejected env _); [apply preserves_throw|apply preserves_ret]. }
  intros _. apply preserves_bind; [by intros w|].
  intros [worker|]; [apply Redis_emit_knows|apply preserves_ret].
Qed.

Lemma Redis_distributeToWorkers_knows env d repoInfo now :
  preserves (Redis_knows (Deployment.id d)) (Redis.distributeToWorkers env d repoInfo now).
Proof.
  unfold Redis.distributeToWorkers. apply preserves_tryCatch.
  - apply preserves_bind.
    { apply preserves_forEach. intros workerRef. apply Redis_dispatch_knows. }
    intros _. cbv zeta. apply preserves_bind; [|intros; apply preserves_ret].
    apply (Redis_setDeployment_knows (Deployment.withStatus "active" d)).
  - intros e. cbv zeta. apply preserves_bind; [|intros; apply preserves_throw].
    apply (Redis_setDeployment_knows (Deployment.withStatus "failed" d)).
Qed.

Lemma Redis_createDeployment_knows d w :
  Redis_sound w →
  Deployment.id d = S (counter (Redis.store w) "deployment") →
  Redis_knows (Deployment.id d)
    (exec (Redis.setDeployment (Deployment.id d) d ;; Redis.saddDeployments (Deployment.id d))
          (exec (Redis.getNextId "deployment") w)).
Proof.
  intros [Hws Hwo Hds Hdo Hro] Hid.
  unfold Redis_knows, Redis_sound, exec, Redis.getNextId, Redis.incr, mbind, M_bind,
    Redis.readStore, Redis.onStore, Redis.setDeployment, Redis.saddDeployments, modifyWorld,
    mret, M_ret. simpl.
  split; [|by rewrite lookup_insert_eq].
  constructor; simpl; unfold counter in *; simpl; [done| | | |].
  - intros k x Hk. rewrite lookup_insert_ne by done. by apply Hwo.
  - intros k. rewrite elem_of_union, elem_of_singleton, Hds.
    destruct (decide (k = Deployment.id d)) as [->|Hne].
    + rewrite lookup_insert_eq. split; [by eexists|by left].
    + rewrite lookup_insert_ne by done. split; [by intros [?|?]|by right].
  - intros k x. rewrite lookup_insert_eq. destruct (decide (k = Deployment.id d)) as [->|Hne].
    + rewrite lookup_insert_eq. intros [= <-]. split; [done|]. simpl. lia.
    + rewrite lookup_insert_ne by done. intros Hk.
      destruct (Hdo k x Hk) as [Hx Hle]. split; [done|simpl; lia].
  - intros k x Hk. rewrite lookup_insert_ne by done.
    destruct (Hro k x Hk) as (Hx & Hle & Hin). split; [done|]. split; [done|].
    apply elem_of_union. by right.
Qed.

Lemma Redis_getNextId_run type w :
  Redis.getNextId type w
  = (Returned (S (counter (Redis.store w) type)), exec (Redis.getNextId type) w).
Proof. reflexivity. Qed.

Lemma Redis_onStore_run f w :
  Redis.onStore f w = (Returned tt, exec (Redis.onStore f) w).
Proof. reflexivity. Qed.

Lemma Redis_deployRepository_sound env request now :
  preserves Redis_sound (Redis.deployRepository env request now).
Proof.
  unfold Redis.deployRepository. cbv zeta.
  apply preserves_bind; [apply preserves_ret|]. intros [repoInfo|]; [|apply preserves_throw].
  apply preserves_bind; [by intros w|]. intros st.
  apply preserves_bind; [apply preserves_liftOutcome|]. intros activeWorkers.
  destruct (_ <? _)%Z; [apply preserves_throw|].
  intros w Hw.
  erewrite exec_bind by apply Redis_getNextId_run.
  set (n := S (counter (Redis.store w) "deployment")).
  set (d := Deployment.make n _ _ _ _ _ _ _ _ _).
  pose proof (Redis_createDeployment_knows d w Hw eq_refl) as Hcreated.
  set (w1 := exec (Redis.getNextId "deployment") w) in *.
  erewrite exec_bind by apply (Redis_onStore_run _ w1).
  erewrite exec_bind by apply Redis_onStore_run.
  match goal with |- Redis_sound (exec ?rest ?w3) =>
    assert (Redis_knows n w3) as Hknown by exact Hcreated;
    generalize dependent w3 end.
  intros w3 Hknown.
  assert (preserves (Redis_knows n)
            (forEach (initialReplicaNumbers
                        (default 1%Z (DeploymentRequest.minReplicas request)))
               (λ replicaNumber,
                  replicaId ← Redis.getNextId "replica";
                  Redis.setReplica replicaId
                    (Replica.make replicaId n "pending" replicaNumber (Some now) None) ;;
                  Redis.saddReplicas n replicaId) ;;
             Redis.distributeToWorkers env d repoInfo now)) as Htail.
  { apply preserves_bind.
    - apply preserves_forEach. intros replicaNumber.
      apply (Redis_newReplica_knows n
               (λ replicaId, Replica.make replicaId n "pending" replicaNumber
                               (Some now) None)).
      by intros replicaId.
    - intros _. apply (Redis_distributeToWorkers_knows env d repoInfo now). }
  by destruct (Htail w3 Hknown).
Qed.

Lemma Redis_postDeploy_sound env body now :
  preserves Redis_sound (Redis.postDeploy env body now).
Proof.
  unfold Redis.postDeploy. apply preserves_tryCatch; [|intros; apply preserves_ret].
  apply preserves_bind; [apply Redis_deployRepository_sound|].
  intros d. apply preserves_ret.
Qed.

Lemma Redis_step_sound env w i : Redis_sound w → Redis_sound (Redis_step env w i).
Proof.
  destruct i; simpl.
  - apply Redis_registerWorker_sound.
  - apply Redis_workerStatus_sound.
  - apply Redis_deploymentStatus_sound.
  - apply Redis_disconnect_sound.
  - apply Redis_postDeploy_sound.
  - apply Redis_scalingTick_sound.
  - apply Redis_cleanupInactiveWorkers_sound.
Qed.

Lemma Redis_empty_sound : Redis_sound Redis.emptyWorld.
Proof.
  constructor; simpl.
  - intros k. rewrite lookup_empty. split; [by intros ?%elem_of_empty|by intros [? ?]].
  - intros k x. by rewrite lookup_empty.
  - intros k. rewrite lookup_empty. split; [by intros ?%elem_of_empty|by intros [? ?]].
  - intros k x. by rewrite lookup_empty.
  - intros k x. by rewrite lookup_empty.
Qed.

Lemma Redis_run_sound env inputs w :
  Redis_sound w → Redis_sound (foldl (Redis_step env) w inputs).
Proof.
  revert w. induction inputs as [|i inputs IH]; intros w Hw; [done|].
  simpl. apply IH. by apply Redis_step_sound.
Qed.

(** X21. After every sequence of inputs (registrations, status reports,
    deployment reports, disconnects, deploy requests, scaling rounds and
    sweeps) the Redis store is consistent: a worker or deployment id is in
    its set exactly when its key holds a record; each worker, deployment and
    replica record is stored under the id it carries; every id lies between
    1 and the counter of its type, so an id is never handed out twice; and
    every replica record names a deployment of the deployments set. *)
Theorem Redis_store_consistent (env : Env) (inputs : list Input) :
  Redis_consistent (Redis.store (Redis_after env inputs)).
Proof.
  unfold Redis_after.
  apply (Redis_run_sound env inputs Redis.emptyWorld), Redis_empty_sound.
Qed.

(** *** The MongoDB variant *)

Lemma Forall_lt_le {A} (key : A → nat) (n m : nat) (l : list A) :
  n ≤ m → Forall (λ x, key x < n) l → Forall (λ x, key x < m) l.
Proof.
  intros Hle Hall. eapply Forall_impl; [exact Hall|]. intros x Hx. simpl in *. lia.
Qed.

Lemma NoDup_fmap_snoc {A} (key : A → nat) (n : nat) (l : list A) x :
  NoDup (key <$> l) → Forall (λ y, key y < n) l → key x = n → NoDup (key <$> (l ++ [x])).
Proof.
  intros Hnodup Hold Hx. rewrite fmap_app. apply NoDup_app. split; [done|].
  split; [|apply NoDup_singleton].
  intros k (y & -> & Hy)%list_elem_of_fmap Hk. apply list_elem_of_singleton in Hk.
  simpl in Hk. apply (proj1 (Forall_forall _ _) Hold) in Hy. lia.
Qed.

Lemma replace_keeps_keys {A} (key : A → nat) (x : A) (l : list A) :
  key <$> ((λ y, if decide (key y = key x) then x else y) <$> l) = key <$> l.
Proof.
  rewrite <- list_fmap_compose. apply list_fmap_ext. intros _ y _. simpl.
  by case_decide.
Qed.

Lemma replace_keeps_old {A} (key : A → nat) (P : A → Prop) (x : A) (l : list A) :
  P x → Forall P l → Forall P ((λ y, if decide (key y = key x) then x else y) <$> l).
Proof.
  intros Hx Hall. apply Forall_fmap. eapply Forall_impl; [exact Hall|].
  intros y Hy. simpl. by case_decide.
Qed.

Lemma updateFirst_keeps_ids deploymentId replicaNumber update rs :
  (∀ r, Replica.id (update r) = Replica.id r) →
  Replica.id <$> Mongo.updateFirst deploymentId replicaNumber update rs = Replica.id <$> rs.
Proof.
  intros Hupdate. induction rs as [|r rs IH]; [done|]. simpl.
  case_decide; rewrite !fmap_cons; [by rewrite Hupdate|by rewrite IH].
Qed.

Lemma updateFirst_keeps_old deploymentId replicaNumber update n rs :
  (∀ r, Replica.id (update r) = Replica.id r) →
  Forall (λ r, Replica.id r < n) rs →
  Forall (λ r, Replica.id r < n) (Mongo.updateFirst deploymentId replicaNumber update rs).
Proof.
  intros Hupdate Hall.
  assert (Forall (λ k, k < n) (Replica.id <$> rs)) as Hids by (by apply Forall_fmap).
  rewrite <- (updateFirst_keeps_ids deploymentId replicaNumber update rs Hupdate) in Hids.
  by apply Forall_fmap in Hids.
Qed.

Lemma Mongo_emit_knows n socket m : preserves (Mongo_knows n) (Mongo.emit socket m).
Proof. by intros w Hw. Qed.

Lemma Mongo_insertReplica_knows bound deploymentId replicaNumber now :
  preserves (Mongo_knows bound) (Mongo.insertReplica deploymentId replicaNumber now).
Proof.
  intros w [[Hwi Hwo Hwh Hdi Hdo Hri Hro] Hn].
  unfold Mongo_knows, Mongo_sound, exec, Mongo.insertReplica, Mongo.newObjectId, mbind,
    M_bind, Mongo.readDb, Mongo.onDb, Mongo.setReplicas, modifyWorld, mret, M_ret. simpl.
  split; [|lia].
  constructor; simpl; [done| |done|done| | |].
  - by apply (Forall_lt_le _ (Mongo.nextObjectId (Mongo.db w))); [lia|].
  - by apply (Forall_lt_le _ (Mongo.nextObjectId (Mongo.db w))); [lia|].
  - by apply (NoDup_fmap_snoc Replica.id (Mongo.nextObjectId (Mongo.db w))).
  - apply Forall_app. split.
    + by apply (Forall_lt_le _ (Mongo.nextObjectId (Mongo.db w))); [lia|].
    + constructor; [simpl; lia|constructor].
Qed.

Lemma Mongo_saveDeployment_knows bound d :
  Deployment.id d < bound → preserves (Mongo_knows bound) (Mongo.saveDeployment d).
Proof.
  intros Hd w [[Hwi Hwo Hwh Hdi Hdo Hri Hro] Hn].
  unfold Mongo_knows, Mongo_sound, exec, Mongo.saveDeployment, mbind, M_bind,
    Mongo.readDb, Mongo.onDb, Mongo.setDeployments, modifyWorld. simpl.
  case_decide as Hex; simpl; (split; [|done]); constructor; simpl; try done.
  - by rewrite (replace_keeps_keys Deployment.id).
  - apply (replace_keeps_old Deployment.id); [lia|done].
  - rewrite fmap_app. apply NoDup_app. split; [done|]. split; [|apply NoDup_singleton].
    intros k (y & -> & Hy)%list_elem_of_fmap Hk. apply list_elem_of_singleton in Hk.
    simpl in Hk. apply Hex. apply Exists_exists. by exists y.
  - apply Forall_app. split; [done|]. constructor; [lia|constructor].
Qed.

Lemma Mongo_updateReplica_knows n deploymentId replicaNumber update :
  (∀ r, Replica.id (update r) = Replica.id r) →
  preserves (Mongo_knows n) (Mongo.findOneAndUpdateReplica deploymentId replicaNumber update).
Proof.
  intros Hupdate w [[Hwi Hwo Hwh Hdi Hdo Hri Hro] Hn].
  unfold Mongo_knows, Mongo_sound, exec, Mongo.findOneAndUpdateReplica, mbind, M_bind,
    Mongo.readDb, Mongo.onDb, Mongo.setReplicas, modifyWorld. simpl.
  split; [|done]. constructor; simpl; try done.
  - by rewrite updateFirst_keeps_ids.
  - by apply updateFirst_keeps_old.
Qed.

Lemma Mongo_found_known w deploymentId d :
  Mongo_sound w →
  head (filter (λ x, Deployment.id x = deploymentId) (Mongo.deployments (Mongo.db w)))
    = Some d →
  Mongo_knows (S (Deployment.id d)) w.
Proof.
  intros Hw Hfound. split; [done|].
  apply head_Some_elem_of, list_elem_of_filter in Hfound as [_ Hin].
  destruct Hw as [_ _ _ _ Hdo _ _].
  apply (proj1 (Forall_forall _ _) Hdo) in Hin. lia.
Qed.

Lemma Mongo_registerWorker_sound socket hostname now :
  preserves Mongo_sound (Mongo.registerWorker socket hostname now).
Proof.
  intros w [Hwi Hwo Hwh Hdi Hdo Hri Hro].
  unfold Mongo_sound, exec. rewrite RegistryFacts.Mongo_registerWorker_run. cbn [snd].
  set (n := Mongo.nextObjectId (Mongo.db w)) in *.
  constructor; simpl.
  - apply (NoDup_fmap_snoc Worker.id n); [by apply DispatcherFacts.NoDup_fmap_filter| |done].
    by apply DispatcherFacts.Forall_kept.
  - apply Forall_app. split.
    + apply DispatcherFacts.Forall_kept. by apply (Forall_lt_le _ n); [lia|].
    + constructor; [simpl; lia|constructor].
  - rewrite fmap_app. apply NoDup_app.
    split; [by apply DispatcherFacts.NoDup_fmap_filter|].
    split; [|apply NoDup_singleton].
    intros h (y & -> & Hy)%list_elem_of_fmap Hh. apply list_elem_of_singleton in Hh.
    simpl in Hh. by apply list_elem_of_filter in Hy as [Hy _].
  - done.
  - by apply (Forall_lt_le _ n); [lia|].
  - done.
  - by apply (Forall_lt_le _ n); [lia|].
Qed.

Lemma Mongo_workerStatus_sound workerId status load now :
  preserves Mongo_sound (Mongo.workerStatus workerId status load now).
Proof.
  intros w Hw. unfold Mongo_sound, exec.
  rewrite HandlerFacts.Mongo_workerStatus_run. cbn [snd].
  destruct (Mongo_find w workerId) as [worker|] eqn:Hfind; [|done].
  destruct Hw as [Hwi Hwo Hwh Hdi Hdo Hri Hro].
  unfold Mongo_find in Hfind. apply head_Some_elem_of, list_elem_of_filter in Hfind
    as [Hid Hin].
  set (g := λ x : Worker.t, if decide (Worker.id x = Worker.id worker)
                            then refreshed status load now worker else x).
  assert (∀ x, Worker.id (g x) = Worker.id x) as Hg.
  { intros x. unfold g. by case_decide. }
  assert (∀ x, x ∈ Mongo.workers (Mongo.db w) → Worker.hostname (g x) = Worker.hostname x)
    as Hh.
  { intros x Hx. unfold g. case_decide as Heq; [|done]. simpl.
    by rewrite (SweepFacts.same_key_same_element Worker.id _ x worker Hwi Hx Hin Heq). }
  constructor; simpl; try done.
  - rewrite <- list_fmap_compose.
    rewrite (list_fmap_ext _ Worker.id (Mongo.workers (Mongo.db w))); [done|].
    intros _ x _. apply Hg.
  - apply Forall_fmap. eapply Forall_impl; [exact Hwo|]. intros x Hx. simpl.
    fold (g x). by rewrite Hg.
  - rewrite <- list_fmap_compose.
    rewrite (list_fmap_ext _ Worker.hostname (Mongo.workers (Mongo.db w))); [done|].
    intros i x Hx. apply Hh. by eapply list_elem_of_lookup_2.
Qed.

Lemma Mongo_disconnect_sound socket : preserves Mongo_sound (Mongo.disconnect socket).
Proof.
  intros w [Hwi Hwo Hwh Hdi Hdo Hri Hro].
  unfold Mongo_sound, exec. rewrite RegistryFacts.Mongo_disconnect_run. cbn [snd].
  destruct (Mongo.socketWorkerId w !! socket) as [workerId|]; [|done].
  constructor; simpl; try done.
  - by apply DispatcherFacts.NoDup_fmap_filter.
  - by apply DispatcherFacts.Forall_kept.
  - by apply DispatcherFacts.NoDup_fmap_filter.
Qed.

Lemma Mongo_cleanupInactiveWorkers_sound now :
  preserves Mongo_sound (Mongo.cleanupInactiveWorkers now).
Proof.
  intros w [Hwi Hwo Hwh Hdi Hdo Hri Hro].
  unfold Mongo_sound, exec, Mongo.cleanupInactiveWorkers, tryCatch, mbind, M_bind,
    Mongo.readDb, Mongo.setWorkers, Mongo.onDb, modifyWorld. cbn [fst snd].
  destruct (0 <? length _); [|done]. simpl.
  constructor; simpl; try done.
  - by apply DispatcherFacts.NoDup_fmap_filter.
  - by apply DispatcherFacts.Forall_kept.
  - by apply DispatcherFacts.NoDup_fmap_filter.
Qed.

Lemma Mongo_knows_sound {A} bound (m : M Mongo.World A) :
  preserves (Mongo_knows bound) m → ∀ w, Mongo_knows bound w → Mongo_sound (exec m w).
Proof. intros Hm w Hw. by destruct (Hm w Hw). Qed.

Lemma Mongo_deploymentStatus_sound u : preserves Mongo_sound (Mongo.deploymentStatus u).
Proof.
  intros w Hw. unfold exec, Mongo.deploymentStatus, tryCatch.
  unfold mbind at 1, M_bind at 1, Mongo.findDeploymentById at 1, Mongo.readDb at 1.
  destruct (head (filter _ (Mongo.deployments (Mongo.db w)))) as [d|] eqn:Hfound; [|done].
  pose proof (Mongo_found_known w _ d Hw Hfound) as Hknown.
  assert (preserves (Mongo_knows (S (Deployment.id d)))
            (match reportAssignment u (Deployment.workers d) with
             | Some workers' => Mongo.saveDeployment (Deployment.withWorkers workers' d)
             | None => mret tt
             end ;;
             Mongo.findOneAndUpdateReplica (StatusUpdate.deploymentId u)
               (StatusUpdate.replicaId u)
               (Replica.withReport (StatusUpdate.status u) (StatusUpdate.metrics u)))) as Hrest.
  { apply preserves_bind.
    - destruct (reportAssignment u (Deployment.workers d)) as [workers'|];
        [|apply preserves_ret].
      apply (Mongo_saveDeployment_knows _ (Deployment.withWorkers workers' d)). simpl. lia.
    - intros _. by apply Mongo_updateReplica_knows. }
  specialize (Hrest w Hknown). unfold exec in Hrest.
  match type of Hrest with Mongo_knows _ (?r).2 => destruct r as [[[]|e] w1] end;
    by destruct Hrest.
Qed.

Lemma Mongo_scaleUp_knows bound d now :
  Deployment.id d < bound → preserves (Mongo_knows bound) (Mongo.scaleUp d now).
Proof.
  intros Hd. unfold Mongo.scaleUp.
  apply preserves_tryCatch; [|intros; apply preserves_ret].
  apply preserves_bind; [by intros w|].
  intros [worker|]; [|apply preserves_throw].
  apply preserves_bind; [apply Mongo_insertReplica_knows|]. intros newReplica. cbv zeta.
  apply preserves_bind; [|intros; apply Mongo_emit_knows].
  set (d' := Deployment.withWorkers _ _).
  by apply (Mongo_saveDeployment_knows bound d').
Qed.

Lemma Mongo_scaleDown_knows bound d now :
  Deployment.id d < bound → preserves (Mongo_knows bound) (Mongo.scaleDown d now).
Proof.
  intros Hd. unfold Mongo.scaleDown.
  apply preserves_tryCatch; [|intros; apply preserves_ret].
  destruct (last (Deployment.workers d)) as [lastWorker|]; [|apply preserves_ret].
  apply preserves_bind; [by intros w|].
  intros [worker|]; [|apply preserves_ret].
  apply preserves_bind; [apply Mongo_emit_knows|]. intros _. cbv zeta.
  apply preserves_bind.
  - set (d' := Deployment.withWorkers _ _). by apply (Mongo_saveDeployment_knows bound d').
  - intros _. by apply Mongo_updateReplica_knows.
Qed.

Lemma Mongo_checkAndScale_knows bound d now :
  Deployment.id d < bound → preserves (Mongo_knows bound) (Mongo.checkAndScale d now).
Proof.
  intros Hd. unfold Mongo.checkAndScale.
  apply preserves_tryCatch; [|intros; apply preserves_ret].
  apply preserves_bind; [by intros w|]. intros replicas.
  destruct (scalingDecision d replicas now);
    [by apply Mongo_scaleUp_knows|by apply Mongo_scaleDown_knows|apply preserves_ret].
Qed.

Lemma Mongo_scalingTick_sound now : preserves Mongo_sound (Mongo.scalingTick now).
Proof.
  intros w Hw. unfold exec, Mongo.scalingTick, tryCatch.
  erewrite bind_returned by reflexivity.
  set (active := filter _ _).
  set (bound := Mongo.nextObjectId (Mongo.db w)).
  assert (preserves (Mongo_knows bound)
            (forEach active (λ deployment, Mongo.checkAndScale deployment now))) as Hloop.
  { apply preserves_forEach_in. intros d Hd. apply Mongo_checkAndScale_knows.
    subst active. apply list_elem_of_filter in Hd as [_ Hd].
    destruct Hw as [_ _ _ _ Hdo _ _]. by apply (proj1 (Forall_forall _ _) Hdo). }
  specialize (Hloop w (conj Hw (le_n _))). unfold exec in Hloop.
  destruct (forEach active _ w) as [[[]|e] w1]; by destruct Hloop.
Qed.

Lemma Mongo_dispatch_knows env bound d repoInfo now workerRef :
  preserves (Mongo_knows bound) (Mongo.dispatch env d repoInfo now workerRef).
Proof.
  unfold Mongo.dispatch. apply preserves_bind.
  { destruct (readRejected env _); [apply preserves_throw|apply preserves_ret]. }
  intros _. apply preserves_bind; [by intros w|].
  intros [worker|]; [apply Mongo_emit_knows|apply preserves_ret].
Qed.

Lemma Mongo_distributeToWorkers_knows env bound d repoInfo now :
  Deployment.id d < bound →
  preserves (Mongo_knows bound) (Mongo.distributeToWorkers env d repoInfo now).
Proof.
  intros Hd. unfold Mongo.distributeToWorkers. apply preserves_tryCatch.
  - apply preserves_bind.
    { apply preserves_forEach. intros workerRef. apply Mongo_dispatch_knows. }
    intros _. cbv zeta. apply preserves_bind; [|intros; apply preserves_ret].
    by apply (Mongo_saveDeployment_knows bound (Deployment.withStatus "active" d)).
  - intros e. cbv zeta. apply preserves_bind; [|intros; apply preserves_throw].
    by apply (Mongo_saveDeployment_knows bound (Deployment.withStatus "failed" d)).
Qed.

Lemma Mongo_newObjectId_run w :
  Mongo.newObjectId w
  = (Returned (Mongo.nextObjectId (Mongo.db w)), exec Mongo.newObjectId w).
Proof. reflexivity. Qed.

Lemma Mongo_newObjectId_knows w :
  Mongo_sound w →
  Mongo_knows (S (Mongo.nextObjectId (Mongo.db w))) (exec Mongo.newObjectId w).
Proof.
  intros [Hwi Hwo Hwh Hdi Hdo Hri Hro].
  unfold Mongo_knows, Mongo_sound, exec, Mongo.newObjectId, mbind, M_bind, Mongo.readDb,
    Mongo.onDb, modifyWorld, mret, M_ret. simpl.
  split; [|done]. constructor; simpl; try done;
    by apply (Forall_lt_le _ (Mongo.nextObjectId (Mongo.db w))); [lia|].
Qed.

Lemma Mongo_deployRepository_sound env request now :
  preserves Mongo_sound (Mongo.deployRepository env request now).
Proof.
  unfold Mongo.deployRepository. cbv zeta.
  apply preserves_bind; [apply preserves_ret|]. intros [repoInfo|]; [|apply preserves_throw].
  apply preserves_bind; [by intros w|]. intros workers.
  destruct (_ <? _)%Z; [apply preserves_throw|].
  intros w Hw.
  erewrite exec_bind by apply Mongo_newObjectId_run.
  set (oid := Mongo.nextObjectId (Mongo.db w)).
  apply (Mongo_knows_sound (S oid)); [|by apply Mongo_newObjectId_knows].
  set (d := Deployment.make oid _ _ _ _ _ _ _ _ _).
  apply preserves_bind; [apply (Mongo_saveDeployment_knows (S oid) d); simpl; lia|].
  intros _. apply preserves_bind.
  - apply preserves_forEach. intros replicaNumber.
    apply preserves_bind; [apply Mongo_insertReplica_knows|]. intros; apply preserves_ret.
  - intros _. apply Mongo_distributeToWorkers_knows. simpl. lia.
Qed.

Lemma Mongo_postDeploy_sound env body now :
  preserves Mongo_sound (Mongo.postDeploy env body now).
Proof.
  unfold Mongo.postDeploy. apply preserves_tryCatch; [|intros; apply preserves_ret].
  apply preserves_bind; [apply Mongo_deployRepository_sound|].
  intros d. apply preserves_ret.
Qed.

Lemma Mongo_step_sound env w i : Mongo_sound w → Mongo_sound (Mongo_step env w i).
Proof.
  destruct i; simpl.
  - apply Mongo_registerWorker_sound.
  - apply Mongo_workerStatus_sound.
  - apply Mongo_deploymentStatus_sound.
  - apply Mongo_disconnect_sound.
  - apply Mongo_postDeploy_sound.
  - apply Mongo_scalingTick_sound.
  - apply Mongo_cleanupInactiveWorkers_sound.
Qed.

Lemma Mongo_empty_sound : Mongo_sound Mongo.emptyWorld.
Proof. constructor; simpl; constructor. Qed.

Lemma Mongo_run_sound env inputs w :
  Mongo_sound w → Mongo_sound (foldl (Mongo_step env) w inputs).
Proof.
  revert w. induction inputs as [|i inputs IH]; intros w Hw; [done|].
  simpl. apply IH. by apply Mongo_step_sound.
Qed.

(** X22. After every sequence of inputs the collections of the MongoDB
    variant are consistent: within each collection (workers, deployments,
    replicas) the ids are distinct and below the next ObjectId, and no two
    workers carry the same hostname, so that a host that reconnects, reports
    or is swept is never listed twice. *)
Theorem Mongo_collections_consistent (env : Env) (inputs : list Input) :
  Mongo_consistent (Mongo.db (Mongo_after env inputs)).
Proof.
  unfold Mongo_after.
  apply (Mongo_run_sound env inputs Mongo.emptyWorld), Mongo_empty_sound.
Qed.

End InvariantFacts.

(** ** What a scaling round leaves alone *)

Module RoundScopeFacts.
Import MonadFacts ScaleUpFacts InvariantFacts.
















End RoundScopeFacts.

(** ** The numbering of assignments *)

Module NumberingFacts.
Import MonadFacts InvariantFacts.

Lemma numbered_take k ws : numberedList ws → numberedList (take k ws).
Proof.
  unfold numberedList. intros Hws.
  by rewrite fmap_take, Hws, length_take, take_seq.
Qed.

Lemma numbered_removelast ws : numberedList ws → numberedList (removelast ws).
Proof. rewrite removelast_firstn_len. apply numbered_take. Qed.

Lemma numbered_slice0 n ws : numberedList ws → numberedList (slice0 n ws).
Proof. unfold slice0. destruct (n <? 0)%Z; apply numbered_take. Qed.

Lemma numbered_snoc ws x :
  Assignment.replicaId x = length ws + 1 → numberedList ws → numberedList (ws ++ [x]).
Proof.
  unfold numberedList. intros Hx Hws.
  rewrite fmap_app, Hws, length_app. simpl. rewrite Hx.
  replace (length ws + 1) with (S (length ws)) by lia.
  rewrite seq_S. f_equal.
Qed.

Lemma numbered_report u ws ws' :
  reportAssignment u ws = Some ws' → numberedList ws → numberedList ws'.
Proof.
  unfold reportAssignment, numberedList.
  destruct (list_find _ ws) as [[i a]|] eqn:Hfind; [|done].
  intros [= <-] Hws. apply list_find_Some in Hfind as (Hi & _ & _).
  rewrite list_fmap_insert, length_insert. simpl.
  rewrite list_insert_id; [done|]. by rewrite list_lookup_fmap, Hi.
Qed.

Lemma numbered_initial minReplicas chosen :
  numberedList (initialAssignments minReplicas chosen).
Proof.
  unfold numberedList, initialAssignments.
  set (l := slice0 minReplicas chosen).
  apply list_eq. intros i.
  rewrite list_lookup_fmap, list_lookup_imap, length_imap.
  destruct (l !! i) as [worker|] eqn:Hi; simpl.
  - apply lookup_lt_Some in Hi. rewrite lookup_seq_lt by done. f_equal. lia.
  - apply lookup_ge_None in Hi. symmetry. apply lookup_seq_ge. lia.
Qed.

(** *** Redis *)

Lemma Redis_setDeployment_numbered k d :
  numbered d → preserves Redis_numbered (Redis.setDeployment k d).
Proof. intros Hd w Hw. by apply map_Forall_insert_2. Qed.

Lemma Redis_scaleUp_numbered d now :
  numbered d → preserves Redis_numbered (Redis.scaleUp d now).
Proof.
  intros Hd. unfold Redis.scaleUp.
  apply preserves_tryCatch; [|intros; apply preserves_ret].
  apply preserves_bind.
  { unfold Redis.findAvailableWorker. apply preserves_bind; [by intros w|].
    intros st. apply preserves_liftOutcome. }
  intros [worker|]; [|apply preserves_throw].
  apply preserves_bind; [by intros w|]. intros replicaId. cbv zeta.
  apply preserves_bind; [by intros w|]. intros _.
  apply preserves_bind; [by intros w|]. intros _.
  apply preserves_bind; [|by intros _ w].
  apply Redis_setDeployment_numbered. by apply numbered_snoc.
Qed.

Lemma Redis_scaleDown_numbered d now :
  numbered d → preserves Redis_numbered (Redis.scaleDown d now).
Proof.
  intros Hd w Hw. unfold Redis_numbered, exec.
  rewrite HandlerFacts.Redis_scaleDown_run. cbn [snd].
  destruct (tailWorker (Redis_find w) d) as [[lastWorker worker]|]; [|done].
  simpl. apply map_Forall_insert_2; [|done]. by apply numbered_removelast.
Qed.

Lemma Redis_checkAndScale_numbered d now :
  numbered d → preserves Redis_numbered (Redis.checkAndScale d now).
Proof.
  intros Hd. unfold Redis.checkAndScale.
  apply preserves_tryCatch; [|intros; apply preserves_ret].
  apply preserves_bind; [by intros w|]. intros st.
  apply preserves_bind; [apply preserves_liftOutcome|]. intros replicas.
  destruct (scalingDecision d replicas now);
    [by apply Redis_scaleUp_numbered|by apply Redis_scaleDown_numbered|apply preserves_ret].
Qed.

Lemma Redis_scalingTick_numbered now : preserves Redis_numbered (Redis.scalingTick now).
Proof.
  unfold Redis.scalingTick. apply preserves_tryCatch; [|intros; apply preserves_ret].
  apply preserves_bind; [by intros w|]. intros st.
  apply preserves_forEach. intros deploymentId w Hw.
  unfold exec, mbind, M_bind, Redis.getDeployment, Redis.readStore. simpl.
  destruct (Redis.deploymentKeys (Redis.store w) !! deploymentId) as [d|] eqn:Hd; [|done].
  case_decide; [|done].
  apply (Redis_checkAndScale_numbered d now); [|done]. by apply (Hw deploymentId).
Qed.

Lemma Redis_deploymentStatus_numbered u :
  preserves Redis_numbered (Redis.deploymentStatus u).
Proof.
  intros w Hw. unfold Redis_numbered, exec.
  rewrite HandlerFacts.Redis_deploymentStatus_run. cbn [snd].
  destruct (Redis.deploymentKeys (Redis.store w) !! StatusUpdate.deploymentId u)
    as [d|] eqn:Hfound; [|done].
  simpl. destruct (reportAssignment u (Deployment.workers d)) as [workers'|] eqn:Hrep;
    [|done].
  apply map_Forall_insert_2; [|done].
  apply (numbered_report u (Deployment.workers d)); [done|]. by apply (Hw _ _ Hfound).
Qed.

Lemma Redis_distributeToWorkers_numbered env d repoInfo now :
  numbered d → preserves Redis_numbered (Redis.distributeToWorkers env d repoInfo now).
Proof.
  intros Hd. unfold Redis.distributeToWorkers. apply preserves_tryCatch.
  - apply preserves_bind.
    { apply preserves_forEach. intros workerRef. unfold Redis.dispatch.
      apply preserves_bind.
      { destruct (readRejected env _); [apply preserves_throw|apply preserves_ret]. }
      intros _. apply preserves_bind; [by intros w|].
      intros [worker|]; [by intros w|apply preserves_ret]. }
    intros _. cbv zeta. apply preserves_bind; [|intros; apply preserves_ret].
    by apply Redis_setDeployment_numbered.
  - intros e. cbv zeta. apply preserves_bind; [|intros; apply preserves_throw].
    by apply Redis_setDeployment_numbered.
Qed.

Lemma Redis_deployRepository_numbered env request now :
  preserves Redis_numbered (Redis.deployRepository env request now).
Proof.
  unfold Redis.deployRepository. cbv zeta.
  apply preserves_bind; [apply preserves_ret|]. intros [repoInfo|]; [|apply preserves_throw].
  apply preserves_bind; [by intros w|]. intros st.
  apply preserves_bind; [apply preserves_liftOutcome|]. intros activeWorkers.
  destruct (_ <? _)%Z; [apply preserves_throw|].
  apply preserves_bind; [by intros w|]. intros deploymentId.
  apply preserves_bind.
  { apply Redis_setDeployment_numbered. apply numbered_initial. }
  intros _. apply preserves_bind; [by intros w|]. intros _.
  apply preserves_bind.
  - apply preserves_forEach. intros replicaNumber.
    apply preserves_bind; [by intros w|]. intros replicaId.
    apply preserves_bind; [by intros w|by intros _ w].
  - intros _. apply Redis_distributeToWorkers_numbered. apply numbered_initial.
Qed.

Lemma Redis_step_numbered env w i : Redis_numbered w → Redis_numbered (Redis_step env w i).
Proof.
  destruct i; simpl.
  - by intros Hw.
  - intros Hw. unfold exec. rewrite HandlerFacts.Redis_workerStatus_run. cbn [snd].
    by destruct (Redis_find w workerId).
  - apply Redis_deploymentStatus_numbered.
  - intros Hw. unfold exec, Redis.disconnect, mbind, M_bind, getWorld. simpl.
    by destruct (Redis.socketWorkerId w !! socket).
  - unfold Redis.postDeploy. apply preserves_tryCatch; [|intros; apply preserves_ret].
    apply preserves_bind; [apply Redis_deployRepository_numbered|].
    intros d. apply preserves_ret.
  - apply Redis_scalingTick_numbered.
  - intros Hw. unfold Redis_numbered, exec, Redis.cleanupInactiveWorkers.
    destruct (SweepFacts.Redis_sweep_loop (cutoffTime now)
                (Redis.smembers (Redis.workersSet (Redis.store w))) w)
      as (w' & Hrun & _ & _ & _ & Hd & _).
    unfold tryCatch. erewrite bind_returned by reflexivity. cbv zeta.
    unfold id. rewrite Hrun. cbn [snd]. by rewrite Hd.
Qed.

(** *** MongoDB *)

Lemma Mongo_saveDeployment_numbered d :
  numbered d → preserves Mongo_numbered (Mongo.saveDeployment d).
Proof.
  intros Hd w Hw.
  unfold Mongo_numbered, exec, Mongo.saveDeployment, mbind, M_bind, Mongo.readDb,
    Mongo.onDb, Mongo.setDeployments, modifyWorld. simpl.
  case_decide; simpl.
  - apply Forall_fmap. eapply Forall_impl; [exact Hw|]. intros x Hx. simpl.
    by case_decide.
  - apply Forall_app. split; [done|]. by constructor.
Qed.

Lemma Mongo_updateReplica_numbered deploymentId replicaNumber update :
  preserves Mongo_numbered (Mongo.findOneAndUpdateReplica deploymentId replicaNumber update).
Proof. by intros w Hw. Qed.

Lemma Mongo_insertReplica_run deploymentId replicaNumber now w :
  Mongo.insertReplica deploymentId replicaNumber now w
  = (Returned (Replica.make (Mongo.nextObjectId (Mongo.db w)) deploymentId "pending"
                            replicaNumber (Some now) None),
     exec (Mongo.insertReplica deploymentId replicaNumber now) w).
Proof. reflexivity. Qed.

Lemma Mongo_scaleUp_numbered d now :
  numbered d → preserves Mongo_numbered (Mongo.scaleUp d now).
Proof.
  intros Hd. unfold Mongo.scaleUp.
  apply preserves_tryCatch; [|intros; apply preserves_ret].
  apply preserves_bind; [by intros w|].
  intros [worker|]; [|apply preserves_throw].
  intros w Hw. erewrite exec_bind by apply Mongo_insertReplica_run. cbv zeta.
  apply (preserves_bind Mongo_numbered); [|by intros _ w'|exact Hw].
  apply Mongo_saveDeployment_numbered. by apply numbered_snoc.
Qed.

Lemma Mongo_scaleDown_numbered d now :
  numbered d → preserves Mongo_numbered (Mongo.scaleDown d now).
Proof.
  intros Hd. unfold Mongo.scaleDown.
  apply preserves_tryCatch; [|intros; apply preserves_ret].
  destruct (last (Deployment.workers d)) as [lastWorker|]; [|apply preserves_ret].
  apply preserves_bind; [by intros w|].
  intros [worker|]; [|apply preserves_ret].
  apply preserves_bind; [by intros w|]. intros _. cbv zeta.
  apply preserves_bind; [|intros _; apply Mongo_updateReplica_numbered].
  apply Mongo_saveDeployment_numbered. by apply numbered_slice0.
Qed.

Lemma Mongo_checkAndScale_numbered d now :
  numbered d → preserves Mongo_numbered (Mongo.checkAndScale d now).
Proof.
  intros Hd. unfold Mongo.checkAndScale.
  apply preserves_tryCatch; [|intros; apply preserves_ret].
  apply preserves_bind; [by intros w|]. intros replicas.
  destruct (scalingDecision d replicas now);
    [by apply Mongo_scaleUp_numbered|by apply Mongo_scaleDown_numbered|apply preserves_ret].
Qed.

Lemma Mongo_scalingTick_numbered now : preserves Mongo_numbered (Mongo.scalingTick now).
Proof.
  intros w Hw. unfold exec, Mongo.scalingTick, tryCatch.
  erewrite bind_returned by reflexivity.
  set (active := filter _ _).
  assert (preserves Mongo_numbered
            (forEach active (λ deployment, Mongo.checkAndScale deployment now))) as Hloop.
  { apply preserves_forEach_in. intros d Hd. apply Mongo_checkAndScale_numbered.
    subst active. apply list_elem_of_filter in Hd as [_ Hd].
    by apply (proj1 (Forall_forall _ _) Hw). }
  specialize (Hloop w Hw). unfold exec in Hloop.
  by destruct (forEach active _ w) as [[[]|e] w1].
Qed.

Lemma Mongo_deploymentStatus_numbered u :
  preserves Mongo_numbered (Mongo.deploymentStatus u).
Proof.
  intros w Hw. unfold exec, Mongo.deploymentStatus, tryCatch.
  unfold mbind at 1, M_bind at 1, Mongo.findDeploymentById at 1, Mongo.readDb at 1.
  destruct (head (filter _ (Mongo.deployments (Mongo.db w)))) as [d|] eqn:Hfound; [|done].
  assert (numbered d) as Hd.
  { apply head_Some_elem_of, list_elem_of_filter in Hfound as [_ Hin].
    by apply (proj1 (Forall_forall _ _) Hw). }
  assert (preserves Mongo_numbered
            (match reportAssignment u (Deployment.workers d) with
             | Some workers' => Mongo.saveDeployment (Deployment.withWorkers workers' d)
             | None => mret tt
             end ;;
             Mongo.findOneAndUpdateReplica (StatusUpdate.deploymentId u)
               (StatusUpdate.replicaId u)
               (Replica.withReport (StatusUpdate.status u) (StatusUpdate.metrics u)))) as Hrest.
  { apply preserves_bind; [|intros _; apply Mongo_updateReplica_numbered].
    destruct (reportAssignment u (Deployment.workers d)) as [workers'|] eqn:Hrep;
      [|apply preserves_ret].
    apply Mongo_saveDeployment_numbered.
    by apply (numbered_report u (Deployment.workers d)). }
  specialize (Hrest w Hw). unfold exec in Hrest.
  match type of Hrest with Mongo_numbered (?r).2 => by destruct r as [[[]|e] w1] end.
Qed.

Lemma Mongo_distributeToWorkers_numbered env d repoInfo now :
  numbered d → preserves Mongo_numbered (Mongo.distributeToWorkers env d repoInfo now).
Proof.
  intros Hd. unfold Mongo.distributeToWorkers. apply preserves_tryCatch.
  - apply preserves_bind.
    { apply preserves_forEach. intros workerRef. unfold Mongo.dispatch.
      apply preserves_bind.
      { destruct (readRejected env _); [apply preserves_throw|apply preserves_ret]. }
      intros _. apply preserves_bind; [by intros w|].
      intros [worker|]; [by intros w|apply preserves_ret]. }
    intros _. cbv zeta. apply preserves_bind; [|intros; apply preserves_ret].
    by apply Mongo_saveDeployment_numbered.
  - intros e. cbv zeta. apply preserves_bind; [|intros; apply preserves_throw].
    by apply Mongo_saveDeployment_numbered.
Qed.

Lemma Mongo_deployRepository_numbered env request now :
  preserves Mongo_numbered (Mongo.deployRepository env request now).
Proof.
  unfold Mongo.deployRepository. cbv zeta.
  apply preserves_bind; [apply preserves_ret|]. intros [repoInfo|]; [|apply preserves_throw].
  apply preserves_bind; [by intros w|]. intros workers.
  destruct (_ <? _)%Z; [apply preserves_throw|].
  apply preserves_bind; [by intros w|]. intros oid.
  apply preserves_bind.
  { apply Mongo_saveDeployment_numbered. apply numbered_initial. }
  intros _. apply preserves_bind.
  - apply preserves_forEach. intros replicaNumber.
    apply preserves_bind; [by intros w|by intros _ w].
  - intros _. apply Mongo_distributeToWorkers_numbered. apply numbered_initial.
Qed.

Lemma Mongo_step_numbered env w i : Mongo_numbered w → Mongo_numbered (Mongo_step env w i).
Proof.
  destruct i; simpl.
  - by intros Hw.
  - intros Hw. unfold exec. rewrite HandlerFacts.Mongo_workerStatus_run. cbn [snd].
    by destruct (Mongo_find w workerId).
  - apply Mongo_deploymentStatus_numbered.
  - intros Hw. unfold exec. rewrite RegistryFacts.Mongo_disconnect_run. cbn [snd].
    by destruct (Mongo.socketWorkerId w !! socket).
  - unfold Mongo.postDeploy. apply preserves_tryCatch; [|intros; apply preserves_ret].
    apply preserves_bind; [apply Mongo_deployRepository_numbered|].
    intros d. apply preserves_ret.
  - apply Mongo_scalingTick_numbered.
  - intros Hw.
    unfold Mongo_numbered, exec, Mongo.cleanupInactiveWorkers, tryCatch, mbind, M_bind,
      Mongo.readDb, Mongo.setWorkers, Mongo.onDb, modifyWorld. cbn [fst snd].
    by destruct (0 <? length _).
Qed.

(** X23. Along every run, in both variants, the assignments of every stored
    deployment carry the replica numbers 1, 2, ..., n in that order: the
    initial assignments are numbered from 1, a scale-up appends number n+1,
    a scale-down pops the highest number, and status reports change no
    number.  So a deployment never holds two assignments with the same
    replica number. *)
Theorem assignments_numbered (env : Env) (inputs : list Input) :
  map_Forall (λ _ d, numbered d)
             (Redis.deploymentKeys (Redis.store (Redis_after env inputs)))
  ∧ Forall numbered (Mongo.deployments (Mongo.db (Mongo_after env inputs))).
Proof.
  split.
  - unfold Redis_after.
    assert (∀ w, Redis_numbered w → Redis_numbered (foldl (Redis_step env) w inputs))
      as Hrun.
    { induction inputs as [|i inputs IH]; intros w Hw; [done|].
      simpl. apply IH. by apply Redis_step_numbered. }
    apply Hrun. apply map_Forall_empty.
  - unfold Mongo_after.
    assert (∀ w, Mongo_numbered w → Mongo_numbered (foldl (Mongo_step env) w inputs))
      as Hrun.
    { induction inputs as [|i inputs IH]; intros w Hw; [done|].
      simpl. apply IH. by apply Mongo_step_numbered. }
    apply Hrun. constructor.
Qed.

End NumberingFacts.

(** ** A deployment that succeeds *)

Module DeploySuccessFacts.
Import MonadFacts DeployFacts DistributeFacts InvariantFacts.

Lemma Mongo_insertReplicas_run oid now numbers w :
  forEach numbers (λ replicaNumber, Mongo.insertReplica oid replicaNumber now ;; mret tt) w
  = (Returned tt,
     Mongo.mkWorld
       (Mongo.mkDb (Mongo.workers (Mongo.db w)) (Mongo.deployments (Mongo.db w))
          (Mongo.replicas (Mongo.db w)
           ++ imap (λ i number, Replica.make (Mongo.nextObjectId (Mongo.db w) + i) oid
                                   "pending" number (Some now) None) numbers)
          (Mongo.nextObjectId (Mongo.db w) + length numbers))
       (Mongo.sent w) (Mongo.socketWorkerId w)).
Proof.
  revert w. induction numbers as [|number numbers IH]; intros w.
  - simpl. rewrite app_nil_r, Nat.add_0_r. by destruct w as [[] ? ?].
  - cbn [forEach]. erewrite bind_returned by reflexivity. rewrite IH. simpl.
    f_equal. f_equal. f_equal; [|lia].
    rewrite <- app_assoc. simpl. rewrite Nat.add_0_r. do 2 f_equal.
    apply imap_ext. intros i x _. simpl. f_equal. lia.
Qed.

Lemma Mongo_saveDeployment_world d w :
  exec (Mongo.saveDeployment d) w
  = Mongo.mkWorld
      (Mongo.mkDb (Mongo.workers (Mongo.db w))
         (if decide (Exists (λ x, Deployment.id x = Deployment.id d)
                            (Mongo.deployments (Mongo.db w)))
          then (λ x, if decide (Deployment.id x = Deployment.id d) then d else x)
                 <$> Mongo.deployments (Mongo.db w)
          else Mongo.deployments (Mongo.db w) ++ [d])
         (Mongo.replicas (Mongo.db w)) (Mongo.nextObjectId (Mongo.db w)))
      (Mongo.sent w) (Mongo.socketWorkerId w).
Proof.
  unfold exec, Mongo.saveDeployment, mbind, M_bind, Mongo.readDb, Mongo.setDeployments,
    Mongo.onDb, modifyWorld. simpl. by case_decide.
Qed.

Lemma servedBeforeFailure_all env refs :
  someReadRejected env refs = false → servedBeforeFailure env refs = refs.
Proof.
  induction refs as [|workerRef refs IH]; [done|]. simpl.
  destruct (readRejected env _); [done|]. simpl. intros Hrest. by rewrite IH.
Qed.

Lemma dispatchedTo_same_id env find d d' repoInfo now workerRef :
  Deployment.id d = Deployment.id d' →
  dispatchedTo env find d repoInfo now workerRef
  = dispatchedTo env find d' repoInfo now workerRef.
Proof. intros Hid. unfold dispatchedTo. by rewrite Hid. Qed.

Lemma cpuLe_total : Total Mongo.cpuLe.
Proof.
  intros x y. unfold Mongo.cpuLe.
  destruct (Qle_bool (Mongo.cpuOf x) (Mongo.cpuOf y)) eqn:Hxy; [by left|right].
  apply Qle_bool_iff. apply Qlt_le_weak. apply Qnot_le_lt. intros Hle.
  apply Qle_bool_iff in Hle. congruence.
Qed.

Lemma replace_last {A} (key : A → nat) (l : list A) (x y : A) :
  key x = key y → Forall (λ z, key z ≠ key y) l →
  (λ z, if decide (key z = key y) then y else z) <$> (l ++ [x]) = l ++ [y].
Proof.
  intros Hx Hl. rewrite fmap_app. simpl. rewrite decide_True by done. f_equal.
  induction Hl as [|z l Hz _ IH]; [done|]. rewrite fmap_cons, IH.
  by rewrite decide_False.
Qed.

(** The run of a deploy request that finds enough candidates (MongoDB
    variant). *)
Lemma Mongo_deployRepository_run (env : Env) (request : DeploymentRequest.t)
    (now : Time) (w : Mongo.World) (repoInfo : RepoInfo) :
  let minReplicas := default 1%Z (DeploymentRequest.minReplicas request) in
  let maxReplicas := default 3%Z (DeploymentRequest.maxReplicas request) in
  let candidates := Mongo.limit maxReplicas (Mongo.availableByLoad (Mongo.db w)) in
  let oid := Mongo.nextObjectId (Mongo.db w) in
  let d := Deployment.make oid (DeploymentRequest.githubRepo request)
             (DeploymentRequest.userName request) minReplicas maxReplicas "active"
             (initialAssignments minReplicas candidates) now None None in
  Mongo_consistent (Mongo.db w) →
  github env (Repo.normalizedUrl (DeploymentRequest.githubRepo request)) = Some repoInfo →
  (minReplicas ≤ Z.of_nat (length candidates))%Z →
  someReadRejected env (Deployment.workers d) = false →
  ∃ w',
    Mongo.deployRepository env request now w = (Returned d, w')
    ∧ Mongo.deployments (Mongo.db w') = Mongo.deployments (Mongo.db w) ++ [d]
    ∧ Mongo.replicas (Mongo.db w')
      = Mongo.replicas (Mongo.db w)
        ++ imap (λ i number, Replica.make (oid + 1 + i) oid "pending" number (Some now) None)
                (initialReplicaNumbers minReplicas)
    ∧ Mongo.workers (Mongo.db w') = Mongo.workers (Mongo.db w)
    ∧ Mongo.nextObjectId (Mongo.db w') = oid + 1 + Z.to_nat minReplicas
    ∧ Mongo.sent w'
      = Mongo.sent w
        ++ omap (dispatchedTo env (Mongo_find w) d repoInfo now) (Deployment.workers d)
    ∧ Sorted Mongo.cpuLe (Mongo.availableByLoad (Mongo.db w))
    ∧ Forall (λ worker, Mongo.matchesAvailable worker = true) candidates.
Proof.
  intros minReplicas maxReplicas candidates oid d Hsound Hvalid Henough Hserved.
  set (d0 := Deployment.withStatus "deploying" d).
  unfold Mongo.deployRepository, Mongo.validateGithubRepo. cbv zeta.
  erewrite bind_returned by reflexivity. rewrite Hvalid.
  erewrite bind_returned by reflexivity.
  fold minReplicas maxReplicas candidates.
  rewrite (proj2 (Z.ltb_ge _ _) Henough).
  erewrite bind_returned by apply Mongo_newObjectId_run. fold oid.
  change (Deployment.make oid _ _ _ _ "deploying" _ _ _ _) with d0.
  erewrite bind_returned by apply Mongo_saveDeployment_exec.
  erewrite bind_returned by apply Mongo_insertReplicas_run.
  rewrite Mongo_distributeToWorkers_run. cbv zeta.
  change (Deployment.workers d0) with (Deployment.workers d).
  rewrite Hserved, (servedBeforeFailure_all env _ Hserved).
  change (Deployment.withStatus "active" d0) with d.
  eexists. split; [reflexivity|].
  rewrite !Mongo_saveDeployment_world.
  cbn [Mongo.db Mongo.workers Mongo.deployments Mongo.replicas Mongo.nextObjectId
       Mongo.sent Mongo.socketWorkerId exec snd].
  unfold Mongo.newObjectId, mbind, M_bind, Mongo.readDb, Mongo.onDb, modifyWorld, mret,
    M_ret.
  cbn [Mongo.db Mongo.workers Mongo.deployments Mongo.replicas Mongo.nextObjectId
       Mongo.sent Mongo.socketWorkerId exec snd fst].
  destruct Hsound as [_ _ _ _ Hdo _ _].
  assert (Forall (λ z, Deployment.id z ≠ oid) (Mongo.deployments (Mongo.db w))) as Hfresh.
  { eapply Forall_impl; [exact Hdo|]. intros z Hz. simpl in Hz. fold oid in Hz. lia. }
  assert (¬ Exists (λ x, Deployment.id x = Deployment.id d0)
              (Mongo.deployments (Mongo.db w))) as Hnew.
  { intros (z & Hz & Hid)%Exists_exists.
    by apply (proj1 (Forall_forall _ _) Hfresh z). }
  rewrite (decide_False (P := Exists _ (Mongo.deployments (Mongo.db w)))) by exact Hnew.
  rewrite decide_True by (apply Exists_app; right; by constructor).
  split; [by apply (replace_last Deployment.id)|].
  split.
  { f_equal. apply imap_ext. intros i x _. simpl. f_equal. lia. }
  split; [done|]. split.
  { unfold initialReplicaNumbers. rewrite length_seq. lia. }
  split.
  { reflexivity. }
  split.
  { unfold Mongo.availableByLoad. apply (@Sorted_merge_sort _ _ _ cpuLe_total). }
  assert (Forall (λ worker, Mongo.matchesAvailable worker = true)
            (Mongo.availableByLoad (Mongo.db w))) as Hall.
  { unfold Mongo.availableByLoad. rewrite merge_sort_Permutation.
    apply Forall_forall. by intros x [? _]%list_elem_of_filter. }
  subst candidates. unfold Mongo.limit. destruct (maxReplicas =? 0)%Z; [done|].
  by apply Forall_take.
Qed.

(** X24. A deploy request of the MongoDB variant for a valid repository,
    with at least minReplicas candidates and no store error, returns the new
    deployment with status active.  The candidates are the available workers
    in ascending order of reported CPU usage, cut to maxReplicas; the first
    minReplicas of them are assigned replica numbers 1, 2, ...; the
    deployment takes the next ObjectId and is appended to the collection;
    minReplicas Replica documents, pending and numbered 1..minReplicas, take
    the ObjectIds that follow; every assigned worker still registered is
    sent one deployRepository message, in order; the workers are
    untouched. *)
Theorem Mongo_deployRepository_success (env : Env) (request : DeploymentRequest.t)
    (now : Time) (w : Mongo.World) (repoInfo : RepoInfo) :
  let minReplicas := default 1%Z (DeploymentRequest.minReplicas request) in
  let maxReplicas := default 3%Z (DeploymentRequest.maxReplicas request) in
  let candidates := Mongo.limit maxReplicas (Mongo.availableByLoad (Mongo.db w)) in
  let oid := Mongo.nextObjectId (Mongo.db w) in
  let d := Deployment.make oid (DeploymentRequest.githubRepo request)
             (DeploymentRequest.userName request) minReplicas maxReplicas "active"
             (initialAssignments minReplicas candidates) now None None in
  Mongo_consistent (Mongo.db w) →
  github env (Repo.normalizedUrl (DeploymentRequest.githubRepo request)) = Some repoInfo →
  (minReplicas ≤ Z.of_nat (length candidates))%Z →
  someReadRejected env (Deployment.workers d) = false →
  ∃ w',
    Mongo.deployRepository env request now w = (Returned d, w')
    ∧ Mongo.deployments (Mongo.db w') = Mongo.deployments (Mongo.db w) ++ [d]
    ∧ Mongo.replicas (Mongo.db w')
      = Mongo.replicas (Mongo.db w)
        ++ imap (λ i number, Replica.make (oid + 1 + i) oid "pending" number (Some now) None)
                (initialReplicaNumbers minReplicas)
    ∧ Mongo.workers (Mongo.db w') = Mongo.workers (Mongo.db w)
    ∧ Mongo.nextObjectId (Mongo.db w') = oid + 1 + Z.to_nat minReplicas
    ∧ Mongo.sent w'
      = Mongo.sent w
        ++ omap (dispatchedTo env (Mongo_find w) d repoInfo now) (Deployment.workers d)
    ∧ Sorted Mongo.cpuLe (Mongo.availableByLoad (Mongo.db w))
    ∧ Forall (λ worker, Mongo.matchesAvailable worker = true) candidates.
Proof. exact (Mongo_deployRepository_run env request now w repoInfo). Qed.

Lemma Mo_registered_consistent : Mongo_consistent (Mongo.db Scenario.Mo.registered).
Proof.
  constructor; apply (bool_decide_unpack _); vm_compute; reflexivity.
Qed.

Lemma Mongo_deployRepository_success_witness :
  ∃ w',
    Mongo.deployRepository Scenario.env Scenario.request 2000 Scenario.Mo.registered
    = (Returned (Deployment.make 3 "https://github.com/acme/app.git" "kazilsky" 1 3 "active"
                   [Assignment.make 1 1 "pending"] 2000 None None), w')
    ∧ Mongo.replicas (Mongo.db w')
      = [Replica.make 4 3 "pending" 1 (Some 2000%positive) None]
    ∧ Mongo.sent w'
      = Mongo.sent Scenario.Mo.registered
        ++ [("socket-1", deployRepository "./deployments/3_1"
                           "https://github.com/acme/app.git" 1 3 2000)].
Proof.
  destruct (Mongo_deployRepository_success Scenario.env Scenario.request 2000
              Scenario.Mo.registered Scenario.repoInfo Mo_registered_consistent)
    as (w' & Hrun & _ & Hreplicas & _ & _ & Hsent & _).
  - vm_compute. reflexivity.
  - vm_compute. discriminate.
  - vm_compute. reflexivity.
  - exists w'. split; [exact Hrun|]. split; [exact Hreplicas|exact Hsent].
Defined.



(** *** The Redis variant *)

(** What the loop that creates the replicas of a new deployment leaves
    behind. *)
Lemma Redis_createReplicas_run n now numbers w :
  let st := Redis.store w in
  let c := counter st "replica" in
  ∃ w',
    forEach numbers (λ replicaNumber,
      replicaId ← Redis.getNextId "replica";
      Redis.setReplica replicaId
        (Replica.make replicaId n "pending" replicaNumber (Some now) None) ;;
      Redis.saddReplicas n replicaId) w = (Returned tt, w')
    ∧ Redis.sent w' = Redis.sent w
    ∧ Redis.socketWorkerId w' = Redis.socketWorkerId w
    ∧ Redis.workerKeys (Redis.store w') = Redis.workerKeys st
    ∧ Redis.workersSet (Redis.store w') = Redis.workersSet st
    ∧ Redis.deploymentKeys (Redis.store w') = Redis.deploymentKeys st
    ∧ Redis.deploymentsSet (Redis.store w') = Redis.deploymentsSet st
    ∧ counter (Redis.store w') "replica" = c + length numbers
    ∧ (∀ type, type ≠ "replica" → counter (Redis.store w') type = counter st type)
    ∧ (∀ i number, numbers !! i = Some number →
         Redis.replicaKeys (Redis.store w') !! (c + 1 + i)
         = Some (Replica.make (c + 1 + i) n "pending" number (Some now) None)
         ∧ c + 1 + i ∈ Redis.replicaSetOf (Redis.store w') n)
    ∧ (∀ k, k ≤ c →
         Redis.replicaKeys (Redis.store w') !! k = Redis.replicaKeys st !! k)
    ∧ (∀ k, k ∈ Redis.replicaSetOf st n → k ∈ Redis.replicaSetOf (Redis.store w') n).
Proof.
  cbv zeta. revert w. induction numbers as [|number numbers IH]; intros w.
  - exists w. simpl. rewrite Nat.add_0_r.
    repeat split; try done; intros i x Hi; by rewrite lookup_nil in Hi.
  - cbn [forEach]. erewrite bind_returned by reflexivity.
    match goal with |- context [forEach numbers ?body ?w1] =>
      destruct (IH w1) as (w' & Hrun & Hsent & Hsock & Hwk & Hws & Hdk & Hds & Hc & Hother
                           & Hnew & Hold & Hset); rewrite Hrun; clear IH Hrun;
      set (w1' := w1) in * end.
    exists w'. split; [done|].
    assert (counter (Redis.store w1') "replica" = S (counter (Redis.store w) "replica"))
      as Hc1.
    { unfold counter. simpl. by rewrite lookup_insert_eq. }
    rewrite Hc1 in *.
    split; [by rewrite Hsent|]. split; [by rewrite Hsock|].
    split; [by rewrite Hwk|]. split; [by rewrite Hws|].
    split; [by rewrite Hdk|]. split; [by rewrite Hds|].
    split; [rewrite Hc; simpl; lia|].
    split.
    { intros type Htype. rewrite (Hother type Htype). unfold counter. simpl.
      by rewrite lookup_insert_ne. }
    split.
    { intros [|i] x Hi.
      - simpl in Hi. injection Hi as <-.
        replace (counter (Redis.store w) "replica" + 1 + 0)
          with (S (counter (Redis.store w) "replica")) by lia.
        split.
        + rewrite Hold by lia. simpl. unfold counter. by rewrite lookup_insert_eq.
        + apply Hset. unfold Redis.replicaSetOf at 1. simpl. rewrite lookup_insert_eq.
          simpl. apply elem_of_union. left. unfold counter. by apply elem_of_singleton.
      - simpl in Hi. destruct (Hnew i x Hi) as [Hk Hin].
        replace (counter (Redis.store w) "replica" + 1 + S i)
          with (S (counter (Redis.store w) "replica") + 1 + i) by lia.
        by split. }
    split.
    { intros k Hk. rewrite Hold by lia. simpl. rewrite lookup_insert_ne; [done|].
      unfold counter in Hk. lia. }
    intros k Hk. apply Hset. unfold Redis.replicaSetOf at 1. simpl.
    rewrite lookup_insert_eq. simpl. apply elem_of_union. by right.
Qed.

(** The run of a deploy request that finds enough candidates (Redis
    variant). *)
Lemma Redis_deployRepository_run (env : Env) (request : DeploymentRequest.t)
    (now : Time) (w : Redis.World) (repoInfo : RepoInfo) :
  let st := Redis.store w in
  let minReplicas := default 1%Z (DeploymentRequest.minReplicas request) in
  let maxReplicas := default 3%Z (DeploymentRequest.maxReplicas request) in
  let candidates := hosts (Redis_registered st) in
  let deploymentId := S (counter st "deployment") in
  let firstReplica := counter st "replica" in
  let d := Deployment.make deploymentId (DeploymentRequest.githubRepo request)
             (DeploymentRequest.userName request) minReplicas maxReplicas "active"
             (initialAssignments minReplicas candidates) now None None in
  github env (Repo.normalizedUrl (DeploymentRequest.githubRepo request)) = Some repoInfo →
  Redis_loadsReported st →
  (minReplicas ≤ Z.of_nat (length candidates))%Z →
  someReadRejected env (Deployment.workers d) = false →
  ∃ w',
    Redis.deployRepository env request now w = (Returned d, w')
    ∧ Redis.deploymentKeys (Redis.store w') = <[deploymentId := d]> (Redis.deploymentKeys st)
    ∧ Redis.deploymentsSet (Redis.store w') = {[deploymentId]} ∪ Redis.deploymentsSet st
    ∧ (∀ i number, initialReplicaNumbers minReplicas !! i = Some number →
         Redis.replicaKeys (Redis.store w') !! (firstReplica + 1 + i)
         = Some (Replica.make (firstReplica + 1 + i) deploymentId "pending" number
                              (Some now) None)
         ∧ firstReplica + 1 + i ∈ Redis.replicaSetOf (Redis.store w') deploymentId)
    ∧ (∀ k, k ≤ firstReplica →
         Redis.replicaKeys (Redis.store w') !! k = Redis.replicaKeys st !! k)
    ∧ counter (Redis.store w') "replica" = firstReplica + Z.to_nat minReplicas
    ∧ Redis.workerKeys (Redis.store w') = Redis.workerKeys st
    ∧ Redis.workersSet (Redis.store w') = Redis.workersSet st
    ∧ Redis.sent w'
      = Redis.sent w
        ++ omap (dispatchedTo env (Redis_find w) d repoInfo now) (Deployment.workers d).
Proof.
  intros st minReplicas maxReplicas candidates deploymentId firstReplica d
    Hvalid Hreported Henough Hserved.
  set (d0 := Deployment.withStatus "deploying" d).
  unfold Redis.deployRepository, Redis.validateGithubRepo. cbv zeta.
  erewrite bind_returned by reflexivity. rewrite Hvalid.
  rewrite (bind_returned (Redis.readStore id) _ w (Redis.store w) w) by reflexivity.
  assert (Redis.filterAvailable
            ((λ workerId, Redis.workerKeys (Redis.store w) !! workerId)
               <$> Redis.smembers (Redis.workersSet (Redis.store w)))
          = Returned candidates) as Hfilter.
  { rewrite filterAvailable_reported.
    - subst candidates st. by rewrite registered_records.
    - unfold Redis_loadsReported in Hreported. by rewrite registered_records in Hreported. }
  erewrite bind_returned by (unfold liftOutcome; rewrite Hfilter; reflexivity).
  fold minReplicas maxReplicas.
  rewrite (proj2 (Z.ltb_ge _ _) Henough).
  erewrite bind_returned by apply Redis_getNextId_run. fold st deploymentId.
  change (Deployment.make deploymentId _ _ _ _ "deploying" _ _ _ _) with d0.
  erewrite bind_returned by apply Redis_onStore_run.
  erewrite bind_returned by apply Redis_onStore_run.
  match goal with |- context [(forEach _ _ ≫= _) ?w3'] => set (w3 := w3') end.
  assert (counter (Redis.store w3) "replica" = firstReplica) as Hfirst.
  { subst w3. unfold exec, counter. simpl. by rewrite lookup_insert_ne. }
  assert (Redis.replicaKeys (Redis.store w3) = Redis.replicaKeys st) as Hrk by reflexivity.
  assert (Redis.deploymentKeys (Redis.store w3)
          = <[deploymentId := d0]> (Redis.deploymentKeys st)) as Hdk3 by reflexivity.
  assert (Redis.deploymentsSet (Redis.store w3)
          = {[deploymentId]} ∪ Redis.deploymentsSet st) as Hds3 by reflexivity.
  assert (Redis.workerKeys (Redis.store w3) = Redis.workerKeys st) as Hwk3 by reflexivity.
  assert (Redis.workersSet (Redis.store w3) = Redis.workersSet st) as Hws3 by reflexivity.
  assert (Redis.sent w3 = Redis.sent w) as Hsent3 by reflexivity.
  destruct (Redis_createReplicas_run deploymentId now
              (initialReplicaNumbers minReplicas) w3)
    as (w4 & Hrun & Hsent & Hsock & Hwk & Hws & Hdk & Hds & Hc & Hother
        & Hnew & Hold & Hset).
  clearbody w3.
  erewrite bind_returned by exact Hrun. clear Hrun.
  rewrite Redis_distributeToWorkers_run. cbv zeta.
  change (Deployment.workers d0) with (Deployment.workers d).
  rewrite Hserved, (servedBeforeFailure_all env _ Hserved).
  change (Deployment.withStatus "active" d0) with d.
  eexists. split; [reflexivity|].
  unfold exec, Redis.setDeployment, Redis.onStore, modifyWorld.
  cbn [snd Redis.store Redis.sent Redis.deploymentKeys Redis.deploymentsSet
       Redis.replicaKeys Redis.workerKeys Redis.workersSet Redis.counters
       Redis.replicaSets Deployment.id].
  rewrite Hfirst, Hrk in *.
  split; [by rewrite Hdk, Hdk3, insert_insert_eq|].
  split; [by rewrite Hds, Hds3|].
  split.
  { intros i number Hi. destruct (Hnew i number Hi) as [Hk Hin]. split; [done|].
    revert Hin. unfold Redis.replicaSetOf. by simpl. }
  split; [exact Hold|].
  split.
  { unfold counter in *. simpl. rewrite Hc. unfold initialReplicaNumbers.
    by rewrite length_seq. }
  split; [by rewrite Hwk, Hwk3|]. split; [by rewrite Hws, Hws3|].
  rewrite Hsent, Hsent3. unfold Redis_find. cbn [Redis.store].
  by rewrite Hwk, Hwk3.
Qed.


Lemma R_registered_loadsReported : Redis_loadsReported (Redis.store Scenario.R.registered).
Proof.
  intros worker Hin _.
  assert (Forall (λ x, is_Some (Worker.currentLoad x))
            (Redis_registered (Redis.store Scenario.R.registered))) as Hall.
  { vm_compute. repeat constructor; by eexists. }
  by apply (proj1 (Forall_forall _ _) Hall).
Qed.


End DeploySuccessFacts.

(** ** The defaults of a deploy request *)

Module DefaultsFacts.
Import MonadFacts DeployFacts DeploySuccessFacts.

Lemma Mongo_deployRepository_few env request now w repoInfo :
  let minReplicas := default 1%Z (DeploymentRequest.minReplicas request) in
  let maxReplicas := default 3%Z (DeploymentRequest.maxReplicas request) in
  let candidates := Mongo.limit maxReplicas (Mongo.availableByLoad (Mongo.db w)) in
  github env (Repo.normalizedUrl (DeploymentRequest.githubRepo request)) = Some repoInfo →
  (Z.of_nat (length candidates) < minReplicas)%Z →
  Mongo.deployRepository env request now w
  = (Thrown (InsufficientWorkers minReplicas (length candidates)), w).
Proof.
  intros minReplicas maxReplicas candidates Hvalid Hfew.
  unfold Mongo.deployRepository, Mongo.validateGithubRepo, Mongo.readDb,
    mbind, M_bind, mret, M_ret, throw; simpl.
  rewrite Hvalid. simpl. fold minReplicas maxReplicas candidates.
  by rewrite (proj2 (Z.ltb_lt _ _) Hfew).
Qed.

(** C9. deployRepository, which POST /deploy calls with the request body.  A
    request that omits minReplicas runs exactly as the same request with
    minReplicas 1, and one that omits maxReplicas as the same request with
    maxReplicas 3, on every world and in both variants.  A supplied value is
    the one used: with minReplicas m and maxReplicas M supplied, for a valid
    repository, the call fails with InsufficientWorkers(m, found) when fewer
    than m candidates are found and changes nothing; otherwise (no store
    error) it returns the active deployment that records m and M and assigns
    the first m candidates, and creates the m pending replicas numbered
    1..m.  The candidates are the workers that pass the filter: all of them,
    in the order of smembers, in the Redis variant (every active worker
    having reported its load); in ascending order of CPU usage and cut by
    [.limit(M)] in the MongoDB variant. *)
Theorem deployRepository_defaults (env : Env) (githubRepo userName : string)
    (now : Time) :
  let request := DeploymentRequest.make githubRepo userName in
  (∀ maxReplicas w,
     Redis.deployRepository env (request None maxReplicas) now w
     = Redis.deployRepository env (request (Some 1%Z) maxReplicas) now w)
  ∧ (∀ minReplicas w,
       Redis.deployRepository env (request minReplicas None) now w
       = Redis.deployRepository env (request minReplicas (Some 3%Z)) now w)
  ∧ (∀ maxReplicas w,
       Mongo.deployRepository env (request None maxReplicas) now w
       = Mongo.deployRepository env (request (Some 1%Z) maxReplicas) now w)
  ∧ (∀ minReplicas w,
       Mongo.deployRepository env (request minReplicas None) now w
       = Mongo.deployRepository env (request minReplicas (Some 3%Z)) now w)
  ∧ (∀ (m M : Z) w repoInfo,
       let st := Redis.store w in
       let candidates := hosts (Redis_registered st) in
       let deploymentId := S (counter st "deployment") in
       let firstReplica := counter st "replica" in
       let d := Deployment.make deploymentId githubRepo userName m M "active"
                  (initialAssignments m candidates) now None None in
       github env (Repo.normalizedUrl githubRepo) = Some repoInfo →
       Redis_loadsReported st →
       ((Z.of_nat (length candidates) < m)%Z →
        Redis.deployRepository env (request (Some m) (Some M)) now w
        = (Thrown (InsufficientWorkers m (length candidates)), w))
       ∧ ((m ≤ Z.of_nat (length candidates))%Z →
          someReadRejected env (Deployment.workers d) = false →
          ∃ w',
            Redis.deployRepository env (request (Some m) (Some M)) now w = (Returned d, w')
            ∧ Redis.deploymentKeys (Redis.store w') !! deploymentId = Some d
            ∧ counter (Redis.store w') "replica" = firstReplica + Z.to_nat m
            ∧ ∀ i number, initialReplicaNumbers m !! i = Some number →
                Redis.replicaKeys (Redis.store w') !! (firstReplica + 1 + i)
                = Some (Replica.make (firstReplica + 1 + i) deploymentId "pending" number
                                     (Some now) None)))
  ∧ (∀ (m M : Z) w repoInfo,
       let candidates := Mongo.limit M (Mongo.availableByLoad (Mongo.db w)) in
       let oid := Mongo.nextObjectId (Mongo.db w) in
       let d := Deployment.make oid githubRepo userName m M "active"
                  (initialAssignments m candidates) now None None in
       github env (Repo.normalizedUrl githubRepo) = Some repoInfo →
       Mongo_consistent (Mongo.db w) →
       ((Z.of_nat (length candidates) < m)%Z →
        Mongo.deployRepository env (request (Some m) (Some M)) now w
        = (Thrown (InsufficientWorkers m (length candidates)), w))
       ∧ ((m ≤ Z.of_nat (length candidates))%Z →
          someReadRejected env (Deployment.workers d) = false →
          ∃ w',
            Mongo.deployRepository env (request (Some m) (Some M)) now w = (Returned d, w')
            ∧ Mongo.deployments (Mongo.db w') = Mongo.deployments (Mongo.db w) ++ [d]
            ∧ Mongo.replicas (Mongo.db w')
              = Mongo.replicas (Mongo.db w)
                ++ imap (λ i number, Replica.make (oid + 1 + i) oid "pending" number
                                       (Some now) None)
                        (initialReplicaNumbers m))).
Proof.
  cbv zeta. split; [done|]. split; [done|]. split; [done|]. split; [done|]. split.
  - intros m M w repoInfo Hvalid Hreported. split.
    + intros Hfew.
      destruct (Redis_deployRepository_insufficient env
                  (DeploymentRequest.make githubRepo userName (Some m) (Some M)) now w Hfew)
        as [_ Hkind].
      apply Hkind; [|done]. simpl. rewrite Hvalid. by eexists.
    + intros Henough Hserved.
      destruct (Redis_deployRepository_run env
                  (DeploymentRequest.make githubRepo userName (Some m) (Some M)) now w
                  repoInfo Hvalid Hreported Henough Hserved)
        as (w' & Hrun & Hkeys & _ & Hnew & _ & Hcounter & _).
      exists w'. split; [exact Hrun|]. split.
      { rewrite Hkeys. apply lookup_insert_eq. }
      split; [exact Hcounter|].
      intros i number Hi. exact (proj1 (Hnew i number Hi)).
  - intros m M w repoInfo Hvalid Hsound. split.
    + intros Hfew.
      exact (Mongo_deployRepository_few env
               (DeploymentRequest.make githubRepo userName (Some m) (Some M)) now w
               repoInfo Hvalid Hfew).
    + intros Henough Hserved.
      destruct (Mongo_deployRepository_run env
                  (DeploymentRequest.make githubRepo userName (Some m) (Some M)) now w
                  repoInfo Hsound Hvalid Henough Hserved)
        as (w' & Hrun & Hdeployments & Hreplicas & _).
      exists w'. split; [exact Hrun|]. split; [exact Hdeployments|exact Hreplicas].
Qed.

(** Two idle workers are registered.  A body without minReplicas and
    maxReplicas gives a deployment with bounds 1 and 3 and one replica, on
    worker 1.  A body with minReplicas 2 and maxReplicas 5 gives bounds 2 and
    5 and two replicas, on workers 1 and 2.  With minReplicas 2 and
    maxReplicas 1 the MongoDB variant asks for one worker only and fails with
    InsufficientWorkers(2, 1). *)
Lemma deployRepository_defaults_witness :
  let request := DeploymentRequest.make "https://github.com/acme/app.git" "kazilsky" in
  (∃ w',
     Redis.deployRepository Scenario.env (request None None) 2000 Scenario.R.registered
     = (Returned (Deployment.make 1 "https://github.com/acme/app.git" "kazilsky" 1 3
                    "active" [Assignment.make 1 1 "pending"] 2000 None None), w')
     ∧ counter (Redis.store w') "replica" = 1)
  ∧ (∃ w',
       Redis.deployRepository Scenario.env (request (Some 2%Z) (Some 5%Z)) 2000
         Scenario.R.registered
       = (Returned (Deployment.make 1 "https://github.com/acme/app.git" "kazilsky" 2 5
                      "active" [Assignment.make 1 1 "pending"; Assignment.make 2 2 "pending"]
                      2000 None None), w')
       ∧ counter (Redis.store w') "replica" = 2)
  ∧ (∃ w',
       Mongo.deployRepository Scenario.env (request None None) 2000 Scenario.Mo.registered
       = (Returned (Deployment.make 3 "https://github.com/acme/app.git" "kazilsky" 1 3
                      "active" [Assignment.make 1 1 "pending"] 2000 None None), w')
       ∧ Mongo.replicas (Mongo.db w')
         = [Replica.make 4 3 "pending" 1 (Some 2000%positive) None])
  ∧ Mongo.deployRepository Scenario.env (request (Some 2%Z) (Some 1%Z)) 2000
      Scenario.Mo.registered
    = (Thrown (InsufficientWorkers 2 1), Scenario.Mo.registered).
Proof.
  cbv zeta.
  destruct (deployRepository_defaults Scenario.env "https://github.com/acme/app.git"
              "kazilsky" 2000)
    as (HminR & HmaxR & HminM & HmaxM & HRedis & HMongo).
  assert (github Scenario.env (Repo.normalizedUrl "https://github.com/acme/app.git")
          = Some Scenario.repoInfo) as Hvalid by (vm_compute; reflexivity).
  split; [|split; [|split]].
  - rewrite HminR, HmaxR.
    destruct (HRedis 1%Z 3%Z Scenario.R.registered Scenario.repoInfo Hvalid
                R_registered_loadsReported) as [_ Hsuccess].
    destruct Hsuccess as (w' & Hrun & _ & Hcounter & _);
      [vm_compute; discriminate|vm_compute; reflexivity|].
    exists w'. split; [exact Hrun|exact Hcounter].
  - destruct (HRedis 2%Z 5%Z Scenario.R.registered Scenario.repoInfo Hvalid
                R_registered_loadsReported) as [_ Hsuccess].
    destruct Hsuccess as (w' & Hrun & _ & Hcounter & _);
      [vm_compute; discriminate|vm_compute; reflexivity|].
    exists w'. split; [exact Hrun|exact Hcounter].
  - rewrite HminM, HmaxM.
    destruct (HMongo 1%Z 3%Z Scenario.Mo.registered Scenario.repoInfo Hvalid
                Mo_registered_consistent) as [_ Hsuccess].
    destruct Hsuccess as (w' & Hrun & _ & Hreplicas);
      [vm_compute; discriminate|vm_compute; reflexivity|].
    exists w'. split; [exact Hrun|exact Hreplicas].
  - destruct (HMongo 2%Z 1%Z Scenario.Mo.registered Scenario.repoInfo Hvalid
                Mo_registered_consistent) as [Hfew _].
    apply Hfew. vm_compute. reflexivity.
Defined.

End DefaultsFacts.

(** ** A deployment on the agent when every command succeeds *)

Module HappyPathFacts.
Import WorkerNode DeployProjectFacts.

Section OnHost.
Context (host : Host) (Hok : ∀ n c, fails host n c = false).




End OnHost.



End HappyPathFacts.

(** ** Registration: a round trip, and the first report *)

Module RegistrationFacts.
Import MonadFacts DeployFacts.

(** X26. A registration followed by the disconnect of the same socket
    leaves no trace in the registry.  In the Redis variant, on a consistent
    store, the worker keys and the workers set are exactly what they were
    (only the counter and the workerRegistered message remain); in the
    MongoDB variant, on consistent collections, what remains is the old
    collection without the workers of that hostname, which the registration
    purged. *)
Theorem register_then_disconnect (socket : SocketId) (hostname : string) (now : Time) :
  (∀ w, Redis_consistent (Redis.store w) →
        let w' := exec (Redis.registerWorker socket hostname now ;; Redis.disconnect socket) w in
        let workerId := S (counter (Redis.store w) "worker") in
        Redis.workerKeys (Redis.store w') = Redis.workerKeys (Redis.store w)
        ∧ Redis.workersSet (Redis.store w') = Redis.workersSet (Redis.store w)
        ∧ Redis.deploymentKeys (Redis.store w') = Redis.deploymentKeys (Redis.store w)
        ∧ Redis.replicaKeys (Redis.store w') = Redis.replicaKeys (Redis.store w)
        ∧ counter (Redis.store w') "worker" = workerId
        ∧ Redis.sent w' = Redis.sent w ++ [(socket, workerRegistered workerId)])
  ∧ (∀ w, Mongo_consistent (Mongo.db w) →
          let w' := exec (Mongo.registerWorker socket hostname now ;; Mongo.disconnect socket) w in
          Mongo.workers (Mongo.db w')
          = filter (λ x, Worker.hostname x ≠ hostname) (Mongo.workers (Mongo.db w))
          ∧ Mongo.deployments (Mongo.db w') = Mongo.deployments (Mongo.db w)
          ∧ Mongo.replicas (Mongo.db w') = Mongo.replicas (Mongo.db w)
          ∧ Mongo.sent w'
            = Mongo.sent w
              ++ [(socket, workerRegistered (Mongo.nextObjectId (Mongo.db w)))]).
Proof.
  split; intros w Hw; cbv zeta.
  - destruct Hw as [Hws Hwo _ _ _].
    unfold exec, Redis.registerWorker, Redis.disconnect, tryCatch, Redis.getNextId,
      Redis.incr, mbind, M_bind, Redis.readStore, Redis.onStore, Redis.setWorker,
      Redis.saddWorkers, Redis.setSocketWorkerId, Redis.emit, Redis.sremWorkers,
      Redis.delWorker, modifyWorld, getWorld, mret, M_ret. simpl.
    rewrite lookup_insert_eq. simpl.
    set (n := S (default 0 (Redis.counters (Redis.store w) !! "worker"))).
    assert (Redis.workerKeys (Redis.store w) !! n = None) as Hfresh.
    { destruct (Redis.workerKeys (Redis.store w) !! n) as [x|] eqn:Hx; [|done].
      destruct (Hwo n x Hx) as [_ Hle]. unfold counter in Hle. subst n. lia. }
    split; [by apply delete_insert_id|]. split.
    { apply set_eq. intros k.
      rewrite elem_of_difference, elem_of_union, elem_of_singleton.
      split; [by intros [[->|?] ?]|]. intros Hk. split; [by right|].
      intros ->. apply Hws in Hk as [x Hx]. congruence. }
    unfold counter. simpl. by rewrite lookup_insert_eq.
  - destruct Hw as [_ Hwo _ _ _ _ _].
    unfold exec. erewrite bind_returned by apply RegistryFacts.Mongo_registerWorker_run.
    rewrite RegistryFacts.Mongo_disconnect_run. cbn [snd Mongo.socketWorkerId].
    rewrite lookup_insert_eq. simpl. split; [|done].
    rewrite filter_app. rewrite filter_cons_False by (simpl; by intros []).
    rewrite filter_nil, app_nil_r. apply SweepFacts.filter_all.
    intros x Hx%list_elem_of_filter. destruct Hx as [_ Hx].
    apply (proj1 (Forall_forall _ _) Hwo) in Hx. lia.
Qed.

Lemma R_registered_consistent : Redis_consistent (Redis.store Scenario.R.registered).
Proof.
  unfold Scenario.R.registered.
  assert (preserves Redis_sound
            (Redis.registerWorker "socket-1" "host-a" 1000 ;;
             Redis.registerWorker "socket-2" "host-b" 1001 ;;
             Redis.workerStatus 1 "active" Scenario.idle 1500 ;;
             Redis.workerStatus 2 "active" Scenario.idle 1501)) as Hrun.
  { repeat (apply InvariantFacts.preserves_bind; [|intros _]);
      first [apply InvariantFacts.Redis_registerWorker_sound
            |apply InvariantFacts.Redis_workerStatus_sound]. }
  apply Hrun, InvariantFacts.Redis_empty_sound.
Qed.

Lemma register_then_disconnect_witness :
  Redis_consistent (Redis.store Scenario.R.registered)
  ∧ Redis.workerKeys
      (Redis.store (exec (Redis.registerWorker "socket-3" "host-c" 5000 ;;
                          Redis.disconnect "socket-3") Scenario.R.registered))
    = Redis.workerKeys (Redis.store Scenario.R.registered)
  ∧ Mongo_consistent (Mongo.db Scenario.Mo.registered)
  ∧ Mongo.workers
      (Mongo.db (exec (Mongo.registerWorker "socket-3" "host-a" 5000 ;;
                       Mongo.disconnect "socket-3") Scenario.Mo.registered))
    = filter (λ x, Worker.hostname x ≠ "host-a")
             (Mongo.workers (Mongo.db Scenario.Mo.registered)).
Proof.
  split; [exact R_registered_consistent|]. split.
  { exact (proj1 (proj1 (register_then_disconnect "socket-3" "host-c" 5000)
                    Scenario.R.registered R_registered_consistent)). }
  split; [exact DeploySuccessFacts.Mo_registered_consistent|].
  exact (proj1 (proj2 (register_then_disconnect "socket-3" "host-a" 5000)
                  Scenario.Mo.registered DeploySuccessFacts.Mo_registered_consistent)).
Defined.

Lemma filterAvailable_fresh records :
  (∃ worker, Some worker ∈ records
             ∧ Worker.status worker = "active" ∧ Worker.currentLoad worker = None) →
  Redis.filterAvailable records = Thrown TypeError.
Proof.
  intros (worker & Hin & Hactive & Hload).
  induction records as [|[x|] records IH]; [by apply elem_of_nil in Hin| |].
  - simpl. apply elem_of_cons in Hin as [[= <-]|Hin].
    + unfold Redis.isAvailable. by rewrite decide_True, Hload.
    + rewrite (IH Hin).
      destruct (PlacementFacts.isAvailable_outcomes x) as [->|(-> & _)]; done.
  - simpl. apply elem_of_cons in Hin as [[=]|Hin]. by apply IH.
Qed.

(** X27. In the Redis variant a worker that has registered and not yet sent
    its first workerStatus (status active, no currentLoad) makes every deploy
    request for a valid repository fail with a TypeError, whatever the other
    workers report, and the world is left unchanged: the placement filter
    reads currentLoad.cpuUsage of every active worker.  The MongoDB query
    just does not match such a worker. *)
Theorem Redis_fresh_worker_blocks_deploy (env : Env) (request : DeploymentRequest.t)
    (now : Time) (w : Redis.World) :
  is_Some (github env (Repo.normalizedUrl (DeploymentRequest.githubRepo request))) →
  Redis_freshWorker (Redis.store w) →
  Redis.deployRepository env request now w = (Thrown TypeError, w)
  ∧ ∀ worker, Worker.status worker = "active" → Worker.currentLoad worker = None →
              Mongo.matchesAvailable worker = false.
Proof.
  intros [repoInfo Hvalid] (worker & Hin & Hactive & Hload). split.
  - unfold Redis.deployRepository, Redis.validateGithubRepo, Redis.readStore,
      mbind, M_bind, mret, M_ret, throw, liftOutcome; simpl.
    rewrite Hvalid. rewrite filterAvailable_fresh; [done|].
    exists worker. split; [|done].
    unfold Redis_registered in Hin. apply list_elem_of_omap in Hin as (k & Hk & Hlookup).
    apply list_elem_of_fmap. exists k. by rewrite Hlookup.
  - intros x Hx Hnone. unfold Mongo.matchesAvailable. rewrite Hnone.
    by rewrite andb_false_r.
Qed.

Lemma Redis_fresh_worker_blocks_deploy_witness :
  is_Some (github Scenario.env
             (Repo.normalizedUrl (DeploymentRequest.githubRepo Scenario.request)))
  ∧ Redis_freshWorker (Redis.store Scenario.R_fresh)
  ∧ Redis.deployRepository Scenario.env Scenario.request 2000 Scenario.R_fresh
    = (Thrown TypeError, Scenario.R_fresh).
Proof.
  assert (is_Some (github Scenario.env
            (Repo.normalizedUrl (DeploymentRequest.githubRepo Scenario.request))))
    as Hvalid by (vm_compute; by eexists).
  assert (Redis_freshWorker (Redis.store Scenario.R_fresh)) as Hfresh.
  { exists (Worker.make 1 "host-a" "socket-1" "active" 1000 None).
    split; [|done].
    assert (Redis_registered (Redis.store Scenario.R_fresh)
            = [Worker.make 1 "host-a" "socket-1" "active" 1000 None]) as ->
      by (vm_compute; reflexivity).
    left. }
  split; [exact Hvalid|]. split; [exact Hfresh|].
  exact (proj1 (Redis_fresh_worker_blocks_deploy Scenario.env Scenario.request 2000
                  Scenario.R_fresh Hvalid Hfresh)).
Defined.

End RegistrationFacts.

(** ** Which worker a scale-up is placed on *)

Module ChoiceFacts.
Import PlacementFacts.





End ChoiceFacts.

(** ** The memory reading of the agent *)

Module MemoryFacts.
Import WorkerNode.






End MemoryFacts.
